(** * SEC.py: the ingestion pipeline of the SEC XBRL data sets

    A shallow embedding of [src/SEC.py] and of the properties its
    specification states about it.  Python strings are modelled by
    [String.string] (a [str] by its UTF-8 bytes: every string operation the
    program uses -- splitting and replacing on one ASCII character, suffix and
    substring tests, lexicographic sorting -- commutes with that encoding),
    lists by [list], the insertion-ordered [dict] of [get_paths_dict] by an
    association list, the [float] of the skipped percentage by the binary64
    numbers of [SpecFloat], and the effects of the program (the ledger file, the
    log, the CSV files, the calls to Redivis and Slack) by a state and
    exception monad over an explicit trace of events. *)

From Stdlib Require Import List String Ascii Bool Arith ZArith Lia DecimalString.
From Stdlib Require Import Sorted SpecFloat.
Import ListNotations.
Local Open Scope string_scope.
Local Open Scope list_scope.

Set Implicit Arguments.

(** ** Python built-ins used by the program *)

Module Py.

Definition TAB : ascii := "009"%char.
Definition LF : ascii := "010"%char.
Definition BACKSLASH : ascii := "092"%char.
Definition DQUOTE : ascii := "034"%char.
Definition SQUOTE : ascii := "039"%char.
Definition SPACE : ascii := " "%char.

(** [s.split(sep)] for a separator of one character: never empty, and one
    field more than there are separators. *)
Fixpoint split (sep : ascii) (s : string) : list string :=
  match s with
  | EmptyString => [EmptyString]
  | String c s' =>
      if Ascii.eqb c sep then EmptyString :: split sep s'
      else match split sep s' with
           | [] => [String c EmptyString]
           | f :: fs => String c f :: fs
           end
  end.

(** [s.replace(old, new)] for a pattern [old] of one character. *)
Fixpoint replace (old : ascii) (new : string) (s : string) : string :=
  match s with
  | EmptyString => EmptyString
  | String c s' =>
      if Ascii.eqb c old then (new ++ replace old new s')%string
      else String c (replace old new s')
  end.

(** [s.endswith(suffix)]. *)
Fixpoint endswith (s suffix : string) : bool :=
  String.eqb s suffix ||
  match s with
  | EmptyString => false
  | String _ s' => endswith s' suffix
  end.

(** [sub in s]. *)
Fixpoint contains (sub s : string) : bool :=
  String.prefix sub s ||
  match s with
  | EmptyString => false
  | String _ s' => contains sub s'
  end.

(** The bytes [bytes.strip()] removes at both ends. *)
Definition is_space (c : ascii) : bool :=
  let n := nat_of_ascii c in
  Nat.eqb n 32 || (Nat.leb 9 n && Nat.leb n 13).

Fixpoint lstrip (s : string) : string :=
  match s with
  | EmptyString => EmptyString
  | String c s' => if is_space c then lstrip s' else s
  end.

Fixpoint rstrip (s : string) : string :=
  match s with
  | EmptyString => EmptyString
  | String c s' =>
      let r := rstrip s' in
      if is_space c && String.eqb r EmptyString then EmptyString
      else String c r
  end.

Definition strip (s : string) : string := rstrip (lstrip s).

(** [b.decode('ascii')]: [None] stands for [UnicodeDecodeError]. *)
Fixpoint decode_ascii (s : string) : option string :=
  match s with
  | EmptyString => Some EmptyString
  | String c s' =>
      if Nat.ltb (nat_of_ascii c) 128 then
        match decode_ascii s' with
        | Some r => Some (String c r)
        | None => None
        end
      else None
  end.

(** [file.readlines()] of a file opened in binary mode: the content cut
    after every line feed, the line feeds kept. *)
Fixpoint readlines (content : string) : list string :=
  match content with
  | EmptyString => []
  | String c s' =>
      if Ascii.eqb c LF then String c EmptyString :: readlines s'
      else match readlines s' with
           | [] => [String c EmptyString]
           | l :: ls => String c l :: ls
           end
  end.

(** [x in l] for a list of strings. *)
Definition mem (x : string) (l : list string) : bool :=
  existsb (String.eqb x) l.

(** [sorted(v)] on strings: the order is total and two strings that compare
    equal are the same string, so insertion sort gives the list Python
    gives. *)
Fixpoint insert_sorted (x : string) (l : list string) : list string :=
  match l with
  | [] => [x]
  | y :: l' => if String.leb x y then x :: l else y :: insert_sorted x l'
  end.

Fixpoint sorted (l : list string) : list string :=
  match l with
  | [] => []
  | x :: l' => insert_sorted x (sorted l')
  end.

(** Equality of two lists of strings, Python's [==] on them. *)
Fixpoint list_eqb (a b : list string) : bool :=
  match a, b with
  | [], [] => true
  | x :: a', y :: b' => String.eqb x y && list_eqb a' b'
  | _, _ => false
  end.

(** [l.index(x)]: the position of the first element equal to [x];
    [None] stands for [ValueError]. *)
Fixpoint index (x : list string) (l : list (list string)) : option nat :=
  match l with
  | [] => None
  | y :: l' =>
      if list_eqb y x then Some 0
      else match index x l' with
           | Some n => Some (S n)
           | None => None
           end
  end.

(** [l.remove(x)]: the list without its first element equal to [x];
    [None] stands for [ValueError]. *)
Fixpoint remove (x : list string) (l : list (list string))
  : option (list (list string)) :=
  match l with
  | [] => None
  | y :: l' =>
      if list_eqb y x then Some l'
      else match remove x l' with
           | Some r => Some (y :: r)
           | None => None
           end
  end.

(** Truth value of a string: only the empty string is false. *)
Definition truthy (s : string) : bool := negb (String.eqb s EmptyString).

(** Whether a string, given by its bytes, is text that the UTF-8 codec
    encodes: the bytes are well-formed UTF-8 (no stray or missing
    continuation byte, no overlong form, no surrogate, nothing above
    U+10FFFF).  A file name that is not comes out of [os.walk] with lone
    surrogates, which a text-mode [write] refuses with
    [UnicodeEncodeError]. *)
Definition byte_in (lo hi : nat) (c : ascii) : bool :=
  Nat.leb lo (nat_of_ascii c) && Nat.leb (nat_of_ascii c) hi.

Definition continuation (c : ascii) : bool := byte_in 128 191 c.

Definition lead2 (c : ascii) : bool := byte_in 194 223 c.

Definition lead3 (c c1 : ascii) : bool :=
  byte_in 224 224 c && byte_in 160 191 c1
  || byte_in 225 236 c && continuation c1
  || byte_in 237 237 c && byte_in 128 159 c1
  || byte_in 238 239 c && continuation c1.

Definition lead4 (c c1 : ascii) : bool :=
  byte_in 240 240 c && byte_in 144 191 c1
  || byte_in 241 243 c && continuation c1
  || byte_in 244 244 c && byte_in 128 143 c1.

Fixpoint valid_utf8 (s : string) : bool :=
  match s with
  | EmptyString => true
  | String c s1 =>
      if Nat.ltb (nat_of_ascii c) 128 then valid_utf8 s1
      else
        match s1 with
        | EmptyString => false
        | String c1 s2 =>
            if lead2 c && continuation c1 then valid_utf8 s2
            else
              match s2 with
              | EmptyString => false
              | String c2 s3 =>
                  if lead3 c c1 && continuation c2 then valid_utf8 s3
                  else
                    match s3 with
                    | EmptyString => false
                    | String c3 s4 =>
                        lead4 c c1 && continuation c2 && continuation c3
                        && valid_utf8 s4
                    end
              end
        end
  end.

(** [round(a / b, 0)] for integers [a] and [0 < b], to the nearest integer,
    a tie going to the even neighbour as Python's [round] does. *)
Definition round_half_even (a b : Z) : Z :=
  let q := (a / b)%Z in
  let r := (a mod b)%Z in
  if (2 * r <? b)%Z then q
  else if (b <? 2 * r)%Z then (q + 1)%Z
  else if Z.even q then q else (q + 1)%Z.

(** A Python [float] is an IEEE 754 binary64 number: [spec_float] with a
    precision of 53 bits and infinities at exponent 1024.  Its arithmetic is
    that of the standard library's [SpecFloat], each operation rounding the
    exact result to the nearest float, a tie going to the even mantissa. *)
Definition prec : Z := 53.
Definition emax : Z := 1024.

(** An [int] as an operand of a float operation, with its exact value. *)
Definition float_of_int (z : Z) : spec_float :=
  match z with
  | Z0 => S754_zero false
  | Zpos p => S754_finite false p 0
  | Zneg p => S754_finite true p 0
  end.

(** [a / b] on two [int]s, [b] not zero: the float nearest to the exact
    quotient (the two integers are not rounded first). *)
Definition truediv (a b : Z) : spec_float :=
  SFdiv prec emax (float_of_int a) (float_of_int b).

(** [x * y] on floats. *)
Definition float_mul (x y : spec_float) : spec_float := SFmul prec emax x y.

(** [round(x, ndigits)] as a format with [ndigits] decimals prints it, in
    units of [10 ** -ndigits]: the exact value of the float [x], which is
    [m * 2 ** e], rounded to [ndigits] decimals, a tie going to the even
    digit.  Infinities and NaN, which a quotient of two list lengths never
    is, are given 0. *)
Definition round (x : spec_float) (ndigits : nat) : Z :=
  match x with
  | S754_finite s m e =>
      let a := (Zpos m * 10 ^ Z.of_nat ndigits)%Z in
      let v := match e with
               | Zneg p => round_half_even a (Z.pow_pos 2 p)
               | _ => (a * 2 ^ e)%Z
               end in
      if s then (- v)%Z else v
  | _ => 0%Z
  end.

End Py.

(** ** Effects: exceptions, the event trace, the ledger file *)

Inductive Exn : Type :=
| ValueError
| IndexError
| ZeroDivisionError
| UnicodeDecodeError
| UploadError.

(** The lines the program logs, one constructor for each [logging] call of
    [upload_append_csv_files] and [write_uploaded_tables], with the values the
    message is formatted from.  The skipped percentage is carried in
    thousandths, the three decimals that [: .3f] prints. *)
Inductive Msg : Type :=
| MUpToDate
| MTableName (table_name : string)
| MEmptyFile
| MSeparator
| MNumberOfRows (n : Z)
| MFilePath (path : string)
| MRowIndex (i : nat)
| MRemovedRow (cleaned : list string)
| MTotalSkipped (n : Z)
| MPctSkipped (thousandths : Z)
| MUploaded (csv_name dataset_name : string)
| MLedgerWrite (table_name_full_path : string)
| MSlackFailed.

(** What a run does to the outside, in the order it does it. *)
Inductive Event : Type :=
| Info (m : Msg)
| Error (m : Msg)
| ReadLines (path : string)
| ToCsv (csv_path : string) (columns : list string) (rows : list (list string))
| Upload (table_name dataset_path : string) (finished : bool)
| SlackPost (message : string) (posted : bool).

(** The state a run works on: the content of the ledger file, the one file
    that [text_file_path] names ([None] while it does not exist), and the
    trace of events so far. *)
Record State : Type := mkState {
  ledger : option string;
  trace : list Event
}.

Inductive Result (A : Type) : Type :=
| Ok (a : A)
| Raise (e : Exn).
Arguments Ok {A} a.
Arguments Raise {A} e.

Definition M (A : Type) : Type := State -> Result A * State.

Definition ret {A} (a : A) : M A := fun st => (Ok a, st).

Definition bind {A B} (m : M A) (f : A -> M B) : M B :=
  fun st =>
    match m st with
    | (Ok a, st') => f a st'
    | (Raise e, st') => (Raise e, st')
    end.

Definition raise {A} (e : Exn) : M A := fun st => (Raise e, st).

Definition emit (e : Event) : M unit :=
  fun st => (Ok tt, mkState (ledger st) (trace st ++ [e])).

Definition logging_info (m : Msg) : M unit := emit (Info m).
Definition logging_error (m : Msg) : M unit := emit (Error m).

Declare Scope monad_scope.
Delimit Scope monad_scope with monad.
Notation "x <- m ;; k" := (bind m (fun x => k))
  (at level 61, m at next level, right associativity) : monad_scope.
Notation "m ;; k" := (bind m (fun _ => k))
  (at level 61, right associativity) : monad_scope.
Local Open Scope monad_scope.

(** [for x in l: body(x)] *)
Fixpoint for_each {A} (l : list A) (body : A -> M unit) : M unit :=
  match l with
  | [] => ret tt
  | x :: l' => body x ;; for_each l' body
  end.

(** A loop that carries its variables from one iteration to the next. *)
Fixpoint for_fold {A B} (l : list A) (body : B -> A -> M B) (b : B) : M B :=
  match l with
  | [] => ret b
  | x :: l' => b' <- body b x ;; for_fold l' body b'
  end.

Fixpoint enumerate_from {A} (i : nat) (l : list A) : list (nat * A) :=
  match l with
  | [] => []
  | x :: l' => (i, x) :: enumerate_from (S i) l'
  end.

Definition enumerate {A} (l : list A) : list (nat * A) := enumerate_from 0 l.

(** ** The collaborators of a run *)

(** [tree] is the directory tree under the top directory given to [os.walk]:
    for each directory, in the order of the walk, the text that follows the
    top directory in its path (empty for the top itself) and its file names.
    [source] gives the lines [readlines] returns for a source file.
    [redivis_ok] and [slack_ok] decide, from the trace of the run so far,
    whether the call to Redivis, respectively to the Slack webhook, returns
    or raises.  The source files are taken to exist and to decode as UTF-8,
    and the data set on Redivis to be there or to be created without error
    at the start of [get_paths_dict]. *)
Record World : Type := mkWorld {
  tree : list (string * list string);
  source : string -> list string;
  redivis_ok : list Event -> bool;
  slack_ok : list Event -> bool
}.

Definition walk (w : World) (top : string) : list (string * list string) :=
  map (fun d => ((top ++ fst d)%string, snd d)) (tree w).

(** The dictionary of [get_paths_dict]: keys in insertion order. *)
Definition dict : Type := list (string * list string).

(** [d[k].append(v)] on a [defaultdict(list)]. *)
Fixpoint dict_append (d : dict) (k v : string) : dict :=
  match d with
  | [] => [(k, [v])]
  | (k', vs) :: d' =>
      if String.eqb k' k then (k', vs ++ [v]) :: d'
      else (k', vs) :: dict_append d' k v
  end.

(** ** The program *)

Section Program.

Variable w : World.

Definition slash : string := String "/"%char EmptyString.
Definition newline : string := String Py.LF EmptyString.

Fixpoint decode_lines (lines : list string) : option (list string) :=
  match lines with
  | [] => Some []
  | line :: rest =>
      match Py.decode_ascii (Py.strip line), decode_lines rest with
      | Some x, Some xs => Some (x :: xs)
      | _, _ => None
      end
  end.

Definition ledger_content (st : State) : string :=
  match ledger st with
  | Some c => c
  | None => EmptyString
  end.

Definition get_uploaded_tables (text_file_path : string) : M (list string) :=
  fun st =>
    let content := ledger_content st in
    let st' := mkState (Some content) (trace st) in
    match decode_lines (Py.readlines content) with
    | Some l => (Ok l, st')
    | None => (Raise UnicodeDecodeError, st')
    end.

(** Appending a path and a line feed to the ledger, for a path that the
    text-mode [write] encodes ([Py.valid_utf8]), which then writes its
    bytes. *)
Definition write_uploaded_tables (text_file_path table_name_full_path : string)
  : M unit :=
  fun st =>
    (Ok tt,
     mkState
       (Some (ledger_content st ++ table_name_full_path ++ newline)%string)
       (trace st ++ [Info (MLedgerWrite table_name_full_path)])).

(** The whole of [upload_to_redivis] is one call to the remote store: it
    returns, or it raises ([raise_on_fail=True], no handler). *)
Definition upload_to_redivis (table_name dataset_path : string) : M unit :=
  fun st =>
    if redivis_ok w (trace st) then
      (Ok tt,
       mkState (ledger st) (trace st ++ [Upload table_name dataset_path true]))
    else
      (Raise UploadError,
       mkState (ledger st) (trace st ++ [Upload table_name dataset_path false])).

Definition send_slack_message (message : string) : M string :=
  fun st =>
    if slack_ok w (trace st) then
      (Ok "0", mkState (ledger st) (trace st ++ [SlackPost message true]))
    else
      (Ok "1", mkState (ledger st) (trace st ++ [SlackPost message false])).

Definition candidate (uploaded_files : list string) (dirpath : string)
  (d : dict) (file : string) : dict :=
  if Py.endswith file ".tsv" && negb (Py.contains "checkpoint" file) then
    let file_path := (dirpath ++ slash ++ file)%string in
    if negb (Py.mem file_path uploaded_files) then dict_append d file file_path
    else d
  else d.

(** The dictionary of the files to upload (lines 214 to 228).  The lines
    before them (202 to 212), which look the data set up on Redivis and
    create it when it is missing, are taken to succeed and leave no event
    here. *)
Definition get_paths_dict (text_file_path unzip_path dataset_name : string)
  : M dict :=
  uploaded_files <- get_uploaded_tables text_file_path ;;
  let d :=
    fold_left
      (fun d dir => fold_left (candidate uploaded_files (fst dir)) (snd dir) d)
      (walk w unzip_path) [] in
  ret (map (fun kv => (fst kv, Py.sorted (snd kv))) d).

(** The cleanup of one field (line 273). *)
Definition clean (field : string) : string :=
  Py.replace Py.LF EmptyString
    (Py.replace Py.SQUOTE (String Py.SQUOTE EmptyString)
       (Py.replace Py.DQUOTE (String Py.DQUOTE EmptyString)
          (Py.replace Py.BACKSLASH (String Py.SPACE EmptyString) field))).

Definition cleaned_of (line : string) : list string :=
  map clean (Py.split Py.TAB line).

(** The variables of the row loop. *)
Record Rows : Type := mkRows {
  line_list : list (list string);
  invalid_rows_counter : Z;
  idx_list : list string
}.

Definition str_of_nat (i : nat) : string :=
  DecimalString.NilZero.string_of_uint (Nat.to_uint i).

(** One iteration of the row loop (lines 272 to 286). *)
Definition row_body (path : string) (r : Rows) (il : nat * string) : M Rows :=
  let i := fst il in
  let cleaned := cleaned_of (snd il) in
  let appended := line_list r ++ [cleaned] in
  match nth_error appended 0 with
  | None => raise IndexError
  | Some first =>
      if negb (Nat.eqb (List.length cleaned) (List.length first)) then
        match Py.remove cleaned appended with
        | None => raise ValueError
        | Some removed =>
            let row_index := (str_of_nat i ++ ".")%string in
            logging_info (MFilePath path) ;;
            logging_info (MRowIndex i) ;;
            logging_info (MRemovedRow cleaned) ;;
            ret (mkRows removed (invalid_rows_counter r + 1)
                   (idx_list r ++ [row_index]))
        end
      else ret (mkRows appended (invalid_rows_counter r) (idx_list r))
  end.

Definition row_loop (path : string) (file : list string) : M Rows :=
  for_fold (enumerate file) (row_body path) (mkRows [] 0 []).

(** [round((invalid_rows_counter/(len(file)-1))*100, 3)] as [: .3f] prints
    it, in thousandths: a float division, a float multiplication and the
    rounding of the product to three decimals. *)
Definition skipped_pct (invalid total : Z) : M Z :=
  if (total =? 0)%Z then raise ZeroDivisionError
  else ret (Py.round
              (Py.float_mul (Py.truediv invalid total) (Py.float_of_int 100))
              3).

(** [str(idx_list)] *)
Definition str_of_list (l : list string) : string :=
  ("[" ++ String.concat ", " (map (fun x => "'" ++ x ++ "'") l) ++ "]")%string.

Definition slack_text (path : string) (idx : list string) : string :=
  ("Uploading for " ++ path ++ " is completed" ++ newline
   ++ "Below you can find the path of the file with skipped rows!" ++ newline
   ++ "Check log file to see the content of each skipped row!" ++ newline
   ++ "PATH: " ++ path ++ newline
   ++ "Removed Row Indices: " ++ str_of_list idx)%string.

(** The body of the loop over the paths (lines 253 to 305). *)
Definition process_path (text_file_path dataset_path dataset_name : string)
  (key path : string) : M unit :=
  let table_name := hd EmptyString (Py.split "."%char key) in
  logging_info (MTableName table_name) ;;
  emit (ReadLines path) ;;
  let file := source w path in
  if Nat.ltb (List.length file) 2 then
    logging_info MEmptyFile ;;
    write_uploaded_tables text_file_path path ;;
    logging_info MSeparator
  else
    logging_info (MNumberOfRows (Z.of_nat (List.length file) - 1)) ;;
    r <- row_loop path file ;;
    logging_info (MTotalSkipped (invalid_rows_counter r)) ;;
    pct <- skipped_pct (invalid_rows_counter r) (Z.of_nat (List.length file) - 1) ;;
    logging_info (MPctSkipped pct) ;;
    match line_list r with
    | [] => raise IndexError
    | columns :: rows =>
        let csv_path := (dataset_path ++ slash ++ table_name ++ ".csv")%string in
        emit (ToCsv csv_path columns rows) ;;
        upload_to_redivis table_name dataset_path ;;
        logging_info
          (MUploaded (last (Py.split "/"%char csv_path) EmptyString) dataset_name) ;;
        write_uploaded_tables text_file_path path ;;
        logging_info MSeparator ;;
        if Nat.ltb 0 (List.length (idx_list r)) then
          result <- send_slack_message (slack_text path (idx_list r)) ;;
          if negb (Py.truthy result) then logging_error MSlackFailed
          else ret tt
        else ret tt
    end.

Definition upload_append_csv_files
  (text_file_path unzip_path dataset_path dataset_name username : string)
  : M unit :=
  d <- get_paths_dict text_file_path unzip_path dataset_name ;;
  (if Nat.eqb (List.length d) 0 then logging_info MUpToDate else ret tt) ;;
  for_each d (fun kv =>
    for_each (snd kv)
      (process_path text_file_path dataset_path dataset_name (fst kv))).

(** The call at the end of the script, with its constants. *)
Definition text_file_path : string := "./uploaded_file_list.txt".
Definition unzip_path : string := "./unzip_files".
Definition dataset_path : string := "./datasets".

Definition script : M unit :=
  upload_append_csv_files text_file_path unzip_path dataset_path
    "SEC_XBRL" "neset06".

End Program.

(** ** The row loop, iteration by iteration *)

Definition fits (W : nat) (cleaned : list string) : bool :=
  Nat.eqb (List.length cleaned) W.

Definition retained_rows (W : nat) (data : list string) : list (list string) :=
  filter (fits W) (map cleaned_of data).

Definition skipped_entries (W i : nat) (data : list string)
  : list (nat * list string) :=
  filter (fun e => negb (fits W (snd e)))
    (map (fun il => (fst il, cleaned_of (snd il))) (enumerate_from i data)).

Definition skip_events (path : string) (sk : list (nat * list string))
  : list Event :=
  flat_map
    (fun e => [Info (MFilePath path); Info (MRowIndex (fst e));
               Info (MRemovedRow (snd e))]) sk.

Definition render_index (e : nat * list string) : string :=
  (str_of_nat (fst e) ++ ".")%string.

(** ** What processing one path amounts to *)

Definition table_name_of (key : string) : string :=
  hd EmptyString (Py.split "."%char key).

Definition csv_path_of (dataset_path key : string) : string :=
  (dataset_path ++ slash ++ table_name_of key ++ ".csv")%string.

(** The field count [W] that the header fixes. *)
Definition width (header : string) : nat := List.length (cleaned_of header).

(** The rows the loop rejects, each with the index [i] the loop logs. *)
Definition skipped_of (header : string) (data : list string)
  : list (nat * list string) :=
  skipped_entries (width header) 1 data.

(** The percentage the program computes from the two counts, in
    thousandths. *)
Definition float_pct (skipped total : Z) : Z :=
  Py.round (Py.float_mul (Py.truediv skipped total) (Py.float_of_int 100)) 3.

Definition pct_of (header : string) (data : list string) : Z :=
  float_pct (Z.of_nat (List.length (skipped_of header data)))
    (Z.of_nat (List.length (header :: data)) - 1).

Definition events_to_csv (dataset_path key path header : string)
  (data : list string) : list Event :=
  [Info (MTableName (table_name_of key)); ReadLines path;
   Info (MNumberOfRows (Z.of_nat (List.length (header :: data)) - 1))]
  ++ skip_events path (skipped_of header data)
  ++ [Info (MTotalSkipped (Z.of_nat (List.length (skipped_of header data))));
      Info (MPctSkipped (pct_of header data));
      ToCsv (csv_path_of dataset_path key) (cleaned_of header)
        (retained_rows (width header) data)].

Definition events_recorded (dataset_path dataset_name key path : string)
  : list Event :=
  [Upload (table_name_of key) dataset_path true;
   Info (MUploaded
           (last (Py.split "/"%char (csv_path_of dataset_path key)) EmptyString)
           dataset_name);
   Info (MLedgerWrite path);
   Info MSeparator].

Definition alert_events (w : World) (path : string)
  (sk : list (nat * list string)) (tr : list Event) : list Event :=
  if Nat.ltb 0 (List.length sk) then
    [SlackPost (slack_text path (map render_index sk)) (slack_ok w tr)]
  else [].

Definition events_empty (key path : string) : list Event :=
  [Info (MTableName (table_name_of key)); ReadLines path; Info MEmptyFile;
   Info (MLedgerWrite path); Info MSeparator].

Definition path_outcome (w : World) (dataset_path dataset_name key path : string)
  (st : State) : Result unit * State :=
  match source w path with
  | header :: ((_ :: _) as data) =>
      let pre := trace st ++ events_to_csv dataset_path key path header data in
      if redivis_ok w pre then
        let mid := pre ++ events_recorded dataset_path dataset_name key path in
        (Ok tt,
         mkState (Some (ledger_content st ++ path ++ newline)%string)
           (mid ++ alert_events w path (skipped_of header data) mid))
      else
        (Raise UploadError,
         mkState (ledger st)
           (pre ++ [Upload (table_name_of key) dataset_path false]))
  | _ =>
      (Ok tt,
       mkState (Some (ledger_content st ++ path ++ newline)%string)
         (trace st ++ events_empty key path))
  end.

(** The skip report of a file, read off the log: the index and the row of
    each [Row Index] line that a [Removed Row] line follows. *)
Fixpoint skip_report (tr : list Event) : list (nat * list string) :=
  match tr with
  | [] => []
  | e :: tr' =>
      match e, tr' with
      | Info (MRowIndex i), Info (MRemovedRow c) :: _ =>
          (i, c) :: skip_report tr'
      | _, _ => skip_report tr'
      end
  end.

(** ** Reading a trace *)

Definition tables (tr : list Event)
  : list (string * list string * list (list string)) :=
  flat_map (fun e => match e with
                     | ToCsv p columns rows => [(p, columns, rows)]
                     | _ => []
                     end) tr.

Definition uploads (tr : list Event) : list (string * bool) :=
  flat_map (fun e => match e with
                     | Upload t _ finished => [(t, finished)]
                     | _ => []
                     end) tr.

Definition percentages (tr : list Event) : list Z :=
  flat_map (fun e => match e with
                     | Info (MPctSkipped q) => [q]
                     | _ => []
                     end) tr.

Definition ledger_writes (tr : list Event) : list string :=
  flat_map (fun e => match e with
                     | Info (MLedgerWrite p) => [p]
                     | _ => []
                     end) tr.

Definition reads (tr : list Event) : list string :=
  flat_map (fun e => match e with
                     | ReadLines p => [p]
                     | _ => []
                     end) tr.

Definition alerts (tr : list Event) : list (string * bool) :=
  flat_map (fun e => match e with
                     | SlackPost m posted => [(m, posted)]
                     | _ => []
                     end) tr.

Definition errors (tr : list Event) : list Msg :=
  flat_map (fun e => match e with
                     | Error m => [m]
                     | _ => []
                     end) tr.

(** A data line whose cleaned field count differs from [W]. *)
Definition mismatched (W : nat) (line : string) : bool :=
  negb (fits W (cleaned_of line)).

(** Skipped percentage as the specification words it, in thousandths: the
    number [skipped / max(total, 1) * 100] rounded to three decimals. *)
Definition spec_pct (skipped total : Z) : Z :=
  Py.round_half_even (skipped * 100000) (Z.max total 1).

(** ** The scenario of the specification *)

Definition tab : string := String Py.TAB EmptyString.
Definition nl : string := String Py.LF EmptyString.

Definition scenario : list string :=
  [("a" ++ tab ++ "b" ++ tab ++ "c" ++ nl)%string;
   ("1" ++ tab ++ "2" ++ tab ++ "3" ++ nl)%string;
   ("x" ++ tab ++ "y" ++ nl)%string;
   ("4" ++ tab ++ "5" ++ tab ++ "6" ++ nl)%string].

Definition fresh : State := mkState None [].

(** One release with one table, the file of the scenario; Redivis and Slack
    both answer. *)
Definition scenario_world : World :=
  mkWorld [("/2022_04_notes", ["tag.tsv"])] (fun _ => scenario)
    (fun _ => true) (fun _ => true).

Definition scenario_path : string := "./unzip_files/2022_04_notes/tag.tsv".

(** A release whose only file has a header and no data line. *)
Definition header_only_world : World :=
  mkWorld [("/2022_04_notes", ["tag.tsv"])]
    (fun _ => [("a" ++ tab ++ "b" ++ nl)%string])
    (fun _ => true) (fun _ => true).

(** ** Field cleanup, character by character *)

(** What [clean] makes of one character. *)
Definition clean_char (c : ascii) : list ascii :=
  if Ascii.eqb c Py.BACKSLASH then [Py.SPACE]
  else if Ascii.eqb c Py.LF then []
  else [c].

(** Field cleanup as the specification words it: literal backslash removed
    (which un-escapes an escaped quote), trailing line terminator stripped. *)
Fixpoint strip_terminator (s : string) : string :=
  match s with
  | EmptyString => EmptyString
  | String c s' =>
      if Ascii.eqb c Py.LF && String.eqb s' EmptyString then EmptyString
      else String c (strip_terminator s')
  end.

Definition spec_clean (field : string) : string :=
  strip_terminator (Py.replace Py.BACKSLASH EmptyString field).

Definition backslash : string := String Py.BACKSLASH EmptyString.
Definition dquote : string := String Py.DQUOTE EmptyString.

(** The field of the specification's example: [Line1], a backslash, [nwith],
    a backslash, a double quote, [quote]. *)
Definition escaping_example : string :=
  ("Line1" ++ backslash ++ "nwith" ++ backslash ++ dquote ++ "quote")%string.

(** Number of occurrences of a character. *)
Definition occurrences (c : ascii) (s : string) : nat :=
  List.length (filter (Ascii.eqb c) (list_ascii_of_string s)).

(** The scenario with the Slack webhook out of reach. *)
Definition slack_down_world : World :=
  mkWorld [("/2022_04_notes", ["tag.tsv"])] (fun _ => scenario)
    (fun _ => true) (fun _ => false).

(** ** The loop over the dictionary *)

(** The pairs of key and path in the order the two nested loops visit them. *)
Definition flatten (d : dict) : list (string * string) :=
  flat_map (fun kv => map (fun p => (fst kv, p)) (snd kv)) d.

Definition run_paths (w : World) (tfp dp dn : string)
  (cands : list (string * string)) : M unit :=
  for_each cands (fun kp => process_path w tfp dp dn (fst kp) (snd kp)).

(** Two releases of the same table while Redivis refuses every upload. *)
Definition outage_world : World :=
  mkWorld [("/2022_03_notes", ["tag.tsv"]); ("/2022_04_notes", ["tag.tsv"])]
    (fun _ => scenario) (fun _ => false) (fun _ => true).

Definition march_path : string := "./unzip_files/2022_03_notes/tag.tsv".

(** Partial-failure isolation as the specification words it: every
    candidate of the run is attempted, whatever happens to the others. *)
Definition continues_after_failure (w : World) (st : State) : Prop :=
  forall d st1,
    get_paths_dict w text_file_path unzip_path "SEC_XBRL" st = (Ok d, st1) ->
    forall kp, In kp (flatten d) -> In (snd kp) (reads (trace (snd (script w st)))).

(** ** The ledger file and the candidates of a run *)

(** The text that recording the paths [paths], in this order, appends to the
    ledger file. *)
Definition lines_of (paths : list string) : string :=
  fold_right (fun p acc => (p ++ newline ++ acc)%string) EmptyString paths.

(** A ledger file as [write_uploaded_tables] leaves it: empty, or ending in a
    line feed. *)
Definition ledger_ok (content : string) : bool :=
  String.eqb content EmptyString || Py.endswith content newline.

Fixpoint no_line_feed (s : string) : bool :=
  match s with
  | EmptyString => true
  | String c s' => negb (Ascii.eqb c Py.LF) && no_line_feed s'
  end.

(** The paths of the source files under [top]: every file of the tree whose
    name passes the test of line 221, under the path line 222 gives it. *)
Definition tsv_paths (w : World) (top : string) : list string :=
  flat_map
    (fun dir =>
       flat_map
         (fun file =>
            if Py.endswith file ".tsv" && negb (Py.contains "checkpoint" file)
            then [(fst dir ++ slash ++ file)%string]
            else [])
         (snd dir))
    (walk w top).

(** The dictionary of [get_paths_dict] before its lists are sorted. *)
Definition unsorted_dict (w : World) (top : string) (uploaded : list string)
  : dict :=
  fold_left
    (fun d dir => fold_left (candidate uploaded (fst dir)) (snd dir) d)
    (walk w top) [].

(** ** More on the ledger file *)

(** Every byte below 128. *)
Fixpoint ascii_only (s : string) : bool :=
  match s with
  | EmptyString => true
  | String c s' => Nat.ltb (nat_of_ascii c) 128 && ascii_only s'
  end.

(** The entries [get_uploaded_tables] returns for a ledger of ASCII bytes. *)
Definition entries (content : string) : list string :=
  map Py.strip (Py.readlines content).

(** [a <= b] on strings, the order [sorted] uses. *)
Definition str_le (a b : string) : Prop := String.leb a b = true.

(** A path with a letter outside ASCII: [caf], the two bytes of an e with
    acute accent, and the file name. *)
Definition cafe_path : string :=
  ("./unzip_files/caf" ++ String "195"%char (String "169"%char "/tag.tsv"))%string.

(** Idempotence as the specification words it: a second run of the script,
    started from the ledger the first run left, reads no source file,
    uploads nothing and records nothing. *)
Definition ingests_nothing_again (w : World) (ledger0 : option string) : Prop :=
  let run1 := script w (mkState ledger0 []) in
  let run2 := script w (mkState (ledger (snd run1)) []) in
  reads (trace (snd run2)) = [] /\
  uploads (trace (snd run2)) = [] /\
  ledger_writes (trace (snd run2)) = [].

(** A release whose directory name holds a line feed. *)
Definition line_feed_world : World :=
  mkWorld [(("/2022" ++ nl ++ "04_notes")%string, ["tag.tsv"])]
    (fun _ => scenario) (fun _ => true) (fun _ => true).

Definition line_feed_path : string :=
  ("./unzip_files/2022" ++ nl ++ "04_notes/tag.tsv")%string.

(** A ledger whose last line was left without its line feed. *)
Definition unterminated_ledger : option string := Some march_path.

(** A file whose every data line has a field too few. *)
Definition ragged_world : World :=
  mkWorld [("/2022_04_notes", ["tag.tsv"])]
    (fun _ => [("a" ++ tab ++ "b" ++ tab ++ "c" ++ nl)%string;
               ("x" ++ tab ++ "y" ++ nl)%string])
    (fun _ => true) (fun _ => true).

(** ** Downloading and unpacking the archives *)

Module Archive.

Unset Implicit Arguments.

(** The file system and the network as [download_zipfiles] and [unzip] use
    them, each call with the file system it leaves and whether it returned
    ([false]: it raised).  [os_walk fs top] lists what [os.walk(top)] yields
    on [fs], directory names left out; [unzip] is taken to walk a tree that
    its own extractions do not change. *)
Record Disk : Type := mkDisk {
  FS : Type;
  path_exists : FS -> string -> bool;
  wget_download : string -> string -> FS -> FS * bool;
  os_makedirs : string -> FS -> FS * bool;
  extractall : string -> string -> FS -> FS * bool;
  os_walk : FS -> string -> list (string * list string)
}.

Inductive DiskExn : Type :=
| UnboundLocalError
| WgetError
| OSError
| ZipError.

Inductive DiskEvent : Type :=
| LogReady (file_name : string)
| Wget (link out : string) (finished : bool)
| LogDownloaded (file_name download_path : string)
| LogCount (count : Z)
| MakeDirs (folder : string) (finished : bool)
| ExtractAll (fullpath folder : string) (finished : bool)
| LogUnzipped (foldername : string).

Inductive Outcome (A : Type) : Type :=
| Done (a : A)
| Raised (e : DiskExn).
Arguments Done {A} a.
Arguments Raised {A} e.

(** [os.path.join(a, b)] *)
Definition path_join (a b : string) : string :=
  if String.prefix "/" b then b
  else if String.eqb a EmptyString || Py.endswith a "/" then (a ++ b)%string
  else (a ++ "/" ++ b)%string.

(** [link.split('/')[-1]] *)
Definition file_name_of (link : string) : string :=
  last (Py.split "/"%char link) EmptyString.

(** [file.split('.')[0]] *)
Definition foldername_of (file : string) : string :=
  hd EmptyString (Py.split "."%char file).

(** Reading a trace of the disk. *)
Definition counts (tr : list DiskEvent) : list Z :=
  flat_map (fun e => match e with LogCount c => [c] | _ => [] end) tr.

Definition downloads (tr : list DiskEvent) : list string :=
  flat_map (fun e => match e with Wget link _ _ => [link] | _ => [] end) tr.

Definition extractions (tr : list DiskEvent) : list string :=
  flat_map (fun e => match e with ExtractAll _ folder _ => [folder] | _ => [] end) tr.

Definition made_dirs (tr : list DiskEvent) : list string :=
  flat_map (fun e => match e with MakeDirs folder _ => [folder] | _ => [] end) tr.

Section OnDisk.

Variable D : Disk.

Definition DiskState : Type := (FS D * list DiskEvent)%type.

(** The loop of [download_zipfiles]; [count] is [None] until the first
    iteration binds it. *)
Fixpoint download_loop (download_path : string) (links : list string)
  (count : option Z) (st : DiskState) : Outcome (option Z) * DiskState :=
  match links with
  | [] => (Done count, st)
  | link :: rest =>
      let file_name := file_name_of link in
      let count := 0%Z in
      if negb (path_exists D (fst st) (path_join download_path file_name)) then
        let tr := snd st ++ [LogReady file_name] in
        let (fs', finished) := wget_download D link download_path (fst st) in
        if finished then
          download_loop download_path rest (Some (count + 1)%Z)
            (fs', tr ++ [Wget link download_path true;
                         LogDownloaded file_name download_path])
        else (Raised WgetError, (fs', tr ++ [Wget link download_path false]))
      else download_loop download_path rest (Some count) st
  end.

Definition download_zipfiles (download_path : string) (links : list string)
  (st : DiskState) : Outcome unit * DiskState :=
  match download_loop download_path links None st with
  | (Done None, st') => (Raised UnboundLocalError, st')
  | (Done (Some count), st') =>
      if negb (count =? 0)%Z then (Done tt, (fst st', snd st' ++ [LogCount count]))
      else (Done tt, st')
  | (Raised e, st') => (Raised e, st')
  end.

Fixpoint each {A} (l : list A) (body : A -> DiskState -> Outcome unit * DiskState)
  (st : DiskState) : Outcome unit * DiskState :=
  match l with
  | [] => (Done tt, st)
  | x :: l' =>
      match body x st with
      | (Done _, st') => each l' body st'
      | (Raised e, st') => (Raised e, st')
      end
  end.

(** The body of the inner loop of [unzip]. *)
Definition unzip_file (unzip_path dirpath file : string) (st : DiskState)
  : Outcome unit * DiskState :=
  if Py.endswith file ".zip" then
    let fullpath := path_join dirpath file in
    let foldername := foldername_of file in
    let unzip_folder := (unzip_path ++ "/" ++ foldername)%string in
    if negb (path_exists D (fst st) unzip_folder) then
      let (fs1, made) := os_makedirs D unzip_folder (fst st) in
      if made then
        let (fs2, extracted) := extractall D fullpath unzip_folder fs1 in
        if extracted then
          (Done tt,
           (fs2, snd st ++ [MakeDirs unzip_folder true;
                            ExtractAll fullpath unzip_folder true;
                            LogUnzipped foldername]))
        else
          (Raised ZipError,
           (fs2, snd st ++ [MakeDirs unzip_folder true;
                            ExtractAll fullpath unzip_folder false]))
      else (Raised OSError, (fs1, snd st ++ [MakeDirs unzip_folder false]))
    else (Done tt, st)
  else (Done tt, st).

Definition unzip (unzip_path zip_files : string) (st : DiskState)
  : Outcome unit * DiskState :=
  each (os_walk D (fst st) zip_files)
    (fun dir => each (snd dir) (unzip_file unzip_path (fst dir))) st.

(** Nothing that is there goes away. *)
Definition keeps : Prop :=
  forall fs p, path_exists D fs p = true ->
    (forall link out, path_exists D (fst (wget_download D link out fs)) p = true) /\
    (forall folder, path_exists D (fst (os_makedirs D folder fs)) p = true) /\
    (forall a folder, path_exists D (fst (extractall D a folder fs)) p = true).

(** A folder that [os.makedirs] made is there. *)
Definition makes : Prop :=
  forall fs folder, snd (os_makedirs D folder fs) = true ->
    path_exists D (fst (os_makedirs D folder fs)) folder = true.

(** [wget.download], when it returns, has saved the file of a link under the
    name that follows the last slash of the link. *)
Definition saves (download_path : string) (links : list string) : Prop :=
  forall fs link, In link links ->
    snd (wget_download D link download_path fs) = true ->
    path_exists D (fst (wget_download D link download_path fs))
      (path_join download_path (file_name_of link)) = true.

(** From [st] to [st'] nothing went away, no folder was made that was
    there, and no folder was unpacked into twice; each folder unpacked into
    was made first and is there at the end. *)
Definition unpacks_once (st st' : DiskState) : Prop :=
  (forall p, path_exists D (fst st) p = true ->
             path_exists D (fst st') p = true) /\
  exists new,
    snd st' = snd st ++ new /\
    NoDup (extractions new) /\
    (forall F, In F (made_dirs new) -> path_exists D (fst st) F = false) /\
    (forall F, In F (extractions new) ->
               In F (made_dirs new) /\ path_exists D (fst st') F = true).

End OnDisk.

(** A disk for examples: the file system is the list of the paths that
    exist; a download saves the file under the name after the last slash,
    and the archive [bad.zip] does not unpack. *)
Definition list_disk : Disk :=
  {| FS := list string;
     path_exists := fun fs p => Py.mem p fs;
     wget_download := fun link out fs =>
       (path_join out (file_name_of link) :: fs, true);
     os_makedirs := fun folder fs => (folder :: fs, true);
     extractall := fun a folder fs => (fs, negb (Py.endswith a "bad.zip"));
     os_walk := fun fs top =>
       [(top, ["2022_03_notes.zip"; "bad.zip"; "notes.txt"])] |}.

End Archive.

(** * Properties *)

(** ** The built-ins on examples *)

Example split_ex1 :
  Py.split Py.TAB ("a" ++ tab ++ "b" ++ tab ++ "c" ++ nl)%string = ["a"; "b"; ("c" ++ nl)%string].
Proof. reflexivity. Qed.
Example split_ex2 : Py.split Py.TAB "" = [""].
Proof. reflexivity. Qed.
Example readlines_ex :
  Py.readlines ("ab" ++ nl ++ "c" ++ nl ++ "d")%string = [("ab" ++ nl)%string; ("c" ++ nl)%string; "d"].
Proof. reflexivity. Qed.
Example strip_ex : Py.strip (" a b " ++ nl)%string = "a b".
Proof. reflexivity. Qed.
Example endswith_ex : Py.endswith "tag.tsv" ".tsv" = true /\ Py.endswith "tsv" ".tsv" = false.
Proof. split; reflexivity. Qed.
Example contains_ex : Py.contains "checkpoint" "a-checkpoint.tsv" = true /\ Py.contains "checkpoint" "check.tsv" = false.
Proof. split; reflexivity. Qed.
Example sorted_ex : Py.sorted ["b/x"; "a/x"; "a/"] = ["a/"; "a/x"; "b/x"].
Proof. reflexivity. Qed.

Lemma list_eqb_length a : forall b,
  Py.list_eqb a b = true -> List.length a = List.length b.
Proof.
  induction a as [|x a IH]; intros [|y b]; simpl; try discriminate; auto.
  intros H. apply andb_true_iff in H as [_ H]. f_equal. now apply IH.
Qed.

Lemma list_eqb_refl a : Py.list_eqb a a = true.
Proof.
  induction a as [|x a IH]; simpl; auto.
  now rewrite String.eqb_refl, IH.
Qed.

Lemma list_eqb_eq a : forall b, Py.list_eqb a b = true <-> a = b.
Proof.
  induction a as [|x a IH]; intros [|y b]; simpl; split; try easy.
  - intros H. apply andb_true_iff in H as [Hx H].
    apply String.eqb_eq in Hx. apply IH in H. congruence.
  - intros H. injection H as -> ->. now rewrite String.eqb_refl, list_eqb_refl.
Qed.

Lemma list_eqb_other_length y c :
  List.length y <> List.length c -> Py.list_eqb y c = false.
Proof.
  intros H. destruct (Py.list_eqb y c) eqn:E; auto.
  apply list_eqb_length in E. contradiction.
Qed.

Lemma remove_appended n c : forall ll,
  Forall (fun row => List.length row = n) ll ->
  List.length c <> n ->
  Py.remove c (ll ++ [c]) = Some ll.
Proof.
  induction ll as [|y ll IH]; intros HF Hc; simpl.
  - now rewrite list_eqb_refl.
  - inversion HF as [|? ? Hy HF']; subst.
    rewrite list_eqb_other_length by congruence.
    now rewrite IH.
Qed.

Lemma index_appended n c : forall ll,
  Forall (fun row => List.length row = n) ll ->
  List.length c <> n ->
  Py.index c (ll ++ [c]) = Some (List.length ll).
Proof.
  induction ll as [|y ll IH]; intros HF Hc; simpl.
  - now rewrite list_eqb_refl.
  - inversion HF as [|? ? Hy HF']; subst.
    rewrite list_eqb_other_length by congruence.
    now rewrite IH.
Qed.

Lemma row_body_spec path r i line st first rest :
  line_list r = first :: rest ->
  Forall (fun row => List.length row = List.length first) rest ->
  row_body path r (i, line) st =
    if fits (List.length first) (cleaned_of line) then
      (Ok (mkRows (line_list r ++ [cleaned_of line])
             (invalid_rows_counter r) (idx_list r)), st)
    else
      (Ok (mkRows (line_list r) (invalid_rows_counter r + 1)
             (idx_list r ++ [render_index (i, cleaned_of line)])),
       mkState (ledger st)
         (trace st ++ skip_events path [(i, cleaned_of line)])).
Proof.
  intros Hll HF. unfold row_body, fits. cbn [fst snd]. rewrite Hll.
  replace (nth_error ((first :: rest) ++ [cleaned_of line]) 0)
    with (Some first) by reflexivity.
  cbv iota beta.
  destruct (Nat.eqb (List.length (cleaned_of line)) (List.length first)) eqn:E;
    cbn [negb]; [reflexivity|].
  apply Nat.eqb_neq in E.
  rewrite (@remove_appended (List.length first)); auto.
  unfold bind, logging_info, emit, ret, skip_events, render_index.
  cbn [ledger trace flat_map fst snd app].
  rewrite <- !app_assoc. reflexivity.
Qed.

Lemma row_fold_spec path : forall data i r st first rest,
  line_list r = first :: rest ->
  Forall (fun row => List.length row = List.length first) rest ->
  for_fold (enumerate_from i data) (row_body path) r st =
    (Ok (mkRows (line_list r ++ retained_rows (List.length first) data)
           (invalid_rows_counter r
            + Z.of_nat (List.length (skipped_entries (List.length first) i data)))
           (idx_list r
            ++ map render_index (skipped_entries (List.length first) i data))),
     mkState (ledger st)
       (trace st
        ++ skip_events path (skipped_entries (List.length first) i data))).
Proof.
  induction data as [|line data IH]; intros i r st first rest Hll HF.
  - simpl. unfold ret, retained_rows. simpl.
    rewrite !app_nil_r, Z.add_0_r. destruct r, st; reflexivity.
  - cbn [enumerate_from for_fold]. unfold bind.
    rewrite (row_body_spec path r i line st Hll HF).
    unfold skipped_entries, retained_rows.
    cbn [enumerate_from map filter fst snd].
    destruct (fits (List.length first) (cleaned_of line)) eqn:E;
      cbn [negb].
    + rewrite (IH (S i) _ st first (rest ++ [cleaned_of line])).
      * cbn [line_list invalid_rows_counter idx_list].
        rewrite <- !app_assoc. reflexivity.
      * cbn [line_list]. now rewrite Hll.
      * apply Forall_app. split; auto. constructor; auto.
        now apply Nat.eqb_eq.
    + rewrite (IH (S i) _ _ first rest); auto.
      cbn [line_list invalid_rows_counter idx_list ledger trace].
      unfold skipped_entries.
      cbn [List.length map skip_events flat_map].
      rewrite <- !app_assoc. cbn [app].
      do 3 f_equal. lia.
Qed.

Lemma row_loop_spec path header data st :
  row_loop path (header :: data) st =
    (Ok (mkRows (cleaned_of header :: retained_rows (width header) data)
           (Z.of_nat (List.length (skipped_of header data)))
           (map render_index (skipped_of header data))),
     mkState (ledger st)
       (trace st ++ skip_events path (skipped_of header data))).
Proof.
  unfold row_loop, enumerate. cbn [enumerate_from for_fold]. unfold bind.
  assert (H0 : row_body path (mkRows [] 0 []) (0, header) st
               = (Ok (mkRows [cleaned_of header] 0 []), st)).
  { unfold row_body. cbn [fst snd line_list app nth_error].
    rewrite Nat.eqb_refl. reflexivity. }
  rewrite H0.
  rewrite (@row_fold_spec path data 1 _ st (cleaned_of header) []);
    [reflexivity | reflexivity | constructor].
Qed.

Lemma skip_report_skip_events path : forall sk,
  skip_report (skip_events path sk) = sk.
Proof.
  induction sk as [|[i c] sk IH]; [reflexivity|].
  cbn. f_equal. exact IH.
Qed.

(** ** Reading a trace *)

Lemma tables_app a b : tables (a ++ b) = tables a ++ tables b.
Proof. apply flat_map_app. Qed.

Lemma percentages_app a b :
  percentages (a ++ b) = percentages a ++ percentages b.
Proof. apply flat_map_app. Qed.

Lemma uploads_app a b : uploads (a ++ b) = uploads a ++ uploads b.
Proof. apply flat_map_app. Qed.

Lemma reads_app a b : reads (a ++ b) = reads a ++ reads b.
Proof. apply flat_map_app. Qed.

Lemma ledger_writes_app a b :
  ledger_writes (a ++ b) = ledger_writes a ++ ledger_writes b.
Proof. apply flat_map_app. Qed.

Lemma errors_app a b : errors (a ++ b) = errors a ++ errors b.
Proof. apply flat_map_app. Qed.

Lemma tables_skip_events path sk : tables (skip_events path sk) = [].
Proof. induction sk as [|e sk IH]; [reflexivity | exact IH]. Qed.

Lemma percentages_skip_events path sk : percentages (skip_events path sk) = [].
Proof. induction sk as [|e sk IH]; [reflexivity | exact IH]. Qed.

Lemma uploads_skip_events path sk : uploads (skip_events path sk) = [].
Proof. induction sk as [|e sk IH]; [reflexivity | exact IH]. Qed.

Lemma reads_skip_events path sk : reads (skip_events path sk) = [].
Proof. induction sk as [|e sk IH]; [reflexivity | exact IH]. Qed.

Lemma ledger_writes_skip_events path sk : ledger_writes (skip_events path sk) = [].
Proof. induction sk as [|e sk IH]; [reflexivity | exact IH]. Qed.

Lemma errors_skip_events path sk : errors (skip_events path sk) = [].
Proof. induction sk as [|e sk IH]; [reflexivity | exact IH]. Qed.

Lemma tables_alert_events w path sk tr : tables (alert_events w path sk tr) = [].
Proof. unfold alert_events. now destruct (Nat.ltb 0 (List.length sk)). Qed.

Lemma percentages_alert_events w path sk tr :
  percentages (alert_events w path sk tr) = [].
Proof. unfold alert_events. now destruct (Nat.ltb 0 (List.length sk)). Qed.

Lemma uploads_alert_events w path sk tr : uploads (alert_events w path sk tr) = [].
Proof. unfold alert_events. now destruct (Nat.ltb 0 (List.length sk)). Qed.

Lemma reads_alert_events w path sk tr : reads (alert_events w path sk tr) = [].
Proof. unfold alert_events. now destruct (Nat.ltb 0 (List.length sk)). Qed.

Lemma ledger_writes_alert_events w path sk tr :
  ledger_writes (alert_events w path sk tr) = [].
Proof. unfold alert_events. now destruct (Nat.ltb 0 (List.length sk)). Qed.

Lemma errors_alert_events w path sk tr : errors (alert_events w path sk tr) = [].
Proof. unfold alert_events. now destruct (Nat.ltb 0 (List.length sk)). Qed.

Lemma tables_events_to_csv dp key path header data :
  tables (events_to_csv dp key path header data)
  = [(csv_path_of dp key, cleaned_of header,
      retained_rows (width header) data)].
Proof.
  unfold events_to_csv. rewrite !tables_app, tables_skip_events. reflexivity.
Qed.

Lemma percentages_events_to_csv dp key path header data :
  percentages (events_to_csv dp key path header data) = [pct_of header data].
Proof.
  unfold events_to_csv.
  rewrite !percentages_app, percentages_skip_events. reflexivity.
Qed.

Lemma uploads_events_to_csv dp key path header data :
  uploads (events_to_csv dp key path header data) = [].
Proof. unfold events_to_csv. now rewrite !uploads_app, uploads_skip_events. Qed.

Lemma reads_events_to_csv dp key path header data :
  reads (events_to_csv dp key path header data) = [path].
Proof. unfold events_to_csv. now rewrite !reads_app, reads_skip_events. Qed.

Lemma ledger_writes_events_to_csv dp key path header data :
  ledger_writes (events_to_csv dp key path header data) = [].
Proof.
  unfold events_to_csv.
  now rewrite !ledger_writes_app, ledger_writes_skip_events.
Qed.

Lemma errors_events_to_csv dp key path header data :
  errors (events_to_csv dp key path header data) = [].
Proof. unfold events_to_csv. now rewrite !errors_app, errors_skip_events. Qed.

Create Rewrite HintDb trace.

#[local] Hint Rewrite
  tables_app percentages_app uploads_app reads_app ledger_writes_app errors_app
  tables_skip_events percentages_skip_events uploads_skip_events
  reads_skip_events ledger_writes_skip_events errors_skip_events
  tables_alert_events percentages_alert_events uploads_alert_events
  reads_alert_events ledger_writes_alert_events errors_alert_events
  tables_events_to_csv percentages_events_to_csv uploads_events_to_csv
  reads_events_to_csv ledger_writes_events_to_csv errors_events_to_csv
  : trace.

(** Splits the projection of a trace along its parts. *)
Ltac read_trace := autorewrite with trace; cbn [app].

Lemma bind_emit {A} e (k : unit -> M A) st :
  bind (emit e) k st = k tt (mkState (ledger st) (trace st ++ [e])).
Proof. reflexivity. Qed.

Lemma bind_info {A} m (k : unit -> M A) st :
  bind (logging_info m) k st = k tt (mkState (ledger st) (trace st ++ [Info m])).
Proof. reflexivity. Qed.

Lemma bind_write {A} tfp path (k : unit -> M A) st :
  bind (write_uploaded_tables tfp path) k st =
    k tt (mkState (Some (ledger_content st ++ path ++ newline)%string)
            (trace st ++ [Info (MLedgerWrite path)])).
Proof. reflexivity. Qed.

Lemma bind_upload {A} w t dp (k : unit -> M A) st :
  bind (upload_to_redivis w t dp) k st =
    if redivis_ok w (trace st) then
      k tt (mkState (ledger st) (trace st ++ [Upload t dp true]))
    else
      (Raise UploadError,
       mkState (ledger st) (trace st ++ [Upload t dp false])).
Proof.
  unfold bind, upload_to_redivis. now destruct (redivis_ok w (trace st)).
Qed.

Lemma alert_spec w path idx st :
  (if Nat.ltb 0 (List.length idx) then
     result <- send_slack_message w (slack_text path idx) ;;
     if negb (Py.truthy result) then logging_error MSlackFailed else ret tt
   else ret tt) st =
  (Ok tt,
   mkState (ledger st)
     (trace st ++
      if Nat.ltb 0 (List.length idx) then
        [SlackPost (slack_text path idx) (slack_ok w (trace st))]
      else [])).
Proof.
  destruct (Nat.ltb 0 (List.length idx)).
  - unfold bind, send_slack_message.
    destruct (slack_ok w (trace st)); reflexivity.
  - unfold ret. rewrite app_nil_r. now destruct st.
Qed.

Lemma if_oracle {A} (f : list Event -> bool) t1 t2 (a1 a2 b1 b2 : A) :
  t1 = t2 -> a1 = a2 -> b1 = b2 ->
  (if f t1 then a1 else b1) = (if f t2 then a2 else b2).
Proof. now intros -> -> ->. Qed.

Lemma process_path_eq w tfp dp dn key path st :
  process_path w tfp dp dn key path st = path_outcome w dp dn key path st.
Proof.
  unfold process_path, path_outcome.
  rewrite bind_info, bind_emit.
  destruct (source w path) as [|header [|l data]] eqn:Hsrc.
  - cbn [List.length Nat.ltb Nat.leb].
    rewrite bind_info, bind_write. unfold logging_info, emit, ledger_content.
    cbn [ledger trace]. unfold events_empty, table_name_of.
    rewrite <- !app_assoc. reflexivity.
  - cbn [List.length Nat.ltb Nat.leb].
    rewrite bind_info, bind_write. unfold logging_info, emit, ledger_content.
    cbn [ledger trace]. unfold events_empty, table_name_of.
    rewrite <- !app_assoc. reflexivity.
  - replace (Nat.ltb (List.length (header :: l :: data)) 2) with false
      by reflexivity.
    rewrite bind_info.
    unfold bind at 1. rewrite row_loop_spec.
    cbn [ledger trace invalid_rows_counter line_list idx_list].
    rewrite bind_info.
    unfold bind at 1. unfold skipped_pct.
    replace (Z.of_nat (List.length (header :: l :: data)) - 1 =? 0)%Z
      with false by (symmetry; apply Z.eqb_neq; cbn [List.length]; lia).
    unfold ret at 1.
    rewrite bind_info, bind_emit, bind_upload.
    cbn [ledger trace].
    apply if_oracle.
    + unfold events_to_csv, pct_of, table_name_of, csv_path_of.
      rewrite <- !app_assoc. reflexivity.
    + rewrite bind_info, bind_write, bind_info. cbn [ledger trace].
      rewrite alert_spec. cbn [ledger trace].
      unfold alert_events, events_recorded, events_to_csv, pct_of,
        table_name_of, csv_path_of, ledger_content.
      cbn [ledger]. rewrite length_map.
      rewrite <- !app_assoc. reflexivity.
    + unfold events_to_csv, pct_of, table_name_of, csv_path_of.
      rewrite <- !app_assoc. reflexivity.
Qed.

(** ** Counting retained and skipped rows *)

Lemma In_enumerate_from {A} (l : list A) : forall s i x,
  In (i, x) (enumerate_from s l) <-> s <= i /\ nth_error l (i - s) = Some x.
Proof.
  induction l as [|y l IH]; intros s i x; cbn [enumerate_from In].
  - split; [tauto|]. intros [_ H]. now destruct (i - s).
  - rewrite IH. split.
    + intros [H | [Hle H]].
      * injection H as -> ->. split; [lia|]. now rewrite Nat.sub_diag.
      * split; [lia|]. replace (i - s) with (S (i - S s)) by lia. exact H.
    + intros [Hle H]. destruct (Nat.eq_dec s i) as [->|Hne].
      * rewrite Nat.sub_diag in H. injection H as ->. now left.
      * right. split; [lia|].
        replace (i - s) with (S (i - S s)) in H by lia. exact H.
Qed.

Lemma length_skipped_entries W data : forall s,
  List.length (skipped_entries W s data)
  = List.length (filter (mismatched W) data).
Proof.
  unfold skipped_entries, mismatched.
  induction data as [|line data IH]; intros s; [reflexivity|].
  cbn [enumerate_from map filter fst snd].
  destruct (negb (fits W (cleaned_of line))); cbn [List.length];
    now rewrite IH.
Qed.

Lemma length_retained_rows W data :
  List.length (retained_rows W data)
  = List.length data - List.length (filter (mismatched W) data).
Proof.
  unfold retained_rows, mismatched.
  pose proof (filter_length (fits W) (map cleaned_of data)) as H.
  rewrite length_map in H.
  assert (E : List.length (filter (fun x => negb (fits W x)) (map cleaned_of data))
              = List.length (filter (fun line => negb (fits W (cleaned_of line))) data)).
  { clear H. induction data as [|l data IH]; [reflexivity|].
    cbn [map filter]. destruct (negb (fits W (cleaned_of l)));
      cbn [List.length]; now rewrite IH. }
  lia.
Qed.

Lemma In_skipped_entries W data s i c :
  In (i, c) (skipped_entries W s data) <->
  s <= i /\ exists line, nth_error data (i - s) = Some line
                         /\ c = cleaned_of line /\ List.length c <> W.
Proof.
  unfold skipped_entries. rewrite filter_In, in_map_iff. cbn [snd].
  unfold fits. rewrite negb_true_iff, Nat.eqb_neq. split.
  - intros [[[j line] [E Hin]] Hlen]. cbn [fst snd] in E.
    injection E as Ej Ec. subst j c.
    apply In_enumerate_from in Hin as [Hle Hn].
    split; [exact Hle|]. now exists line.
  - intros [Hle [line [Hn [-> Hlen]]]]. split; [|exact Hlen].
    exists (i, line). split; [reflexivity|].
    apply In_enumerate_from. now split.
Qed.

Lemma retained_rows_fit W data :
  Forall (fun row => List.length row = W) (retained_rows W data).
Proof.
  apply Forall_forall. intros row H. unfold retained_rows in H.
  apply filter_In in H as [_ H]. now apply Nat.eqb_eq in H.
Qed.

(** ** C1: retained rows and skip report of a file *)

(** C1, as the program has it.  For a file with header [header] and [N]
    data lines of which [k] have a cleaned field count different from the
    header's [W], the row loop ends normally, keeps the header and exactly
    [N - k] data rows (those with [W] fields, in file order), counts [k]
    skipped rows and logs a skip report of exactly [k] entries; an entry is
    logged for index [i] and fields [c] exactly when line [i] of the file,
    counted from 0 with the header as line 0, is a line whose cleaned fields
    are [c] and number other than [W].  The index is thus the data-row index
    plus one: in the scenario the report is [(2, [x, y])]. *)
Theorem skip_correctness (path header : string) (data : list string)
  (st : State) :
  let W := width header in
  let k := List.length (filter (mismatched W) data) in
  let report := skipped_of header data in
  row_loop path (header :: data) st =
    (Ok (mkRows (cleaned_of header :: retained_rows W data) (Z.of_nat k)
           (map render_index report)),
     mkState (ledger st) (trace st ++ skip_events path report)) /\
  skip_report (skip_events path report) = report /\
  k <= List.length data /\
  List.length (retained_rows W data) = List.length data - k /\
  List.length report = k /\
  (forall i c, In (i, c) report <->
     exists line, nth_error (header :: data) i = Some line
                  /\ c = cleaned_of line /\ List.length c <> W) /\
  skip_report (trace (snd (row_loop scenario_path scenario fresh)))
  = [(2, ["x"; "y"])].
Proof.
  intros W k report. subst W k report.
  split; [|split; [|split; [|split; [|split; [|split]]]]].
  - rewrite row_loop_spec. unfold skipped_of at 1.
    now rewrite length_skipped_entries.
  - apply skip_report_skip_events.
  - apply filter_length_le.
  - apply length_retained_rows.
  - apply length_skipped_entries.
  - intros i c. unfold skipped_of. rewrite In_skipped_entries. split.
    + intros [Hle [line [Hn [-> Hlen]]]]. exists line.
      destruct i as [|i]; [lia|]. cbn [nth_error].
      now replace (S i - 1) with i in Hn by lia.
    + intros [line [Hn [-> Hlen]]].
      destruct i as [|i].
      * cbn [nth_error] in Hn. injection Hn as <-. now elim Hlen.
      * cbn [nth_error] in Hn. split; [lia|]. exists line.
        now replace (S i - 1) with i by lia.
  - vm_compute. reflexivity.
Qed.

(** C1 as the specification states it fails on the scenario: the entry for
    the row [x, y] does not carry the data-row index 1. *)
Lemma skip_index_is_not_data_row_index :
  skip_report (trace (snd (row_loop scenario_path scenario fresh)))
  <> [(1, ["x"; "y"])].
Proof. vm_compute. discriminate. Qed.

(** ** C2, C6, C7: what one file leaves in the trace *)

(** The new events of a file with data lines, whatever Redivis answers. *)
Lemma path_outcome_trace w dp dn key path header l data st :
  source w path = header :: l :: data ->
  exists tail,
    trace (snd (path_outcome w dp dn key path st))
    = trace st ++ events_to_csv dp key path header (l :: data) ++ tail
    /\ tables tail = [] /\ percentages tail = [].
Proof.
  intros Hsrc. unfold path_outcome. rewrite Hsrc.
  destruct (redivis_ok w _).
  - eexists. cbn [snd trace]. rewrite <- !app_assoc. split; [reflexivity|].
    read_trace. now split.
  - eexists. cbn [snd trace]. rewrite <- !app_assoc. split; [reflexivity|].
    now split.
Qed.

(** C2.  Processing a file of at least two lines writes exactly one table,
    and every row of that table has as many fields as its header row. *)
Theorem schema_invariant (w : World) (tfp dp dn key path : string) (st : State)
  (Hlines : 2 <= List.length (source w path)) :
  exists new columns rows,
    trace (snd (process_path w tfp dp dn key path st)) = trace st ++ new /\
    tables new = [(csv_path_of dp key, columns, rows)] /\
    Forall (fun row => List.length row = List.length columns) rows.
Proof.
  rewrite process_path_eq.
  destruct (source w path) as [|header [|l data]] eqn:Hsrc;
    cbn [List.length] in Hlines; try lia.
  destruct (path_outcome_trace w dp dn key path st Hsrc)
    as [tail [Htr [Htab _]]].
  exists (events_to_csv dp key path header (l :: data) ++ tail),
    (cleaned_of header), (retained_rows (width header) (l :: data)).
  split; [exact Htr|]. split.
  - read_trace. now rewrite Htab.
  - apply retained_rows_fit.
Qed.

Lemma schema_invariant_witness :
  exists new columns rows,
    trace (snd (process_path scenario_world text_file_path dataset_path
                  "SEC_XBRL" "tag.tsv" scenario_path fresh))
    = trace fresh ++ new /\
    tables new = [(csv_path_of dataset_path "tag.tsv", columns, rows)] /\
    Forall (fun row => List.length row = List.length columns) rows.
Proof.
  apply (@schema_invariant scenario_world text_file_path dataset_path
           "SEC_XBRL" "tag.tsv" scenario_path fresh).
  simpl. lia.
Defined.

(** C6.  A file of fewer than two lines is recorded in the ledger and
    nothing else is done with it: processing returns normally, the ledger
    gains the line of the path, and the trace gains the five events below,
    among which there is no table, no skipped row, no upload and no alert. *)
Theorem empty_file_recorded (w : World) (tfp dp dn key path : string)
  (st : State) (Hlines : List.length (source w path) < 2) :
  let new :=
    [Info (MTableName (table_name_of key)); ReadLines path; Info MEmptyFile;
     Info (MLedgerWrite path); Info MSeparator] in
  process_path w tfp dp dn key path st =
    (Ok tt,
     mkState (Some (ledger_content st ++ path ++ newline)%string)
       (trace st ++ new)) /\
  tables new = [] /\ skip_report new = [] /\ uploads new = [] /\
  alerts new = [] /\ ledger_writes new = [path].
Proof.
  intros new. split; [|repeat split].
  rewrite process_path_eq. unfold path_outcome.
  destruct (source w path) as [|header [|l data]];
    cbn [List.length] in Hlines; try lia; reflexivity.
Qed.

Lemma empty_file_recorded_witness :
  process_path header_only_world text_file_path dataset_path "SEC_XBRL"
    "tag.tsv" scenario_path fresh =
    (Ok tt,
     mkState (Some (scenario_path ++ newline)%string)
       [Info (MTableName "tag"); ReadLines scenario_path; Info MEmptyFile;
        Info (MLedgerWrite scenario_path); Info MSeparator]).
Proof.
  apply (@empty_file_recorded header_only_world text_file_path dataset_path
           "SEC_XBRL" "tag.tsv" scenario_path fresh).
  simpl. lia.
Defined.

Lemma round_half_even_nearest a b :
  (0 < b)%Z -> (2 * Z.abs (Py.round_half_even a b * b - a) <= b)%Z.
Proof.
  intros Hb. unfold Py.round_half_even.
  pose proof (Z.div_mod a b ltac:(lia)) as Hdm.
  pose proof (Z.mod_pos_bound a b Hb) as Hr.
  destruct (2 * (a mod b) <? b)%Z eqn:E1.
  - apply Z.ltb_lt in E1. nia.
  - apply Z.ltb_ge in E1.
    destruct (b <? 2 * (a mod b))%Z eqn:E2.
    + apply Z.ltb_lt in E2. nia.
    + apply Z.ltb_ge in E2. destruct (Z.even (a / b)); nia.
Qed.

(** ** The skipped percentage in binary64

    The program divides, multiplies and rounds in floating point.  What
    follows bounds the distance between the product it rounds and the exact
    percentage, from the definitions of [SpecFloat]: the shift that brings a
    mantissa back to 53 bits loses less than one unit of the last place. *)

Section FloatPct.

Local Open Scope Z_scope.

Lemma digits2_pos_bounds p :
  2 ^ (Zpos (digits2_pos p) - 1) <= Zpos p < 2 ^ Zpos (digits2_pos p).
Proof.
  induction p as [p IH|p IH|]; cbn [digits2_pos].
  - rewrite Pos2Z.inj_succ.
    replace (Z.succ (Zpos (digits2_pos p)) - 1) with (Z.succ (Zpos (digits2_pos p) - 1)) by lia.
    rewrite !Z.pow_succ_r by lia. lia.
  - rewrite Pos2Z.inj_succ.
    replace (Z.succ (Zpos (digits2_pos p)) - 1) with (Z.succ (Zpos (digits2_pos p) - 1)) by lia.
    rewrite !Z.pow_succ_r by lia. lia.
  - cbn. lia.
Qed.

Lemma Zdigits2_bounds m :
  0 < m -> 2 ^ (Zdigits2 m - 1) <= m < 2 ^ Zdigits2 m.
Proof. destruct m as [|p|p]; try lia. intros _. apply digits2_pos_bounds. Qed.

Lemma Zdigits2_pos m : 0 < m -> 0 < Zdigits2 m.
Proof. destruct m; cbn; lia. Qed.

Lemma Zdigits2_unique m d :
  0 < m -> 2 ^ (d - 1) <= m < 2 ^ d -> Zdigits2 m = d.
Proof.
  intros Hm [Hlo Hhi]. pose proof (Zdigits2_bounds Hm) as [Hlo' Hhi'].
  pose proof (Zdigits2_pos Hm) as Hd.
  assert (0 < d).
  { destruct (Z_lt_le_dec 0 d) as [|Hle]; [assumption|]. exfalso.
    destruct (Z.eq_dec d 0) as [->|Hn]; [cbn in Hhi; lia|].
    rewrite (Z.pow_neg_r 2 d) in Hhi by lia. lia. }
  destruct (Z.lt_trichotomy (Zdigits2 m) d) as [Hlt|[Heq|Hgt]]; [|assumption|].
  - assert (2 ^ Zdigits2 m <= 2 ^ (d - 1)) by (apply Z.pow_le_mono_r; lia). lia.
  - assert (2 ^ d <= 2 ^ (Zdigits2 m - 1)) by (apply Z.pow_le_mono_r; lia). lia.
Qed.

Lemma shr_1_m mrs : 0 <= shr_m mrs -> shr_m (shr_1 mrs) = shr_m mrs / 2.
Proof.
  destruct mrs as [m r s]. cbn [shr_m]. intros Hm.
  rewrite <- Z.div2_div.
  destruct m as [|[p|p|]|p]; try reflexivity; lia.
Qed.

Lemma iter_shr_1_m : forall p mrs,
  0 <= shr_m mrs ->
  shr_m (iter_pos shr_1 p mrs) = shr_m mrs / 2 ^ Zpos p.
Proof.
  induction p as [p IH|p IH|]; intros mrs Hm; cbn [iter_pos].
  - assert (H1 : 0 <= shr_m (shr_1 mrs)).
    { rewrite shr_1_m by assumption. apply Z.div_pos; lia. }
    assert (H2 : 0 <= shr_m (iter_pos shr_1 p (shr_1 mrs))).
    { rewrite IH by assumption. apply Z.div_pos; [lia|]. apply Z.pow_pos_nonneg; lia. }
    rewrite IH, IH, shr_1_m by assumption.
    rewrite !Z.div_div by (try lia; apply Z.pow_pos_nonneg; lia).
    f_equal. replace (Zpos p~1) with (1 + Zpos p + Zpos p) by lia.
    rewrite !Z.pow_add_r by lia. lia.
  - assert (H2 : 0 <= shr_m (iter_pos shr_1 p mrs)).
    { rewrite IH by assumption. apply Z.div_pos; [lia|]. apply Z.pow_pos_nonneg; lia. }
    rewrite IH, IH by assumption.
    rewrite !Z.div_div by (try lia; apply Z.pow_pos_nonneg; lia).
    f_equal. replace (Zpos p~0) with (Zpos p + Zpos p) by lia.
    rewrite !Z.pow_add_r by lia. lia.
  - rewrite shr_1_m by assumption. reflexivity.
Qed.

Lemma shr_m_of_loc m l : shr_m (shr_record_of_loc m l) = m.
Proof. now destruct l as [|[]]. Qed.

Lemma shr_spec mrs e n :
  0 <= shr_m mrs -> 0 <= n ->
  shr_m (fst (shr mrs e n)) = shr_m mrs / 2 ^ n /\ snd (shr mrs e n) = e + n.
Proof.
  intros Hm Hn. destruct n as [|p|p]; cbn [shr fst snd]; try lia.
  - rewrite Z.div_1_r. lia.
  - now rewrite iter_shr_1_m.
Qed.

Lemma round_nearest_even_cases m l :
  round_nearest_even m l = m \/ round_nearest_even m l = m + 1.
Proof. destruct l as [|[]]; cbn; auto. destruct (Z.even m); auto. Qed.

Lemma fexp_normal d :
  -1021 <= d -> fexp Py.prec Py.emax d = d - 53.
Proof. intros H. unfold fexp, emin, Py.prec, Py.emax. lia. Qed.

Lemma shr_fexp_spec m e l mrs e1 :
  0 < m -> -1021 <= Zdigits2 m + e -> 53 <= Zdigits2 m ->
  shr_fexp Py.prec Py.emax m e l = (mrs, e1) ->
  shr_m mrs = m / 2 ^ (Zdigits2 m - 53) /\ e1 = e + (Zdigits2 m - 53).
Proof.
  intros Hm Hd H53 E. unfold shr_fexp in E. rewrite fexp_normal in E by assumption.
  replace (Zdigits2 m + e - 53 - e) with (Zdigits2 m - 53) in E by lia.
  pose proof (@shr_spec (shr_record_of_loc m l) e (Zdigits2 m - 53)) as H.
  rewrite shr_m_of_loc, E in H. cbn [fst snd] in H. apply H; lia.
Qed.

Lemma pow2_split a b : 0 <= a -> 0 <= b -> 2 ^ (a + b) = 2 ^ a * 2 ^ b.
Proof. intros. now rewrite Z.pow_add_r. Qed.

Lemma binary_round_aux_bound sx m e l :
  2 ^ 52 <= m -> -1074 <= e -> m < 2 ^ (1023 - e) ->
  exists m' e',
    binary_round_aux Py.prec Py.emax sx m e l = S754_finite sx m' e' /\
    2 ^ 52 <= Zpos m' < 2 ^ 53 /\ e <= e' /\
    (Zpos m' - 1) * 2 ^ (e' - e) <= m /\
    m + 1 <= (Zpos m' + 1) * 2 ^ (e' - e).
Proof.
  intros Hlo He Hhi.
  assert (Hm : 0 < m) by (assert (0 < 2 ^ 52) by reflexivity; lia).
  pose proof (Zdigits2_bounds Hm) as [Hdlo Hdhi].
  set (d := Zdigits2 m) in *.
  assert (Hd53 : 53 <= d).
  { destruct (Z_lt_le_dec d 53) as [Hlt|]; [|assumption]. exfalso.
    assert (2 ^ d <= 2 ^ 52) by (apply Z.pow_le_mono_r; lia). lia. }
  assert (Hdhi' : d <= 1023 - e).
  { destruct (Z_lt_le_dec (1023 - e) d) as [Hlt|]; [|assumption]. exfalso.
    assert (2 ^ (1023 - e) <= 2 ^ (d - 1)) by (apply Z.pow_le_mono_r; lia). lia. }
  set (n1 := d - 53).
  assert (Hp1 : 0 < 2 ^ n1) by (apply Z.pow_pos_nonneg; lia).
  assert (Hs1 : 2 ^ (d - 1) = 2 ^ 52 * 2 ^ n1).
  { rewrite <- pow2_split by lia. f_equal. lia. }
  assert (Hs2 : 2 ^ d = 2 ^ 53 * 2 ^ n1).
  { rewrite <- pow2_split by lia. f_equal. lia. }
  unfold binary_round_aux.
  destruct (shr_fexp Py.prec Py.emax m e l) as [mrs1 e1] eqn:E1.
  apply shr_fexp_spec in E1; [|assumption|fold d; lia|fold d; lia].
  fold d in E1. fold n1 in E1. destruct E1 as [Hm1 ->].
  set (m1 := shr_m mrs1) in *.
  assert (Hm1lo : 2 ^ 52 <= m1).
  { rewrite Hm1. apply Z.div_le_lower_bound; lia. }
  assert (Hm1hi : m1 < 2 ^ 53).
  { rewrite Hm1. apply Z.div_lt_upper_bound; lia. }
  assert (Hm1a : m1 * 2 ^ n1 <= m).
  { rewrite Hm1, Z.mul_comm. apply Z.mul_div_le. lia. }
  assert (Hm1b : m < (m1 + 1) * 2 ^ n1).
  { rewrite Hm1, Z.mul_comm. apply Z.mul_succ_div_gt. lia. }
  set (m2 := round_nearest_even m1 (loc_of_shr_record mrs1)).
  assert (Hm2 : m2 = m1 \/ m2 = m1 + 1) by apply round_nearest_even_cases.
  destruct (shr_fexp Py.prec Py.emax m2 (e + n1) loc_Exact) as [mrs2 e2] eqn:E2.
  destruct (Z_lt_le_dec m2 (2 ^ 53)) as [Hsmall|Hbig].
  - assert (Hdig : Zdigits2 m2 = 53).
    { apply Zdigits2_unique; [lia|]. change (53 - 1) with 52. lia. }
    apply shr_fexp_spec in E2; [|lia|rewrite Hdig; lia|rewrite Hdig; lia].
    rewrite Hdig in E2. change (53 - 53) with 0 in E2.
    rewrite Z.pow_0_r, Z.div_1_r, Z.add_0_r in E2. destruct E2 as [-> ->].
    destruct m2 as [|p2|p2] eqn:Ep; try lia.
    exists p2, (e + n1).
    replace (Z.leb (e + n1) (Py.emax - Py.prec)) with true
      by (symmetry; apply Z.leb_le; unfold Py.emax, Py.prec, n1; lia).
    split; [reflexivity|]. split; [lia|]. split; [lia|].
    replace (e + n1 - e) with n1 by lia. split; nia.
  - assert (Hm2eq : m2 = 2 ^ 53) by lia.
    assert (Hdig : Zdigits2 m2 = 54) by (rewrite Hm2eq; reflexivity).
    apply shr_fexp_spec in E2; [|lia|rewrite Hdig; lia|rewrite Hdig; lia].
    rewrite Hdig, Hm2eq in E2. change (54 - 53) with 1 in E2.
    change (2 ^ 53 / 2 ^ 1) with (2 ^ 52) in E2. destruct E2 as [-> ->].
    change (2 ^ 52) with (Zpos (Pos.pow 2 52)) at 1.
    cbv beta iota.
    exists (Pos.pow 2 52), (e + n1 + 1).
    replace (Z.leb (e + n1 + 1) (Py.emax - Py.prec)) with true
      by (symmetry; apply Z.leb_le; unfold Py.emax, Py.prec, n1; lia).
    split; [reflexivity|]. split; [split; [reflexivity|reflexivity]|]. split; [lia|].
    replace (e + n1 + 1 - e) with (n1 + 1) by lia.
    rewrite pow2_split by lia. change (2 ^ 1) with 2.
    change (Zpos (Pos.pow 2 52)) with (2 ^ 52).
    split; nia.
Qed.

Lemma div_eucl_div_mod a b : Z.div_eucl a b = (a / b, a mod b).
Proof. unfold Z.div, Z.modulo. now destruct (Z.div_eucl a b). Qed.

Lemma truediv_bound k n :
  0 < k <= n -> n < 2 ^ 63 ->
  exists mq E,
    Py.truediv k n = S754_finite false mq (- E) /\
    2 ^ 52 <= Zpos mq < 2 ^ 53 /\ 51 <= E <= 115 /\
    (Zpos mq - 1) * n <= k * 2 ^ E /\ k * 2 ^ E < (Zpos mq + 1) * n.
Proof.
  intros [Hk Hkn] Hn.
  destruct k as [|pk|pk]; try lia. destruct n as [|pn|pn]; try lia.
  unfold Py.truediv, Py.float_of_int, SFdiv, SFdiv_core_binary.
  pose proof (@Zdigits2_bounds (Zpos pk) ltac:(lia)) as [H1lo H1hi].
  pose proof (@Zdigits2_bounds (Zpos pn) ltac:(lia)) as [H2lo H2hi].
  pose proof (@Zdigits2_pos (Zpos pk) ltac:(lia)) as H1p.
  set (d1 := Zdigits2 (Zpos pk)) in *. set (d2 := Zdigits2 (Zpos pn)) in *.
  assert (Hd12 : d1 <= d2).
  { destruct (Z_lt_le_dec d2 d1) as [Hlt|]; [|assumption]. exfalso.
    assert (2 ^ d2 <= 2 ^ (d1 - 1)) by (apply Z.pow_le_mono_r; lia). lia. }
  assert (Hd2 : d2 <= 63).
  { destruct (Z_lt_le_dec 63 d2) as [Hlt|]; [|assumption]. exfalso.
    assert (2 ^ 63 <= 2 ^ (d2 - 1)) by (apply Z.pow_le_mono_r; lia). lia. }
  rewrite fexp_normal by lia.
  replace (Z.min (d1 + 0 - (d2 + 0) - 53) (0 - 0)) with (d1 - d2 - 53) by lia.
  replace (0 - 0 - (d1 - d2 - 53)) with (53 + d2 - d1) by lia.
  set (s := 53 + d2 - d1).
  assert (Hs : 53 <= s <= 115) by lia.
  assert (Hshift : match s with
                   | Zpos _ => Z.shiftl (Zpos pk) s
                   | Z0 => Zpos pk
                   | Zneg _ => 0
                   end = Zpos pk * 2 ^ s).
  { destruct s eqn:Es; try lia. apply Z.shiftl_mul_pow2. lia. }
  rewrite Hshift, div_eucl_div_mod.
  set (q := Zpos pk * 2 ^ s / Zpos pn).
  assert (Hps : 0 < 2 ^ s) by (apply Z.pow_pos_nonneg; lia).
  assert (Hqa : q * Zpos pn <= Zpos pk * 2 ^ s).
  { pose proof (Z.mul_div_le (Zpos pk * 2 ^ s) (Zpos pn) ltac:(lia)) as H.
    fold q in H. lia. }
  assert (Hqb : Zpos pk * 2 ^ s < (q + 1) * Zpos pn).
  { pose proof (Z.mul_succ_div_gt (Zpos pk * 2 ^ s) (Zpos pn) ltac:(lia)) as H.
    fold q in H. lia. }
  assert (Hpow1 : 2 ^ (d1 - 1) * 2 ^ s = 2 ^ 52 * 2 ^ d2).
  { rewrite <- !pow2_split by lia. f_equal. lia. }
  assert (Hpow2 : 2 ^ d1 * 2 ^ s = 2 ^ 54 * 2 ^ (d2 - 1)).
  { rewrite <- !pow2_split by lia. f_equal. lia. }
  assert (Hpd2 : 0 < 2 ^ (d2 - 1)) by (apply Z.pow_pos_nonneg; lia).
  assert (Hqlo : 2 ^ 52 <= q).
  { unfold q. apply Z.div_le_lower_bound; [lia|]. nia. }
  assert (Hqhi : q < 2 ^ 54).
  { unfold q. apply Z.div_lt_upper_bound; [lia|]. nia. }
  destruct (@binary_round_aux_bound (xorb false false) q (d1 - d2 - 53)
              (new_location (Zpos pn) (Zpos pk * 2 ^ s mod Zpos pn)))
    as [mq [e2 [Hres [Hmq [He2 [Ha Hb]]]]]]; [assumption|lia| |].
  { assert (2 ^ 54 <= 2 ^ (1023 - (d1 - d2 - 53))) by (apply Z.pow_le_mono_r; lia).
    lia. }
  set (t := e2 - (d1 - d2 - 53)) in *.
  assert (Ht0 : 0 <= t) by (unfold t; lia).
  assert (Hpt : 0 < 2 ^ t) by (apply Z.pow_pos_nonneg; lia).
  assert (Ht : t <= 2).
  { destruct (Z_lt_le_dec 2 t) as [Hlt|]; [|lia]. exfalso.
    assert (2 ^ 3 <= 2 ^ t) by (apply Z.pow_le_mono_r; lia).
    change (2 ^ 3) with 8 in *. change (2 ^ 54) with (4 * 2 ^ 52) in Hqhi. nia. }
  exists mq, (s - t). cbn [xorb] in Hres.
  replace (- (s - t)) with e2 by (unfold s, t; lia).
  split; [exact Hres|]. split; [exact Hmq|]. split; [lia|].
  assert (Hsplit : 2 ^ s = 2 ^ (s - t) * 2 ^ t).
  { rewrite <- pow2_split by lia. f_equal. lia. }
  assert (Hpst : 0 < 2 ^ (s - t)) by (apply Z.pow_pos_nonneg; lia).
  rewrite Hsplit in Hqa, Hqb.
  split; nia.
Qed.

Lemma float_pct_bound k n :
  0 < k <= n -> n < 2 ^ 63 ->
  exists mp F,
    Py.float_mul (Py.truediv k n) (Py.float_of_int 100)
      = S754_finite false mp (- F) /\
    44 <= F /\
    Z.abs (1000 * Zpos mp * n - 100000 * k * 2 ^ F) * 2 ^ 30 <= n * 2 ^ F.
Proof.
  intros Hk Hn.
  destruct (truediv_bound Hk Hn) as [mq [E [Hq [Hmq [HE [Hqa Hqb]]]]]].
  rewrite Hq. unfold Py.float_mul, Py.float_of_int, SFmul.
  destruct (@binary_round_aux_bound (xorb false false) (Zpos (mq * 100))
              (- E + 0) loc_Exact)
    as [mp [e3 [Hres [Hmp [He3 [Ha Hb]]]]]].
  { rewrite Pos2Z.inj_mul. lia. }
  { lia. }
  { rewrite Pos2Z.inj_mul.
    assert (2 ^ 60 <= 2 ^ (1023 - (- E + 0))) by (apply Z.pow_le_mono_r; lia).
    change (2 ^ 60) with (128 * 2 ^ 53) in *. lia. }
  rewrite Pos2Z.inj_mul in Ha, Hb.
  set (t := e3 - (- E + 0)) in *.
  assert (Ht0 : 0 <= t) by (unfold t; lia).
  assert (Hthi : t <= 7).
  { destruct (Z_lt_le_dec 7 t) as [Hlt|]; [|lia]. exfalso.
    assert (2 ^ 8 <= 2 ^ t) by (apply Z.pow_le_mono_r; lia).
    change (2 ^ 8) with 256 in *. change (2 ^ 53) with (2 * 2 ^ 52) in Hmq.
    assert (0 < 2 ^ 52) by reflexivity. nia. }
  assert (Htlo : 6 <= t).
  { destruct (Z_lt_le_dec t 6) as [Hlt|]; [|lia]. exfalso.
    assert (2 ^ t <= 2 ^ 5) by (apply Z.pow_le_mono_r; lia).
    assert (0 < 2 ^ t) by (apply Z.pow_pos_nonneg; lia).
    change (2 ^ 5) with 32 in *. change (2 ^ 53) with (2 * 2 ^ 52) in Hmp.
    assert (0 < 2 ^ 52) by reflexivity. nia. }
  assert (HT : 64 <= 2 ^ t).
  { change 64 with (2 ^ 6). apply Z.pow_le_mono_r; lia. }
  exists mp, (E - t). cbn [xorb] in Hres.
  replace (- (E - t)) with e3 by (unfold t; lia).
  split; [exact Hres|]. split; [lia|].
  assert (HP : 2 ^ 44 <= 2 ^ (E - t)) by (apply Z.pow_le_mono_r; lia).
  assert (Hsplit : 2 ^ E = 2 ^ (E - t) * 2 ^ t).
  { rewrite <- pow2_split by lia. f_equal. lia. }
  rewrite Hsplit in Hqa, Hqb.
  set (T := 2 ^ t) in *. set (P := 2 ^ (E - t)) in *.
  set (D := Zpos mp * n - 100 * k * P).
  assert (Hn0 : 0 < n) by lia.
  assert (Hup : - D * T <= (T + 100) * n).
  { unfold D.
    assert (100 * (k * (P * T)) <= 100 * ((Zpos mq + 1) * n)) by lia.
    assert ((Zpos mq * 100 + 1) * n <= (Zpos mp + 1) * T * n)
      by (apply Z.mul_le_mono_nonneg_r; lia).
    nia. }
  assert (Hdn : D * T <= (T + 100) * n).
  { unfold D.
    assert (100 * ((Zpos mq - 1) * n) <= 100 * (k * (P * T))) by lia.
    assert ((Zpos mp - 1) * T * n <= Zpos mq * 100 * n)
      by (apply Z.mul_le_mono_nonneg_r; lia).
    nia. }
  assert (HD : Z.abs D <= 3 * n).
  { assert ((T + 100) * n <= 3 * n * T) by nia.
    apply Z.abs_le. split; nia. }
  replace (1000 * Zpos mp * n - 100000 * k * P) with (1000 * D) by (unfold D; lia).
  rewrite Z.abs_mul. change (Z.abs 1000) with 1000.
  change (2 ^ 44) with (16384 * 2 ^ 30) in HP.
  assert (0 < 2 ^ 30) by reflexivity.
  pose proof (Z.abs_nonneg D). nia.
Qed.

Lemma round_half_even_unique a b r :
  0 < b -> 2 * Z.abs (r * b - a) < b -> Py.round_half_even a b = r.
Proof.
  intros Hb Hr. pose proof (round_half_even_nearest a Hb) as Hn.
  set (r' := Py.round_half_even a b) in *.
  assert (Z.abs (r' - r) * b < 1 * b); [|nia].
  rewrite <- (Z.abs_eq b) at 1 by lia. rewrite <- Z.abs_mul. lia.
Qed.

(** Two quotients less than a half apart round to neighbours. *)
Lemma round_half_even_close a1 b1 a2 b2 :
  0 < b1 -> 0 < b2 -> 2 * Z.abs (a1 * b2 - a2 * b1) < b1 * b2 ->
  Z.abs (Py.round_half_even a1 b1 - Py.round_half_even a2 b2) <= 1.
Proof.
  intros H1 H2 H.
  pose proof (round_half_even_nearest a1 H1) as N1.
  pose proof (round_half_even_nearest a2 H2) as N2.
  set (r1 := Py.round_half_even a1 b1) in *.
  set (r2 := Py.round_half_even a2 b2) in *.
  assert (Hb : 0 < b1 * b2) by nia.
  assert (2 * Z.abs ((r1 * b1 - a1) * b2) <= b1 * b2)
    by (rewrite Z.abs_mul, (Z.abs_eq b2) by lia; nia).
  assert (2 * Z.abs ((r2 * b2 - a2) * b1) <= b1 * b2)
    by (rewrite Z.abs_mul, (Z.abs_eq b1) by lia; nia).
  assert (2 * (Z.abs (r1 - r2) * (b1 * b2)) < 4 * (b1 * b2)); [|nia].
  rewrite <- (Z.abs_eq (b1 * b2)) at 1 by lia. rewrite <- Z.abs_mul. lia.
Qed.

Lemma round_half_even_integer a1 b1 j b2 :
  0 < b1 -> 0 < b2 -> 2 * Z.abs (a1 * b2 - j * b2 * b1) < b1 * b2 ->
  Py.round_half_even a1 b1 = j.
Proof.
  intros H1 H2 H. apply round_half_even_unique; [assumption|].
  assert (2 * (Z.abs (j * b1 - a1) * b2) < b1 * b2); [|nia].
  rewrite <- (Z.abs_eq b2) at 1 by lia. rewrite <- Z.abs_mul.
  replace ((j * b1 - a1) * b2) with (- (a1 * b2 - j * b2 * b1)) by lia.
  now rewrite Z.abs_opp.
Qed.

(** Two quotients at most [1/D] apart round to the same integer when the
    second is more than [1/D] away from the middle of two integers. *)
Lemma round_half_even_same a1 b1 a2 b2 D :
  0 < b1 -> 0 < b2 -> 0 < D ->
  Z.abs (a1 * b2 - a2 * b1) * D <= b1 * b2 ->
  2 * b2 < D * Z.abs (2 * (a2 mod b2) - b2) ->
  Py.round_half_even a1 b1 = Py.round_half_even a2 b2.
Proof.
  intros H1 H2 HD Hclose Hfar.
  apply round_half_even_unique; [assumption|].
  pose proof (Z.div_mod a2 b2 ltac:(lia)) as Hdm.
  pose proof (Z.mod_pos_bound a2 b2 H2) as Hr.
  set (q := a2 / b2) in *. set (rho := a2 mod b2) in *.
  set (d := a1 * b2 - a2 * b1) in *.
  assert (Hgoal : forall r, 
            2 * Z.abs ((r * b2 - a2) * b1 - d) < b1 * b2 ->
            2 * Z.abs (r * b1 - a1) < b1).
  { intros r Hr'.
    assert (2 * (Z.abs (r * b1 - a1) * b2) < b1 * b2); [|nia].
    rewrite <- (Z.abs_eq b2) at 1 by lia. rewrite <- Z.abs_mul.
    replace ((r * b1 - a1) * b2) with ((r * b2 - a2) * b1 - d) by (unfold d; lia).
    exact Hr'. }
  apply Hgoal. unfold Py.round_half_even. fold q rho.
  assert (Hd : 2 * (Z.abs d * D) <= 2 * (b1 * b2)) by lia.
  destruct (2 * rho <? b2) eqn:E1.
  - apply Z.ltb_lt in E1.
    rewrite Z.abs_neq in Hfar by lia.
    replace ((q * b2 - a2) * b1 - d) with (- (rho * b1 + d)) by lia.
    rewrite Z.abs_opp.
    assert (Hx : 2 * Z.abs d < (b2 - 2 * rho) * b1).
    { assert (2 * Z.abs d * D < D * (b2 - 2 * rho) * b1); [|nia]. nia. }
    pose proof (Z.abs_triangle (rho * b1) d) as Htri.
    rewrite (Z.abs_eq (rho * b1)) in Htri by nia. lia.
  - apply Z.ltb_ge in E1.
    destruct (b2 <? 2 * rho) eqn:E2.
    + apply Z.ltb_lt in E2.
      rewrite Z.abs_eq in Hfar by lia.
      replace (((q + 1) * b2 - a2) * b1 - d) with ((b2 - rho) * b1 - d) by lia.
      assert (Hx : 2 * Z.abs d < (2 * rho - b2) * b1).
      { assert (2 * Z.abs d * D < D * (2 * rho - b2) * b1); [|nia]. nia. }
      pose proof (Z.abs_triangle ((b2 - rho) * b1) (- d)) as Htri.
      rewrite Z.abs_opp, (Z.abs_eq ((b2 - rho) * b1)) in Htri by nia.
      replace ((b2 - rho) * b1 + - d) with ((b2 - rho) * b1 - d) in Htri by lia.
      lia.
    + apply Z.ltb_ge in E2. exfalso.
      replace (2 * rho - b2) with 0 in Hfar by lia.
      change (Z.abs 0) with 0 in Hfar. lia.
Qed.

Lemma float_pct_zero n : 0 < n -> float_pct 0 n = 0.
Proof. destruct n; try lia. reflexivity. Qed.

Lemma float_pct_rounds k n :
  0 < k <= n -> n < 2 ^ 63 ->
  exists a b,
    0 < b /\ float_pct k n = Py.round_half_even a b /\
    Z.abs (a * n - k * 100000 * b) * 2 ^ 30 <= n * b.
Proof.
  intros Hk Hn.
  destruct (float_pct_bound Hk Hn) as [mp [F [Hf [HF Hb]]]].
  unfold float_pct. rewrite Hf. destruct F as [|p|p]; try lia.
  exists (Zpos mp * 1000), (2 ^ Zpos p).
  split; [apply Z.pow_pos_nonneg; lia|]. split; [reflexivity|].
  replace (Zpos mp * 1000 * n - k * 100000 * 2 ^ Zpos p)
    with (1000 * Zpos mp * n - 100000 * k * 2 ^ Zpos p) by lia.
  exact Hb.
Qed.

Lemma float_pct_accuracy k n :
  0 <= k <= n -> 0 < n < 2 ^ 63 ->
  Z.abs (float_pct k n - spec_pct k n) <= 1 /\
  (forall j, k * 100000 = j * n -> float_pct k n = j) /\
  (2 * n < 2 ^ 30 * Z.abs (2 * ((k * 100000) mod n) - n) ->
   float_pct k n = spec_pct k n).
Proof.
  intros [Hk0 Hkn] [Hn0 Hn]. unfold spec_pct. rewrite Z.max_l by lia.
  destruct (Z.eq_dec k 0) as [->|Hk].
  - rewrite float_pct_zero by assumption.
    assert (E : Py.round_half_even (0 * 100000) n = 0).
    { apply round_half_even_unique; [assumption|]. cbn. lia. }
    rewrite E. split; [cbn; lia|]. split; [intros j Hj; nia | reflexivity].
  - destruct (@float_pct_rounds k n ltac:(lia) Hn) as [a [b [Hb [-> Hclose]]]].
    assert (H30 : 2 ^ 30 = 1073741824) by reflexivity.
    assert (Hhalf : 2 * Z.abs (a * n - k * 100000 * b) < b * n).
    { pose proof (Z.abs_nonneg (a * n - k * 100000 * b)). nia. }
    split; [|split].
    + now apply round_half_even_close.
    + intros j Hj. apply (@round_half_even_integer a b j n); try assumption.
      rewrite <- Hj. exact Hhalf.
    + intros Hfar. apply (@round_half_even_same a b (k * 100000) n (2 ^ 30));
        try assumption; lia.
Qed.

Lemma float_pct_exact k n :
  0 <= k <= n -> 0 < n < 2 ^ 29 ->
  2 * ((k * 100000) mod n) <> n -> float_pct k n = spec_pct k n.
Proof.
  intros Hk Hn Htie.
  assert (H29 : 2 ^ 29 = 536870912) by reflexivity.
  assert (H30 : 2 ^ 30 = 1073741824) by reflexivity.
  assert (H63 : 2 ^ 63 = 9223372036854775808) by reflexivity.
  apply float_pct_accuracy; [assumption|lia|]. lia.
Qed.

Lemma float_pct_range k n :
  0 <= k <= n -> 0 < n < 2 ^ 63 -> 0 <= float_pct k n <= 100000.
Proof.
  intros Hk Hn.
  destruct (Z.eq_dec k 0) as [->|Hk0]; [rewrite float_pct_zero; lia|].
  destruct (@float_pct_rounds k n ltac:(lia) ltac:(lia)) as [a [b [Hb [E Hclose]]]].
  pose proof (@round_half_even_nearest a b Hb) as N.
  rewrite E. set (r := Py.round_half_even a b) in *.
  assert (H30 : 2 ^ 30 = 1073741824) by reflexivity.
  assert (Hhalf : 2 * Z.abs (a * n - k * 100000 * b) < b * n).
  { pose proof (Z.abs_nonneg (a * n - k * 100000 * b)). nia. }
  assert (H1 : 2 * Z.abs ((r * b - a) * n) <= b * n)
    by (rewrite Z.abs_mul, (Z.abs_eq n) by lia; nia).
  assert (Hr : Z.abs ((r * b * n - k * 100000 * b)) < b * n) by lia.
  split.
  - destruct (Z_lt_le_dec r 0) as [Hneg|]; [|assumption]. exfalso.
    assert (r * b * n <= - (b * n)) by nia. nia.
  - destruct (Z_lt_le_dec 100000 r) as [Hbig|]; [|assumption]. exfalso.
    assert (100001 * (b * n) <= r * b * n) by nia.
    assert (k * 100000 * b <= 100000 * (b * n)) by nia. lia.
Qed.

End FloatPct.

(** C7, as the program has it.  For a file with at least one data line the
    program logs one skipped percentage, [round(skipped / total * 100, 3)]
    computed in floating point, where [total] is the number of data lines
    and [skipped] the number of them whose cleaned field count differs from
    the header's; [total] is at least 1, so it is the [max(total, 1)] of the
    specification.  For a file of fewer than two lines no percentage is
    logged.  The logged value is at most one thousandth away from the number
    [skipped / total * 100] rounded to three decimals; it is that number
    when it has no more than three decimals, and it is the rounded number
    for a file of fewer than [2 ** 29] data lines unless the fourth decimal
    is a 5 followed by nothing, where the float may fall on either side: for
    23 rows skipped of 320 the program logs 7.187, the percentage being
    7.1875.  In the scenario, with 3 data lines of which 1 is mismatched,
    the percentage is 33.333. *)
Theorem skipped_percentage (w : World) (tfp dp dn key path : string)
  (st : State) :
  (exists new,
     trace (snd (process_path w tfp dp dn key path st)) = trace st ++ new /\
     percentages new =
       match source w path with
       | header :: ((_ :: _) as data) =>
           [float_pct
              (Z.of_nat (List.length (filter (mismatched (width header)) data)))
              (Z.of_nat (List.length data))]
       | _ => []
       end) /\
  (forall skipped total : Z,
     (0 <= skipped <= total)%Z -> (0 < total < 2 ^ 63)%Z ->
     (Z.abs (float_pct skipped total - spec_pct skipped total) <= 1)%Z /\
     (forall j : Z,
        (skipped * 100000 = j * total)%Z -> float_pct skipped total = j) /\
     ((total < 2 ^ 29)%Z ->
      (2 * ((skipped * 100000) mod total) <> total)%Z ->
      float_pct skipped total = spec_pct skipped total)) /\
  (float_pct 23 320 = 7187%Z /\ spec_pct 23 320 = 7188%Z) /\
  percentages
    (trace (snd (process_path scenario_world text_file_path dataset_path
                   "SEC_XBRL" "tag.tsv" scenario_path fresh)))
  = [33333%Z].
Proof.
  split; [|split; [|split; vm_compute; auto]].
  - rewrite process_path_eq.
    destruct (source w path) as [|header [|l data]] eqn:Hsrc.
    + eexists. unfold path_outcome. rewrite Hsrc. cbn [snd trace].
      split; reflexivity.
    + eexists. unfold path_outcome. rewrite Hsrc. cbn [snd trace].
      split; reflexivity.
    + destruct (path_outcome_trace w dp dn key path st Hsrc)
        as [tail [Htr [_ Hpct]]].
      eexists. split; [exact Htr|].
      read_trace. rewrite Hpct.
      unfold pct_of, skipped_of.
      rewrite length_skipped_entries. do 2 f_equal.
      cbn [List.length]. lia.
  - intros skipped total Hs Ht.
    destruct (float_pct_accuracy Hs Ht) as [Hone [Hint _]].
    split; [exact Hone|]. split; [exact Hint|].
    intros Hsmall Htie. apply float_pct_exact; [assumption|lia|assumption].
Qed.

Lemma skipped_percentage_witness :
  (Z.abs (float_pct 1 3 - spec_pct 1 3) <= 1)%Z /\
  float_pct 1 3 = spec_pct 1 3 /\
  float_pct 3 3 = 100000%Z.
Proof.
  pose proof (proj1 (proj2 (skipped_percentage scenario_world text_file_path
                              dataset_path "SEC_XBRL" "tag.tsv" scenario_path
                              fresh))) as H.
  destruct (H 1%Z 3%Z) as [Hone [_ Hsame]]; [lia | split; reflexivity |].
  destruct (H 3%Z 3%Z) as [_ [Hint _]]; [lia | split; reflexivity |].
  split; [exact Hone|]. split.
  - apply Hsame; [reflexivity | vm_compute; discriminate].
  - apply Hint. reflexivity.
Defined.

(** C7 as the specification states it fails on the scenario: the logged
    percentage is not 50.0. *)
Lemma scenario_percentage_is_not_50 :
  percentages
    (trace (snd (process_path scenario_world text_file_path dataset_path
                   "SEC_XBRL" "tag.tsv" scenario_path fresh)))
  <> [50000%Z].
Proof. vm_compute. discriminate. Qed.

(** ** C10: the invariant of the row loop *)

Lemma for_fold_app {A B} (f : B -> A -> M B) : forall (l1 l2 : list A) b st,
  for_fold (l1 ++ l2) f b st
  = bind (for_fold l1 f b) (fun b' => for_fold l2 f b') st.
Proof.
  induction l1 as [|x l1 IH]; intros l2 b st; cbn [app for_fold].
  - reflexivity.
  - unfold bind in *. destruct (f b x st) as [[b'|e] st']; [|reflexivity].
    apply IH.
Qed.

Lemma enumerate_from_app {A} : forall (l1 l2 : list A) s,
  enumerate_from s (l1 ++ l2)
  = enumerate_from s l1 ++ enumerate_from (s + List.length l1) l2.
Proof.
  induction l1 as [|x l1 IH]; intros l2 s; cbn [app enumerate_from List.length].
  - now rewrite Nat.add_0_r.
  - rewrite IH. now rewrite Nat.add_succ_r.
Qed.

(** C10.  Take any file [pre ++ line :: post] and the iteration of the row
    loop that handles [line].  The iterations before it end normally, in a
    state [r]; once the cleaned fields of [line] are appended, every element
    of the list but this last one has the field count of element 0.  If the
    cleaned fields have that count, the iteration keeps them.  If not, the
    first element equal to them is the one just appended, at the last
    position, which is not position 0: [remove] gives back the list as it
    was before the append, header and kept rows untouched. *)
Theorem row_loop_invariant (path : string) (pre post : list string)
  (line : string) (st : State) :
  exists r st' first,
    for_fold (enumerate pre) (row_body path) (mkRows [] 0 []) st = (Ok r, st') /\
    row_loop path (pre ++ line :: post) st =
      bind (row_body path r (List.length pre, line))
        (for_fold (enumerate_from (S (List.length pre)) post) (row_body path))
        st' /\
    let cleaned := cleaned_of line in
    let appended := line_list r ++ [cleaned] in
    nth_error appended 0 = Some first /\
    Forall (fun row => List.length row = List.length first) (line_list r) /\
    if Nat.eqb (List.length cleaned) (List.length first) then
      row_body path r (List.length pre, line) st' =
        (Ok (mkRows appended (invalid_rows_counter r) (idx_list r)), st')
    else
      0 < List.length (line_list r) /\
      Py.index cleaned appended = Some (List.length (line_list r)) /\
      Py.remove cleaned appended = Some (line_list r) /\
      exists r' st'',
        row_body path r (List.length pre, line) st' = (Ok r', st'') /\
        line_list r' = line_list r.
Proof.
  assert (Hsplit : forall r st',
    for_fold (enumerate pre) (row_body path) (mkRows [] 0 []) st = (Ok r, st') ->
    row_loop path (pre ++ line :: post) st =
      bind (row_body path r (List.length pre, line))
        (for_fold (enumerate_from (S (List.length pre)) post) (row_body path))
        st').
  { intros r st' H. unfold row_loop, enumerate in *.
    rewrite enumerate_from_app, for_fold_app. unfold bind at 1. rewrite H.
    reflexivity. }
  destruct pre as [|header data].
  - exists (mkRows [] 0 []), st, (cleaned_of line).
    split; [reflexivity|]. split; [now apply Hsplit|].
    cbn [line_list app nth_error]. split; [reflexivity|].
    split; [constructor|]. rewrite Nat.eqb_refl.
    unfold row_body. cbn [fst snd line_list app nth_error].
    now rewrite Nat.eqb_refl.
  - pose proof (row_loop_spec path header data st) as Hloop.
    unfold row_loop in Hloop.
    eexists _, _, (cleaned_of header).
    split; [exact Hloop|]. split; [now apply Hsplit|].
    cbn [line_list app nth_error]. split; [reflexivity|].
    assert (HF : Forall (fun row => List.length row = List.length (cleaned_of header))
                   (cleaned_of header :: retained_rows (width header) data)).
    { constructor; [reflexivity | apply retained_rows_fit]. }
    split; [exact HF|].
    erewrite row_body_spec; [|reflexivity|apply retained_rows_fit].
    cbn [line_list]. unfold fits.
    destruct (Nat.eqb (List.length (cleaned_of line))
                (List.length (cleaned_of header))) eqn:E.
    + reflexivity.
    + apply Nat.eqb_neq in E. split; [cbn [List.length]; lia|].
      change (cleaned_of header :: retained_rows (width header) data ++ [cleaned_of line])
        with ((cleaned_of header :: retained_rows (width header) data) ++ [cleaned_of line]).
      split; [now apply (@index_appended (List.length (cleaned_of header)))|].
      split; [now apply (@remove_appended (List.length (cleaned_of header)))|].
      eexists _, _. split; reflexivity.
Qed.

(** A mismatched row equal to an earlier skipped one: both leave, the header
    and the row between them stay. *)
Example repeated_mismatched_row :
  fst (row_loop scenario_path
         [("a" ++ tab ++ "b" ++ tab ++ "c" ++ nl)%string;
          ("x" ++ tab ++ "y" ++ nl)%string;
          ("1" ++ tab ++ "2" ++ tab ++ "3" ++ nl)%string;
          ("x" ++ tab ++ "y" ++ nl)%string] fresh)
  = Ok (mkRows [["a"; "b"; "c"]; ["1"; "2"; "3"]] 2 ["1."; "3."]).
Proof. reflexivity. Qed.

(** ** C9: the cleanup of a field *)

Lemma replace_same c : forall s, Py.replace c (String c EmptyString) s = s.
Proof.
  induction s as [|a s IH]; [reflexivity|]. cbn [Py.replace].
  destruct (Ascii.eqb a c) eqn:E.
  - apply Ascii.eqb_eq in E. subst a. cbn. now rewrite IH.
  - now rewrite IH.
Qed.

Lemma clean_two_replacements field :
  clean field
  = Py.replace Py.LF EmptyString
      (Py.replace Py.BACKSLASH (String Py.SPACE EmptyString) field).
Proof. unfold clean. now rewrite !replace_same. Qed.

Lemma clean_chars : forall field,
  list_ascii_of_string (clean field)
  = flat_map clean_char (list_ascii_of_string field).
Proof.
  intros field. rewrite clean_two_replacements.
  induction field as [|c s IH]; [reflexivity|].
  cbn [Py.replace list_ascii_of_string flat_map]. unfold clean_char at 1.
  destruct (Ascii.eqb c Py.BACKSLASH) eqn:E1.
  - cbn. now rewrite IH.
  - cbn [Py.replace]. destruct (Ascii.eqb c Py.LF) eqn:E2.
    + cbn. exact IH.
    + cbn. now rewrite IH.
Qed.

Lemma split_length sep : forall s,
  List.length (Py.split sep s) = S (occurrences sep s).
Proof.
  unfold occurrences.
  induction s as [|c s IH]; [reflexivity|].
  cbn [Py.split list_ascii_of_string filter].
  rewrite (Ascii.eqb_sym sep c).
  destruct (Ascii.eqb c sep).
  - cbn [List.length]. now rewrite IH.
  - destruct (Py.split sep s) as [|f fs]; [discriminate IH|]. exact IH.
Qed.

(** C9, as the program has it.  The cleanup of a field replaces every
    backslash by one space, deletes every line feed and leaves every other
    character, quotes included, where it is; so the result holds no
    backslash and no line feed, an escaped quote comes out as a space and
    the quote, and the field of the example comes out as [Line1 nwith],
    a space, a double quote, [quote].  The cleanup of a line is the cleanup of each of
    its tab-separated fields in turn: one field for each, in the same order,
    one more than the line has tabs. *)
Theorem field_cleanup (line : string) :
  (forall field,
     list_ascii_of_string (clean field)
     = flat_map clean_char (list_ascii_of_string field)) /\
  (forall field,
     occurrences Py.BACKSLASH (clean field) = 0
     /\ occurrences Py.LF (clean field) = 0
     /\ occurrences Py.DQUOTE (clean field) = occurrences Py.DQUOTE field
     /\ occurrences Py.SQUOTE (clean field) = occurrences Py.SQUOTE field) /\
  List.length (cleaned_of line) = S (occurrences Py.TAB line) /\
  (forall i, nth_error (cleaned_of line) i
             = option_map clean (nth_error (Py.split Py.TAB line) i)) /\
  clean escaping_example = ("Line1 nwith " ++ dquote ++ "quote")%string /\
  clean (backslash ++ dquote) = (" " ++ dquote)%string.
Proof.
  split; [exact clean_chars|].
  split.
  { intros field. unfold occurrences. rewrite clean_chars.
    induction (list_ascii_of_string field) as [|c l IH]; [now repeat split|].
    cbn [flat_map filter]. rewrite !filter_app, !length_app.
    destruct IH as [IH1 [IH2 [IH3 IH4]]]. rewrite IH1, IH2, IH3, IH4.
    unfold clean_char.
    destruct (Ascii.eqb c Py.BACKSLASH) eqn:E1.
    - apply Ascii.eqb_eq in E1. subst c. now repeat split.
    - destruct (Ascii.eqb c Py.LF) eqn:E2.
      + apply Ascii.eqb_eq in E2. subst c. now repeat split.
      + cbn [filter]. rewrite (Ascii.eqb_sym Py.BACKSLASH c), E1.
        rewrite (Ascii.eqb_sym Py.LF c), E2.
        repeat split;
          match goal with |- context [Ascii.eqb ?a c] =>
            destruct (Ascii.eqb a c) end; reflexivity. }
  split.
  { unfold cleaned_of. now rewrite length_map, split_length. }
  split.
  { intros i. unfold cleaned_of. apply nth_error_map. }
  split; reflexivity.
Qed.

(** C9 as the specification states it fails on the field of its own example:
    the backslashes are not removed, each leaves a space. *)
Lemma cleanup_leaves_a_space :
  clean escaping_example <> spec_clean escaping_example.
Proof. vm_compute. discriminate. Qed.

(** ** C8: the alert *)

(** C8, where the program departs from it.  [send_slack_message] answers
    ["0"] or ["1"], both of them true for [if not result], so the line that
    reports a failed alert is never logged: no run of the loop body logs an
    error.  With the webhook out of reach, the scenario ends normally, the
    file is uploaded and recorded, one alert is attempted and fails, and the
    log holds no error. *)
Theorem alert_failure_not_logged (w : World) (tfp dp dn key path : string)
  (st : State) :
  (exists new,
     trace (snd (process_path w tfp dp dn key path st)) = trace st ++ new /\
     errors new = []) /\
  (let run := script slack_down_world fresh in
   fst run = Ok tt /\
   uploads (trace (snd run)) = [("tag", true)] /\
   ledger (snd run) = Some (scenario_path ++ newline)%string /\
   alerts (trace (snd run)) = [(slack_text scenario_path ["2."], false)] /\
   errors (trace (snd run)) = []).
Proof.
  split; [|vm_compute; repeat split].
  rewrite process_path_eq. unfold path_outcome.
  destruct (source w path) as [|header [|l data]];
    try (eexists; cbn [snd trace]; split; reflexivity).
  destruct (redivis_ok w _); eexists; cbn [snd trace];
    rewrite <- ?app_assoc; (split; [reflexivity|]).
  - read_trace. reflexivity.
  - read_trace. reflexivity.
Qed.

(** ** C3: a run whose upload fails *)

Lemma for_each_app {A} (f : A -> M unit) : forall (l1 l2 : list A) st,
  for_each (l1 ++ l2) f st = bind (for_each l1 f) (fun _ => for_each l2 f) st.
Proof.
  induction l1 as [|x l1 IH]; intros l2 st; cbn [app for_each].
  - reflexivity.
  - unfold bind in *. destruct (f x st) as [[[]|e] st']; [|reflexivity].
    apply IH.
Qed.

Lemma for_each_map {A B} (g : A -> B) (f : B -> M unit) : forall l st,
  for_each (map g l) f st = for_each l (fun x => f (g x)) st.
Proof.
  induction l as [|x l IH]; intros st; cbn [map for_each]; [reflexivity|].
  unfold bind. destruct (f (g x) st) as [[[]|e] st']; [apply IH | reflexivity].
Qed.

Lemma for_each_dict w tfp dp dn : forall (d : dict) st,
  for_each d (fun kv => for_each (snd kv) (process_path w tfp dp dn (fst kv))) st
  = run_paths w tfp dp dn (flatten d) st.
Proof.
  unfold run_paths.
  induction d as [|kv d IH]; intros st; [reflexivity|].
  cbn [for_each flatten flat_map]. rewrite for_each_app.
  unfold bind. rewrite for_each_map. cbn [fst snd].
  destruct (for_each (snd kv) _ st) as [[[]|e] st']; [apply IH | reflexivity].
Qed.

Lemma upload_append_csv_files_eq w tfp up dp dn un st :
  upload_append_csv_files w tfp up dp dn un st =
    match get_paths_dict w tfp up dn st with
    | (Ok d, st1) =>
        run_paths w tfp dp dn (flatten d)
          (if Nat.eqb (List.length d) 0
           then mkState (ledger st1) (trace st1 ++ [Info MUpToDate])
           else st1)
    | (Raise e, st1) => (Raise e, st1)
    end.
Proof.
  unfold upload_append_csv_files. unfold bind at 1.
  destruct (get_paths_dict w tfp up dn st) as [[d|e] st1]; [|reflexivity].
  unfold bind. destruct (Nat.eqb (List.length d) 0).
  - cbn. apply for_each_dict.
  - cbn. apply for_each_dict.
Qed.

Lemma run_paths_app w tfp dp dn l1 l2 st :
  run_paths w tfp dp dn (l1 ++ l2) st =
    match run_paths w tfp dp dn l1 st with
    | (Ok _, st1) => run_paths w tfp dp dn l2 st1
    | (Raise e, st1) => (Raise e, st1)
    end.
Proof. unfold run_paths. now rewrite for_each_app. Qed.

Lemma run_paths_stops w tfp dp dn done key path rest st st1 e st2 :
  run_paths w tfp dp dn done st = (Ok tt, st1) ->
  process_path w tfp dp dn key path st1 = (Raise e, st2) ->
  run_paths w tfp dp dn (done ++ (key, path) :: rest) st = (Raise e, st2).
Proof.
  intros Hdone Hfail. rewrite run_paths_app, Hdone.
  unfold run_paths. cbn [for_each fst snd]. unfold bind. now rewrite Hfail.
Qed.

Lemma flatten_nonempty d : flatten d <> [] -> Nat.eqb (List.length d) 0 = false.
Proof. destruct d; [intros H; now elim H | reflexivity]. Qed.

(** What a failed upload leaves: the exception, the ledger as it was, and
    the refused upload as last event. *)
Lemma process_path_raise w tfp dp dn key path st e st' :
  process_path w tfp dp dn key path st = (Raise e, st') ->
  e = UploadError /\ ledger st' = ledger st /\
  exists pre, trace st' = pre ++ [Upload (table_name_of key) dp false].
Proof.
  rewrite process_path_eq. unfold path_outcome.
  destruct (source w path) as [|header [|l data]]; try discriminate.
  destruct (redivis_ok w _); [discriminate|].
  intros H. injection H as <- <-. cbn [ledger trace].
  split; [reflexivity|]. split; [reflexivity|]. eexists. reflexivity.
Qed.

(** C3, as the program has it.  When the upload of a file raises, the
    exception leaves [upload_append_csv_files]: the run ends at that file,
    in the state the failed upload left, with the ledger as it was when the
    file was reached and the refused upload as last event of the trace.
    The files after it are not looked at in that run. *)
Theorem upload_failure_stops_run (w : World) (tfp up dp dn un : string)
  (st0 st st1 st2 : State) (d : dict) (done rest : list (string * string))
  (key path : string)
  (Hdict : get_paths_dict w tfp up dn st0 = (Ok d, st))
  (Horder : flatten d = done ++ (key, path) :: rest)
  (Hdone : run_paths w tfp dp dn done st = (Ok tt, st1))
  (Hfail : process_path w tfp dp dn key path st1 = (Raise UploadError, st2)) :
  upload_append_csv_files w tfp up dp dn un st0 = (Raise UploadError, st2) /\
  ledger st2 = ledger st1 /\
  exists pre, trace st2 = pre ++ [Upload (table_name_of key) dp false].
Proof.
  split.
  - rewrite upload_append_csv_files_eq, Hdict.
    rewrite flatten_nonempty by (rewrite Horder; now destruct done).
    rewrite Horder. now apply run_paths_stops with (st1 := st1).
  - now apply process_path_raise in Hfail as [_ H].
Qed.

Lemma upload_failure_stops_run_witness :
  script outage_world fresh
  = (Raise UploadError,
     snd (process_path outage_world text_file_path dataset_path "SEC_XBRL"
            "tag.tsv" march_path (mkState (Some EmptyString) []))) /\
  reads (trace (snd (script outage_world fresh))) = [march_path].
Proof.
  split; [|vm_compute; reflexivity].
  apply (@upload_failure_stops_run outage_world text_file_path unzip_path
           dataset_path "SEC_XBRL" "neset06" fresh
           (mkState (Some EmptyString) []) (mkState (Some EmptyString) [])
           (snd (process_path outage_world text_file_path dataset_path
                   "SEC_XBRL" "tag.tsv" march_path
                   (mkState (Some EmptyString) [])))
           [("tag.tsv", [march_path; scenario_path])] []
           [("tag.tsv", scenario_path)] "tag.tsv" march_path).
  - vm_compute. reflexivity.
  - vm_compute. reflexivity.
  - vm_compute. reflexivity.
  - vm_compute. reflexivity.
Defined.

(** C3 as the specification states it fails: with two releases and Redivis
    refusing the first upload, the second release is never attempted. *)
Lemma later_files_not_attempted : ~ continues_after_failure outage_world fresh.
Proof.
  intros H.
  specialize (H [("tag.tsv", [march_path; scenario_path])]
                (mkState (Some EmptyString) []) eq_refl
                ("tag.tsv", scenario_path)).
  assert (Hin : In ("tag.tsv", scenario_path)
                  (flatten [("tag.tsv", [march_path; scenario_path])])).
  { right. left. reflexivity. }
  apply H in Hin. vm_compute in Hin.
  destruct Hin as [Hin | []]. discriminate Hin.
Qed.

(** ** C5: the ledger read back *)

Lemma append_assoc (a b c : string) :
  ((a ++ b) ++ c)%string = (a ++ (b ++ c))%string.
Proof. induction a as [|x a IH]; cbn; [reflexivity | now rewrite IH]. Qed.

Lemma append_nil_r (a : string) : (a ++ EmptyString)%string = a.
Proof. induction a as [|x a IH]; cbn; [reflexivity | now rewrite IH]. Qed.

Lemma endswith_split : forall s suffix,
  Py.endswith s suffix = true -> exists a, s = (a ++ suffix)%string.
Proof.
  induction s as [|c s IH]; intros suffix H; cbn [Py.endswith] in H;
    apply orb_true_iff in H as [H | H].
  - apply String.eqb_eq in H. now exists EmptyString.
  - discriminate.
  - apply String.eqb_eq in H. now exists EmptyString.
  - apply IH in H as [a ->]. now exists (String c a).
Qed.

Lemma readlines_nonempty c s : Py.readlines (String c s) <> [].
Proof.
  cbn [Py.readlines]. destruct (Ascii.eqb c Py.LF); [discriminate|].
  destruct (Py.readlines s); discriminate.
Qed.

Lemma readlines_app_terminated : forall a b,
  Py.readlines ((a ++ newline) ++ b)
  = Py.readlines (a ++ newline) ++ Py.readlines b.
Proof.
  induction a as [|c a IH]; intros b; [reflexivity|].
  change (Py.readlines (String c ((a ++ newline) ++ b))
          = Py.readlines (String c (a ++ newline)) ++ Py.readlines b).
  cbn [Py.readlines]. rewrite IH.
  destruct (Ascii.eqb c Py.LF); [reflexivity|].
  destruct (Py.readlines (a ++ newline)) as [|l ls] eqn:E; [|reflexivity].
  exfalso. destruct a; cbn in E; try discriminate.
  revert E. apply readlines_nonempty.
Qed.

Lemma readlines_line : forall p,
  no_line_feed p = true -> Py.readlines (p ++ newline) = [(p ++ newline)%string].
Proof.
  induction p as [|c p IH]; intros H; [reflexivity|].
  cbn [no_line_feed] in H. apply andb_true_iff in H as [Hc Hp].
  apply negb_true_iff in Hc.
  change (Py.readlines (String c (p ++ newline))
          = [String c (p ++ newline)]).
  cbn [Py.readlines]. rewrite Hc, (IH Hp). reflexivity.
Qed.

Lemma readlines_lines_of : forall paths,
  Forall (fun p => no_line_feed p = true) paths ->
  Py.readlines (lines_of paths) = map (fun p => (p ++ newline)%string) paths.
Proof.
  induction paths as [|p paths IH]; intros HF; [reflexivity|].
  inversion HF as [|? ? Hp HF']; subst. cbn [lines_of fold_right map].
  change (fold_right (fun p acc => (p ++ newline ++ acc)%string) EmptyString paths)
    with (lines_of paths).
  rewrite <- append_assoc, readlines_app_terminated, readlines_line by exact Hp.
  now rewrite IH.
Qed.

Lemma readlines_ledger content s :
  ledger_ok content = true ->
  Py.readlines (content ++ s) = Py.readlines content ++ Py.readlines s.
Proof.
  unfold ledger_ok. intros H. apply orb_true_iff in H as [H | H].
  - apply String.eqb_eq in H. now subst content.
  - apply endswith_split in H as [a ->]. apply readlines_app_terminated.
Qed.

Lemma decode_lines_app : forall l1 l2,
  decode_lines (l1 ++ l2) =
    match decode_lines l1, decode_lines l2 with
    | Some a, Some b => Some (a ++ b)
    | _, _ => None
    end.
Proof.
  induction l1 as [|x l1 IH]; intros l2; cbn [app decode_lines].
  - now destruct (decode_lines l2).
  - rewrite IH. destruct (Py.decode_ascii (Py.strip x)); [|reflexivity].
    destruct (decode_lines l1); [|reflexivity].
    now destruct (decode_lines l2).
Qed.

Lemma decode_ascii_same : forall s r, Py.decode_ascii s = Some r -> r = s.
Proof.
  induction s as [|c s IH]; intros r H; cbn [Py.decode_ascii] in H.
  - now injection H as <-.
  - destruct (Nat.ltb (nat_of_ascii c) 128); [|discriminate].
    destruct (Py.decode_ascii s) as [r'|]; [|discriminate].
    injection H as <-. now rewrite (IH r' eq_refl).
Qed.

Lemma rstrip_app : forall a b,
  Py.rstrip b <> EmptyString -> Py.rstrip (a ++ b) = (a ++ Py.rstrip b)%string.
Proof.
  induction a as [|c a IH]; intros b Hb; [reflexivity|].
  change (Py.rstrip (String c (a ++ b)) = String c (a ++ Py.rstrip b)).
  cbn [Py.rstrip]. rewrite (IH b Hb).
  destruct (a ++ Py.rstrip b)%string eqn:E.
  - destruct a; [cbn in E; contradiction | discriminate].
  - cbn [String.eqb]. now rewrite andb_false_r.
Qed.

(** A path that starts with a dot and ends in [.tsv] comes back from its
    ledger line as it was written. *)
Lemma strip_ledger_line q :
  Py.strip (String "."%char (q ++ ".tsv") ++ newline) = String "."%char (q ++ ".tsv").
Proof.
  unfold Py.strip.
  change (Py.lstrip (String "."%char (q ++ ".tsv") ++ newline))
    with (String "."%char ((q ++ ".tsv") ++ newline)).
  change (String "."%char ((q ++ ".tsv") ++ newline))
    with (String "."%char EmptyString ++ ((q ++ ".tsv") ++ newline))%string.
  rewrite append_assoc, <- (append_assoc _ q).
  rewrite rstrip_app by (cbn; discriminate).
  rewrite append_assoc. reflexivity.
Qed.

Lemma In_tsv_paths w top p :
  In p (tsv_paths w top) <->
  exists rel files file,
    In (rel, files) (tree w) /\ In file files /\
    Py.endswith file ".tsv" && negb (Py.contains "checkpoint" file) = true /\
    p = ((top ++ rel) ++ slash ++ file)%string.
Proof.
  unfold tsv_paths, walk. rewrite in_flat_map. split.
  - intros [dir [Hdir Hp]]. apply in_map_iff in Hdir as [[rel files] [<- Hin]].
    cbn [fst snd] in Hp. apply in_flat_map in Hp as [file [Hfile Hp]].
    destruct (Py.endswith file ".tsv" && negb (Py.contains "checkpoint" file))
      eqn:E; [|contradiction].
    destruct Hp as [<- | []]. now exists rel, files, file.
  - intros [rel [files [file [Hin [Hfile [E ->]]]]]].
    exists ((top ++ rel)%string, files). split.
    + apply in_map_iff. now exists (rel, files).
    + cbn [fst snd]. apply in_flat_map. exists file. split; [exact Hfile|].
      rewrite E. now left.
Qed.

Lemma tsv_path_shape w p :
  In p (tsv_paths w unzip_path) -> exists q, p = String "."%char (q ++ ".tsv").
Proof.
  intros H. apply In_tsv_paths in H as [rel [files [file [_ [_ [E ->]]]]]].
  apply andb_true_iff in E as [E _]. apply endswith_split in E as [a ->].
  exists (("/unzip_files" ++ rel) ++ slash ++ a)%string.
  unfold unzip_path.
  change ("./unzip_files" ++ rel)%string
    with (String "."%char ("/unzip_files" ++ rel)).
  cbn [append]. f_equal. now rewrite !append_assoc.
Qed.

Lemma decode_ledger_lines w : forall paths recorded,
  Forall (fun p => In p (tsv_paths w unzip_path)) paths ->
  decode_lines (map (fun p => (p ++ newline)%string) paths) = Some recorded ->
  recorded = paths.
Proof.
  induction paths as [|p paths IH]; intros recorded HF H.
  - now injection H as <-.
  - inversion HF as [|? ? Hp HF']; subst. cbn [map decode_lines] in H.
    destruct (tsv_path_shape w p Hp) as [q ->].
    rewrite strip_ledger_line in H.
    destruct (Py.decode_ascii _) as [x|] eqn:Ex; [|discriminate].
    destruct (decode_lines _) as [xs|] eqn:Exs; [|discriminate].
    injection H as <-. apply decode_ascii_same in Ex. subst x.
    now rewrite (IH xs HF' eq_refl).
Qed.

(** The ledger read back after the paths [W] of the tree were recorded. *)
Lemma read_back w content u0 W u2 :
  ledger_ok content = true ->
  Forall (fun p => no_line_feed p = true) (tsv_paths w unzip_path) ->
  Forall (fun p => In p (tsv_paths w unzip_path)) W ->
  decode_lines (Py.readlines content) = Some u0 ->
  decode_lines (Py.readlines (content ++ lines_of W)) = Some u2 ->
  u2 = u0 ++ W.
Proof.
  intros Hok Hnames HW Hu0 Hu2.
  rewrite readlines_ledger, readlines_lines_of, decode_lines_app, Hu0 in Hu2;
    [|apply Forall_forall; intros p Hp; rewrite Forall_forall in Hnames, HW; auto
     |exact Hok].
  destruct (decode_lines (map _ W)) as [r|] eqn:Hr; [|discriminate].
  injection Hu2 as <-. f_equal. exact (decode_ledger_lines w HW Hr).
Qed.

Lemma mem_In x l : Py.mem x l = true <-> In x l.
Proof.
  unfold Py.mem. rewrite existsb_exists. split.
  - intros [y [Hy E]]. apply String.eqb_eq in E. now subst.
  - intros H. exists x. split; [exact H | apply String.eqb_refl].
Qed.

Lemma mem_app x l1 l2 : Py.mem x (l1 ++ l2) = Py.mem x l1 || Py.mem x l2.
Proof. apply existsb_app. Qed.

(** *** What the dictionary holds *)

Lemma In_flatten_app d1 d2 kp :
  In kp (flatten (d1 ++ d2)) <-> In kp (flatten d1) \/ In kp (flatten d2).
Proof. unfold flatten. rewrite flat_map_app. apply in_app_iff. Qed.

Lemma In_flatten_dict_append kp k v : forall d,
  In kp (flatten (dict_append d k v)) <-> In kp (flatten d) \/ kp = (k, v).
Proof.
  induction d as [|[k' vs] d IH].
  - cbn. intuition congruence.
  - cbn [dict_append]. destruct (String.eqb k' k) eqn:E.
    + apply String.eqb_eq in E. subst k'.
      cbn [flatten flat_map fst snd]. rewrite !in_app_iff, map_app, in_app_iff.
      cbn [map In]. intuition congruence.
    + change ((k', vs) :: dict_append d k v)
        with ([(k', vs)] ++ dict_append d k v).
      change ((k', vs) :: d) with ([(k', vs)] ++ d).
      rewrite !In_flatten_app, IH. tauto.
Qed.

Lemma In_insert_sorted x y : forall l,
  In y (Py.insert_sorted x l) <-> y = x \/ In y l.
Proof.
  induction l as [|z l IH]; cbn [Py.insert_sorted].
  - cbn. intuition congruence.
  - destruct (String.leb x z); cbn [In]; [intuition congruence|].
    rewrite IH. intuition congruence.
Qed.

Lemma In_sorted y : forall l, In y (Py.sorted l) <-> In y l.
Proof.
  induction l as [|x l IH]; cbn [Py.sorted]; [tauto|].
  rewrite In_insert_sorted, IH. cbn. intuition congruence.
Qed.

Lemma In_flatten_sorted kp : forall d,
  In kp (flatten (map (fun kv => (fst kv, Py.sorted (snd kv))) d))
  <-> In kp (flatten d).
Proof.
  induction d as [|[k vs] d IH]; [tauto|].
  cbn [map flatten flat_map fst snd]. rewrite !in_app_iff.
  change (flat_map _ (map _ d))
    with (flatten (map (fun kv => (fst kv, Py.sorted (snd kv))) d)).
  change (flat_map (fun kv => map (fun p => (fst kv, p)) (snd kv)) d)
    with (flatten d).
  rewrite IH, !in_map_iff.
  split; (intros [[p [E H]] | H]; [left; exists p; split; [exact E|] | now right]).
  - now apply In_sorted.
  - now apply In_sorted.
Qed.

Lemma In_fold_candidate uploaded dirpath kp : forall files d,
  In kp (flatten (fold_left (candidate uploaded dirpath) files d)) <->
  In kp (flatten d) \/
  exists file,
    In file files /\
    Py.endswith file ".tsv" && negb (Py.contains "checkpoint" file) = true /\
    Py.mem (dirpath ++ slash ++ file) uploaded = false /\
    kp = (file, (dirpath ++ slash ++ file)%string).
Proof.
  induction files as [|file files IH]; intros d; cbn [fold_left].
  - split; [now left | intros [H | [f [[] _]]]; exact H].
  - rewrite IH. unfold candidate.
    destruct (Py.endswith file ".tsv" && negb (Py.contains "checkpoint" file))
      eqn:E1.
    + destruct (Py.mem (dirpath ++ slash ++ file) uploaded) eqn:E2; cbn [negb].
      * split.
        -- intros [H | [f [Hf Hrest]]]; [now left|].
           right. exists f. split; [now right | exact Hrest].
        -- intros [H | [f [[<- | Hf] [Hc [Hm Hkp]]]]]; [now left | congruence |].
           right. now exists f.
      * rewrite In_flatten_dict_append. split.
        -- intros [[H | H] | [f [Hf Hrest]]]; [now left | |].
           ++ right. exists file. split; [now left|]. now split.
           ++ right. exists f. split; [now right | exact Hrest].
        -- intros [H | [f [[<- | Hf] [Hc [Hm Hkp]]]]].
           ++ left. now left.
           ++ left. now right.
           ++ right. now exists f.
    + split.
      * intros [H | [f [Hf Hrest]]]; [now left|].
        right. exists f. split; [now right | exact Hrest].
      * intros [H | [f [[<- | Hf] [Hc [Hm Hkp]]]]]; [now left | congruence |].
        right. now exists f.
Qed.

Lemma In_fold_dirs uploaded kp : forall dirs d,
  In kp (flatten
           (fold_left
              (fun d dir => fold_left (candidate uploaded (fst dir)) (snd dir) d)
              dirs d)) <->
  In kp (flatten d) \/
  exists dir file,
    In dir dirs /\ In file (snd dir) /\
    Py.endswith file ".tsv" && negb (Py.contains "checkpoint" file) = true /\
    Py.mem (fst dir ++ slash ++ file) uploaded = false /\
    kp = (file, (fst dir ++ slash ++ file)%string).
Proof.
  induction dirs as [|dir dirs IH]; intros d; cbn [fold_left].
  - split; [now left | intros [H | [dir [f [[] _]]]]; exact H].
  - rewrite IH, In_fold_candidate. split.
    + intros [[H | [f Hf]] | [dir' [f [Hd Hrest]]]]; [now left | |].
      * right. exists dir, f. split; [now left | exact Hf].
      * right. exists dir', f. split; [now right | exact Hrest].
    + intros [H | [dir' [f [[<- | Hd] Hrest]]]].
      * left. now left.
      * left. right. now exists f.
      * right. now exists dir', f.
Qed.

Lemma unsorted_dict_sound w top uploaded k p :
  In (k, p) (flatten (unsorted_dict w top uploaded)) ->
  In p (tsv_paths w top) /\ Py.mem p uploaded = false.
Proof.
  unfold unsorted_dict. rewrite In_fold_dirs.
  intros [[] | [dir [file [Hd [Hf [Hc [Hm Hkp]]]]]]].
  injection Hkp as -> ->. split; [|exact Hm].
  unfold tsv_paths. apply in_flat_map. exists dir. split; [exact Hd|].
  apply in_flat_map. exists file. split; [exact Hf|]. rewrite Hc. now left.
Qed.

Lemma unsorted_dict_complete w top uploaded p :
  In p (tsv_paths w top) -> Py.mem p uploaded = false ->
  exists k, In (k, p) (flatten (unsorted_dict w top uploaded)).
Proof.
  intros Hp Hm.
  unfold tsv_paths in Hp. apply in_flat_map in Hp as [dir [Hd Hp]].
  apply in_flat_map in Hp as [file [Hf Hp]].
  destruct (Py.endswith file ".tsv" && negb (Py.contains "checkpoint" file))
    eqn:E; [|contradiction].
  destruct Hp as [<- | []].
  exists file. unfold unsorted_dict. rewrite In_fold_dirs. right.
  exists dir, file. repeat split; auto.
Qed.

(** With every source file in the ledger the dictionary is empty. *)
Lemma unsorted_dict_empty w top uploaded :
  (forall p, In p (tsv_paths w top) -> Py.mem p uploaded = true) ->
  unsorted_dict w top uploaded = [].
Proof.
  unfold unsorted_dict, tsv_paths. generalize (walk w top) as dirs.
  induction dirs as [|dir dirs IH]; intros H; [reflexivity|].
  cbn [fold_left].
  assert (E : fold_left (candidate uploaded (fst dir)) (snd dir) [] = []).
  { assert (Hdir : forall file, In file (snd dir) ->
              Py.endswith file ".tsv" && negb (Py.contains "checkpoint" file) = true ->
              Py.mem (fst dir ++ slash ++ file) uploaded = true).
    { intros file Hf Hc. apply H. cbn [flat_map]. apply in_app_iff. left.
      apply in_flat_map. exists file. split; [exact Hf|]. rewrite Hc. now left. }
    revert Hdir. generalize (snd dir) as files.
    induction files as [|file files IHf]; intros Hdir; [reflexivity|].
    cbn [fold_left]. unfold candidate at 2.
    destruct (Py.endswith file ".tsv" && negb (Py.contains "checkpoint" file))
      eqn:Ec.
    - rewrite (Hdir file (or_introl eq_refl) Ec). cbn [negb].
      apply IHf. intros f Hf. apply Hdir. now right.
    - apply IHf. intros f Hf. apply Hdir. now right. }
  rewrite E. apply IH. intros p Hp. apply H. cbn [flat_map].
  apply in_app_iff. now right.
Qed.

(** *** What a run writes to the ledger *)

Lemma lines_of_app a b : lines_of (a ++ b) = (lines_of a ++ lines_of b)%string.
Proof.
  induction a as [|p a IH]; [reflexivity|].
  cbn [app lines_of fold_right].
  change (fold_right (fun p acc => (p ++ newline ++ acc)%string) EmptyString (a ++ b))
    with (lines_of (a ++ b)).
  change (fold_right (fun p acc => (p ++ newline ++ acc)%string) EmptyString a)
    with (lines_of a).
  now rewrite IH, !append_assoc.
Qed.

(** The ledger after one path: the line of the path if processing returned,
    nothing if the upload raised; and the log tells which. *)
Lemma process_path_ledger w tfp dp dn key path st :
  exists new,
    trace (snd (process_path w tfp dp dn key path st)) = trace st ++ new /\
    ledger (snd (process_path w tfp dp dn key path st))
    = match ledger_writes new with
      | [] => ledger st
      | _ => Some (ledger_content st ++ lines_of (ledger_writes new))%string
      end /\
    (fst (process_path w tfp dp dn key path st) = Ok tt
       /\ ledger_writes new = [path]
     \/ fst (process_path w tfp dp dn key path st) = Raise UploadError
       /\ ledger_writes new = []).
Proof.
  rewrite process_path_eq. unfold path_outcome.
  destruct (source w path) as [|header [|l data]].
  - eexists. cbn [fst snd trace ledger]. split; [reflexivity|].
    cbn. rewrite ?append_nil_r. split; [reflexivity | now left].
  - eexists. cbn [fst snd trace ledger]. split; [reflexivity|].
    cbn. rewrite ?append_nil_r. split; [reflexivity | now left].
  - destruct (redivis_ok w _); eexists; cbn [fst snd trace ledger];
      rewrite <- ?app_assoc; (split; [reflexivity|]).
    + read_trace. cbn. rewrite ?append_nil_r.
      split; [reflexivity | now left].
    + read_trace. cbn. split; [reflexivity | now right].
Qed.

Lemma run_paths_ledger w tfp dp dn : forall cands st,
  exists new,
    trace (snd (run_paths w tfp dp dn cands st)) = trace st ++ new /\
    ledger (snd (run_paths w tfp dp dn cands st))
    = match ledger_writes new with
      | [] => ledger st
      | _ => Some (ledger_content st ++ lines_of (ledger_writes new))%string
      end /\
    incl (ledger_writes new) (map snd cands) /\
    (fst (run_paths w tfp dp dn cands st) = Ok tt ->
     ledger_writes new = map snd cands).
Proof.
  induction cands as [|[key path] cands IH]; intros st.
  - exists []. cbn. rewrite app_nil_r. repeat split. apply incl_nil_l.
  - unfold run_paths. cbn [for_each fst snd]. unfold bind.
    destruct (process_path_ledger w tfp dp dn key path st)
      as [new1 [Htr1 [Hled1 Hres1]]].
    destruct (process_path w tfp dp dn key path st) as [[[]|e] st1] eqn:E1;
      cbn [fst snd] in *.
    + destruct Hres1 as [[_ Hw1] | [Hbad _]]; [|discriminate].
      rewrite Hw1 in Hled1.
      destruct (IH st1) as [new2 [Htr2 [Hled2 [Hincl Hall]]]].
      fold (run_paths w tfp dp dn cands st1).
      exists (new1 ++ new2). rewrite Htr2, Htr1, app_assoc.
      split; [reflexivity|]. rewrite ledger_writes_app, Hw1. cbn [app].
      split; [|split].
      * rewrite Hled2. unfold ledger_content at 1. rewrite Hled1.
        destruct (ledger_writes new2) as [|p ps]; [reflexivity|].
        change (lines_of (path :: p :: ps))
          with (lines_of ([path] ++ p :: ps)).
        now rewrite lines_of_app, append_assoc.
      * cbn [map snd]. apply incl_cons; [now left|]. now apply incl_tl.
      * intros Hok. cbn [map snd]. f_equal. now apply Hall.
    + destruct Hres1 as [[Hbad _] | [_ Hw1]]; [discriminate|].
      exists new1. rewrite Hw1 in *. split; [exact Htr1|].
      split; [exact Hled1|]. split; [apply incl_nil_l | discriminate].
Qed.

Lemma get_paths_dict_eq w tfp top dn st :
  get_paths_dict w tfp top dn st =
    match decode_lines (Py.readlines (ledger_content st)) with
    | Some uploaded =>
        (Ok (map (fun kv => (fst kv, Py.sorted (snd kv)))
               (unsorted_dict w top uploaded)),
         mkState (Some (ledger_content st)) (trace st))
    | None =>
        (Raise UnicodeDecodeError,
         mkState (Some (ledger_content st)) (trace st))
    end.
Proof.
  unfold get_paths_dict, get_uploaded_tables, bind.
  now destruct (decode_lines _).
Qed.

Lemma tsv_paths_tree w1 w2 top :
  tree w2 = tree w1 -> tsv_paths w2 top = tsv_paths w1 top.
Proof. unfold tsv_paths, walk. now intros ->. Qed.

Lemma unsorted_dict_tree w1 w2 top uploaded :
  tree w2 = tree w1 -> unsorted_dict w2 top uploaded = unsorted_dict w1 top uploaded.
Proof. unfold unsorted_dict, walk. now intros ->. Qed.

Lemma ledger_writes_flatten_in_tree w top uploaded (W : list string) :
  incl W (map snd
            (flatten (map (fun kv => (fst kv, Py.sorted (snd kv)))
                        (unsorted_dict w top uploaded)))) ->
  Forall (fun p => In p (tsv_paths w top)) W.
Proof.
  intros Hincl. apply Forall_forall. intros p Hp. apply Hincl in Hp.
  apply in_map_iff in Hp as [[k p'] [E Hin]]. cbn [snd] in E. subst p'.
  apply (proj1 (In_flatten_sorted _ _)) in Hin.
  now apply unsorted_dict_sound in Hin.
Qed.

(** The state of a run when its loop over the dictionary starts. *)
Lemma script_eq w st :
  script w st =
    match decode_lines (Py.readlines (ledger_content st)) with
    | Some uploaded =>
        let d := map (fun kv => (fst kv, Py.sorted (snd kv)))
                   (unsorted_dict w unzip_path uploaded) in
        run_paths w text_file_path dataset_path "SEC_XBRL" (flatten d)
          (mkState (Some (ledger_content st))
             (if Nat.eqb (List.length d) 0
              then trace st ++ [Info MUpToDate] else trace st))
    | None =>
        (Raise UnicodeDecodeError,
         mkState (Some (ledger_content st)) (trace st))
    end.
Proof.
  unfold script. rewrite upload_append_csv_files_eq, get_paths_dict_eq.
  destruct (decode_lines _); [|reflexivity].
  cbn [ledger trace]. now destruct (Nat.eqb _ 0).
Qed.

(** C5.  Take a ledger file that is empty, absent or ends in a line feed,
    and a source tree none of whose paths holds a line feed; run the script,
    then run it again on the same tree from the ledger the first run left.
    Whatever became of the first run, no path it recorded is in the
    dictionary of the second.  If the first run returned, the second finds
    nothing to do: either it logs that the data base is up to date and
    returns, or reading the ledger raises on a path that is not ASCII; in
    both cases it reads no source file, writes no table, uploads nothing
    and leaves the ledger as it was. *)
Theorem idempotence (w1 w2 : World) (ledger0 : option string)
  (Hledger : ledger_ok (ledger_content (mkState ledger0 [])) = true)
  (Hnames : Forall (fun p => no_line_feed p = true) (tsv_paths w1 unzip_path))
  (Htree : tree w2 = tree w1) :
  let run1 := script w1 (mkState ledger0 []) in
  let st1 := mkState (ledger (snd run1)) [] in
  let run2 := script w2 st1 in
  (forall d st,
     get_paths_dict w2 text_file_path unzip_path "SEC_XBRL" st1 = (Ok d, st) ->
     forall k p, In p (ledger_writes (trace (snd run1))) ->
                 ~ In (k, p) (flatten d)) /\
  (fst run1 = Ok tt ->
   ledger (snd run2) = ledger (snd run1) /\
   (run2 = (Ok tt, mkState (ledger (snd run1)) [Info MUpToDate])
    \/ run2 = (Raise UnicodeDecodeError, mkState (ledger (snd run1)) []))).
Proof.
  intros run1 st1 run2. subst run2 st1 run1.
  set (st0 := mkState ledger0 []) in *.
  set (L0 := ledger_content st0) in *.
  rewrite (script_eq w1 st0). fold L0.
  destruct (decode_lines (Py.readlines L0)) as [u0|] eqn:Hu0.
  2:{ cbn [fst snd ledger trace]. split; [|discriminate].
      intros d st _ k p []. }
  cbv zeta.
  set (d1 := map (fun kv => (fst kv, Py.sorted (snd kv)))
               (unsorted_dict w1 unzip_path u0)) in *.
  set (start := mkState (Some L0)
                  (if Nat.eqb (List.length d1) 0
                   then trace st0 ++ [Info MUpToDate] else trace st0)).
  destruct (run_paths_ledger w1 text_file_path dataset_path "SEC_XBRL"
              (flatten d1) start) as [new [Htr [Hled [Hincl Hall]]]].
  set (run1 := run_paths w1 text_file_path dataset_path "SEC_XBRL"
                 (flatten d1) start) in *.
  set (W := ledger_writes new) in *.
  assert (HW1 : ledger_writes (trace (snd run1)) = W).
  { rewrite Htr, ledger_writes_app. subst start. cbn [trace st0].
    now destruct (Nat.eqb _ 0). }
  assert (HWtree : Forall (fun p => In p (tsv_paths w1 unzip_path)) W).
  { now apply (ledger_writes_flatten_in_tree w1 unzip_path u0). }
  assert (HL1 : ledger_content (mkState (ledger (snd run1)) [])
                = (L0 ++ lines_of W)%string).
  { unfold ledger_content. cbn [ledger]. rewrite Hled. subst start.
    cbn [ledger]. destruct W; [cbn; now rewrite append_nil_r | reflexivity]. }
  assert (Hsome : ledger (snd run1) = Some (L0 ++ lines_of W)%string).
  { rewrite Hled. subst start. cbn [ledger].
    destruct W; [cbn; now rewrite append_nil_r | reflexivity]. }
  assert (Hdec : forall u2,
            decode_lines (Py.readlines (L0 ++ lines_of W)) = Some u2 ->
            u2 = u0 ++ W).
  { intros u2 H. eapply (@read_back w1); eassumption. }
  split.
  - intros d st Hd k p Hp Hin. rewrite HW1 in Hp.
    rewrite get_paths_dict_eq, HL1 in Hd.
    destruct (decode_lines (Py.readlines (L0 ++ lines_of W))) as [u2|] eqn:Hu2;
      [|discriminate].
    injection Hd as <- _. specialize (Hdec u2 eq_refl). subst u2.
    apply (proj1 (In_flatten_sorted _ _)) in Hin.
    apply unsorted_dict_sound in Hin as [_ Hm].
    rewrite mem_app in Hm. apply orb_false_iff in Hm as [_ Hm].
    apply mem_In in Hp. congruence.
  - intros Hok. specialize (Hall Hok).
    rewrite (script_eq w2), HL1. cbn [trace].
    destruct (decode_lines (Py.readlines (L0 ++ lines_of W))) as [u2|] eqn:Hu2.
    + specialize (Hdec u2 eq_refl). subst u2.
      rewrite (unsorted_dict_tree w1 w2) by exact Htree.
      rewrite unsorted_dict_empty.
      * cbn. rewrite Hsome. split; [reflexivity | now left].
      * intros p Hp. rewrite mem_app.
        destruct (Py.mem p u0) eqn:Hm; [reflexivity|]. cbn [orb].
        destruct (unsorted_dict_complete w1 unzip_path u0 p Hp Hm) as [k Hk].
        apply mem_In. fold W in Hall. rewrite Hall.
        apply in_map_iff. exists (k, p). split; [reflexivity|].
        now apply (proj2 (In_flatten_sorted _ _)).
    + cbn [snd ledger]. rewrite Hsome. split; [reflexivity | now right].
Qed.

Lemma idempotence_witness :
  let run1 := script scenario_world (mkState None []) in
  let st1 := mkState (ledger (snd run1)) [] in
  let run2 := script scenario_world st1 in
  ledger (snd run2) = ledger (snd run1) /\
  (run2 = (Ok tt, mkState (ledger (snd run1)) [Info MUpToDate])
   \/ run2 = (Raise UnicodeDecodeError, mkState (ledger (snd run1)) [])).
Proof.
  refine (proj2 (@idempotence scenario_world scenario_world None _ _ _) _).
  - reflexivity.
  - vm_compute. repeat constructor.
  - reflexivity.
  - reflexivity.
Defined.

(** C5 as the specification states it fails without these conditions.  A
    release whose directory name holds a line feed is recorded on two lines
    of the ledger, neither of which is its path; a path recorded after a
    last line that was left without its line feed is glued to that line.
    In both cases the first run returns and the second run finds the file
    again, reads it, uploads it and records it. *)
Lemma second_run_ingests_again :
  (fst (script line_feed_world fresh) = Ok tt /\
   ~ ingests_nothing_again line_feed_world None) /\
  (fst (script scenario_world (mkState unterminated_ledger [])) = Ok tt /\
   ~ ingests_nothing_again scenario_world unterminated_ledger) /\
  (let run1 := script line_feed_world fresh in
   let run2 := script line_feed_world (mkState (ledger (snd run1)) []) in
   ledger_writes (trace (snd run1)) = [line_feed_path] /\
   reads (trace (snd run2)) = [line_feed_path] /\
   uploads (trace (snd run2)) = [("tag", true)] /\
   ledger_writes (trace (snd run2)) = [line_feed_path]).
Proof.
  split; [|split].
  - split; [vm_compute; reflexivity|].
    intros [H _]. vm_compute in H. discriminate.
  - split; [vm_compute; reflexivity|].
    intros [H _]. vm_compute in H. discriminate.
  - vm_compute. repeat split; reflexivity.
Qed.

(** ** C4: the ledger and the upload *)

(** One path, start to end: what is read, uploaded and recorded. *)
Lemma process_path_shape w tfp dp dn key path st :
  exists new,
    trace (snd (process_path w tfp dp dn key path st)) = trace st ++ new /\
    reads new = [path] /\
    (fst (process_path w tfp dp dn key path st) = Ok tt
       /\ ledger_writes new = [path]
       /\ Forall (fun u => snd u = true) (uploads new)
     \/ fst (process_path w tfp dp dn key path st) = Raise UploadError
       /\ ledger_writes new = []
       /\ exists pre, new = pre ++ [Upload (table_name_of key) dp false]
                      /\ uploads pre = []).
Proof.
  rewrite process_path_eq. unfold path_outcome.
  destruct (source w path) as [|header [|l data]].
  - eexists. cbn [fst snd trace]. split; [reflexivity|].
    split; [reflexivity|]. left. repeat split. constructor.
  - eexists. cbn [fst snd trace]. split; [reflexivity|].
    split; [reflexivity|]. left. repeat split. constructor.
  - destruct (redivis_ok w _); eexists; cbn [fst snd trace];
      rewrite <- ?app_assoc; (split; [reflexivity|]).
    + read_trace. split; [reflexivity|]. left. split; [reflexivity|].
      split; [reflexivity|]. cbn. now repeat constructor.
    + read_trace. split; [reflexivity|]. right. split; [reflexivity|].
      split; [reflexivity|]. eexists. split; [reflexivity|].
      apply uploads_events_to_csv.
Qed.

Lemma run_paths_shape w tfp dp dn : forall cands st,
  exists new,
    trace (snd (run_paths w tfp dp dn cands st)) = trace st ++ new /\
    incl (reads new) (map snd cands) /\
    (fst (run_paths w tfp dp dn cands st) = Ok tt
       /\ Forall (fun u => snd u = true) (uploads new)
     \/ fst (run_paths w tfp dp dn cands st) = Raise UploadError
       /\ exists pre earlier p t,
            new = pre ++ [Upload t dp false] /\
            Forall (fun u => snd u = true) (uploads pre) /\
            reads new = earlier ++ [p] /\
            ledger_writes new = earlier).
Proof.
  induction cands as [|[key path] cands IH]; intros st.
  - exists []. cbn. rewrite app_nil_r. split; [reflexivity|].
    split; [apply incl_nil_l|]. left. split; [reflexivity | constructor].
  - unfold run_paths. cbn [for_each fst snd]. unfold bind.
    destruct (process_path_shape w tfp dp dn key path st)
      as [new1 [Htr1 [Hrd1 Hres1]]].
    destruct (process_path w tfp dp dn key path st) as [[[]|e] st1] eqn:E1;
      cbn [fst snd] in *.
    + destruct Hres1 as [[_ [Hw1 Hup1]] | [Hbad _]]; [|discriminate].
      fold (run_paths w tfp dp dn cands st1).
      destruct (IH st1) as [new2 [Htr2 [Hincl Hres2]]].
      exists (new1 ++ new2). rewrite Htr2, Htr1, app_assoc.
      split; [reflexivity|]. split.
      { rewrite reads_app, Hrd1. cbn [app map snd].
        apply incl_cons; [now left | now apply incl_tl]. }
      destruct Hres2 as [[Hok Hup2] | [Hraise [pre [earlier [p [t [Hn [Hup [Hrd Hw]]]]]]]]].
      * left. split; [exact Hok|]. rewrite uploads_app.
        apply Forall_app. now split.
      * right. split; [exact Hraise|].
        exists (new1 ++ pre), (path :: earlier), p, t.
        split; [now rewrite Hn, app_assoc|].
        split; [rewrite uploads_app; apply Forall_app; now split|].
        split; [now rewrite reads_app, Hrd1, Hrd|].
        now rewrite ledger_writes_app, Hw1, Hw.
    + destruct Hres1 as [[Hbad _] | [He [Hw1 [pre [Hn Hup]]]]]; [discriminate|].
      injection He as ->.
      exists new1. split; [exact Htr1|]. split.
      { rewrite Hrd1. cbn [map snd]. apply incl_cons; [now left | apply incl_nil_l]. }
      right. split; [reflexivity|].
      exists pre, [], path, (table_name_of key).
      split; [exact Hn|]. split; [rewrite Hup; constructor|].
      split; [exact Hrd1 | exact Hw1].
Qed.

(** A run of the script in which an upload failed. *)
Lemma script_failure_shape w ledger0 t :
  let run := script w (mkState ledger0 []) in
  In (t, false) (uploads (trace (snd run))) ->
  fst run = Raise UploadError /\
  exists u0 pre earlier p,
    decode_lines (Py.readlines (ledger_content (mkState ledger0 []))) = Some u0 /\
    trace (snd run) = pre ++ [Upload t dataset_path false] /\
    reads (trace (snd run)) = earlier ++ [p] /\
    ledger_writes (trace (snd run)) = earlier /\
    ledger (snd run)
    = Some (ledger_content (mkState ledger0 []) ++ lines_of earlier)%string /\
    Forall (fun q => In q (tsv_paths w unzip_path)) (earlier ++ [p]) /\
    Py.mem p u0 = false.
Proof.
  intros run Hfail. subst run.
  set (st0 := mkState ledger0 []) in *.
  rewrite (script_eq w st0) in *.
  destruct (decode_lines (Py.readlines (ledger_content st0))) as [u0|] eqn:Hu0;
    [|destruct Hfail].
  cbv zeta in *.
  set (d := map (fun kv => (fst kv, Py.sorted (snd kv)))
              (unsorted_dict w unzip_path u0)) in *.
  set (start := mkState (Some (ledger_content st0))
                  (if Nat.eqb (List.length d) 0
                   then trace st0 ++ [Info MUpToDate] else trace st0)) in *.
  destruct (run_paths_shape w text_file_path dataset_path "SEC_XBRL"
              (flatten d) start) as [new [Htr [Hincl Hres]]].
  destruct (run_paths_ledger w text_file_path dataset_path "SEC_XBRL"
              (flatten d) start) as [new' [Htr' [Hled _]]].
  assert (new' = new) by (rewrite Htr in Htr'; now apply app_inv_head in Htr').
  subst new'.
  set (run := run_paths w text_file_path dataset_path "SEC_XBRL"
                (flatten d) start) in *.
  assert (Hstart : uploads (trace start) = [] /\ reads (trace start) = []
                   /\ ledger_writes (trace start) = []).
  { subst start. cbn [trace st0]. now destruct (Nat.eqb _ 0). }
  destruct Hstart as [Hs1 [Hs2 Hs3]].
  rewrite Htr, uploads_app, Hs1 in Hfail. cbn [app] in Hfail.
  destruct Hres as [[_ Hup] | [Hraise [pre [earlier [p [t' [Hn [Hup [Hrd Hw]]]]]]]]].
  { rewrite Forall_forall in Hup. apply Hup in Hfail. discriminate. }
  split; [exact Hraise|].
  assert (t' = t).
  { rewrite Hn, uploads_app in Hfail. apply in_app_iff in Hfail as [H | H].
    - rewrite Forall_forall in Hup. apply Hup in H. discriminate.
    - destruct H as [H | []]. now injection H. }
  subst t'.
  assert (Hcand : forall q, In q (earlier ++ [p]) ->
            In q (tsv_paths w unzip_path) /\ Py.mem q u0 = false).
  { intros q Hq. rewrite <- Hrd in Hq. apply Hincl in Hq.
    apply in_map_iff in Hq as [[k q'] [E Hin]]. cbn [snd] in E. subst q'.
    apply (proj1 (In_flatten_sorted _ _)) in Hin.
    now apply unsorted_dict_sound in Hin. }
  exists u0, (trace start ++ pre), earlier, p.
  rewrite Htr, reads_app, ledger_writes_app, Hs2, Hs3, Hrd, Hw.
  cbn [app].
  split; [reflexivity|].
  split; [now rewrite Hn, app_assoc|]. split; [reflexivity|].
  split; [reflexivity|]. split; [|split].
  - rewrite Hled, Hw. subst start. cbn [ledger ledger_content].
    destruct earlier; [cbn; now rewrite append_nil_r | reflexivity].
  - apply Forall_forall. intros q Hq. now apply Hcand.
  - apply Hcand. apply in_app_iff. right. now left.
Qed.

(** C4.  First, one file: if its upload raises, the exception is the
    upload's, the ledger is left as it was and no ledger write is logged;
    if processing returns, the ledger has gained the line of the path, and
    unless the file had fewer than two lines the one upload of the file,
    finished, comes before the ledger write.  Then, the whole run: if an
    upload failed, it is the last event of the run; the file read last is
    the one whose upload failed, and the ledger has gained the paths of the
    files read before it, in order, and nothing else -- so not the path of
    the failed file, as long as the run read no path twice.  That file is
    then a candidate of the next run: with a ledger file that was empty,
    absent or ended in a line feed and a tree without line feeds in its
    paths, a run on the same tree from the ledger this run left has the
    file in its dictionary, if reading the ledger gives it one. *)
Theorem failed_upload_not_recorded (w : World) :
  (forall tfp dp dn key path st,
     let run := process_path w tfp dp dn key path st in
     exists new,
       trace (snd run) = trace st ++ new /\
       match fst run with
       | Raise e =>
           e = UploadError /\ ledger (snd run) = ledger st /\
           ledger_writes new = [] /\
           uploads new = [(table_name_of key, false)]
       | Ok _ =>
           ledger (snd run) = Some (ledger_content st ++ path ++ newline)%string /\
           ledger_writes new = [path] /\
           (List.length (source w path) < 2 /\ uploads new = []
            \/ exists before after,
                 new = before ++ Upload (table_name_of key) dp true :: after /\
                 ledger_writes before = [] /\
                 uploads before = [] /\ uploads after = [])
       end) /\
  (forall ledger0 t,
     let run := script w (mkState ledger0 []) in
     In (t, false) (uploads (trace (snd run))) ->
     fst run = Raise UploadError /\
     exists pre earlier p,
       trace (snd run) = pre ++ [Upload t dataset_path false] /\
       reads (trace (snd run)) = earlier ++ [p] /\
       ledger_writes (trace (snd run)) = earlier /\
       ledger (snd run)
       = Some (ledger_content (mkState ledger0 []) ++ lines_of earlier)%string /\
       (NoDup (reads (trace (snd run))) ->
        ~ In p (ledger_writes (trace (snd run))) /\
        forall w2 d st,
          ledger_ok (ledger_content (mkState ledger0 [])) = true ->
          Forall (fun q => no_line_feed q = true) (tsv_paths w unzip_path) ->
          tree w2 = tree w ->
          get_paths_dict w2 text_file_path unzip_path "SEC_XBRL"
            (mkState (ledger (snd run)) []) = (Ok d, st) ->
          exists k, In (k, p) (flatten d))).
Proof.
  split.
  - intros tfp dp dn key path st run. subst run.
    rewrite process_path_eq. unfold path_outcome.
    destruct (source w path) as [|header [|l data]].
    + eexists. cbn [fst snd trace ledger]. split; [reflexivity|].
      split; [reflexivity|]. split; [reflexivity|]. left. cbn.
      split; [lia | reflexivity].
    + eexists. cbn [fst snd trace ledger]. split; [reflexivity|].
      split; [reflexivity|]. split; [reflexivity|]. left. cbn.
      split; [lia | reflexivity].
    + destruct (redivis_ok w _); eexists; cbn [fst snd trace ledger];
        rewrite <- ?app_assoc; (split; [reflexivity|]).
      * split; [reflexivity|].
        rewrite !ledger_writes_app, ledger_writes_events_to_csv,
          ledger_writes_alert_events.
        split; [reflexivity|]. right.
        exists (events_to_csv dp key path header (l :: data)). eexists.
        split; [reflexivity|].
        rewrite ledger_writes_events_to_csv, uploads_events_to_csv.
        split; [reflexivity|]. split; [reflexivity|].
        cbn [uploads flat_map app]. apply uploads_alert_events.
      * split; [reflexivity|]. split; [reflexivity|].
        rewrite !ledger_writes_app, ledger_writes_events_to_csv,
          !uploads_app, uploads_events_to_csv.
        split; reflexivity.
  - intros ledger0 t run Hfail.
    destruct (script_failure_shape w ledger0 t Hfail)
      as [Hraise [u0 [pre [earlier [p [Hu0 [Htr [Hrd [Hw [Hled [Htree Hm]]]]]]]]]]].
    fold run in Hraise, Htr, Hrd, Hw, Hled.
    split; [exact Hraise|]. exists pre, earlier, p.
    split; [exact Htr|]. split; [exact Hrd|]. split; [exact Hw|].
    split; [exact Hled|].
    intros Hnd. rewrite Hrd in Hnd. apply NoDup_remove_2 in Hnd.
    rewrite app_nil_r in Hnd. rewrite Hw. split; [exact Hnd|].
    intros w2 d st Hok Hnames Hsame Hd.
    rewrite get_paths_dict_eq in Hd.
    unfold ledger_content at 1 in Hd. cbn [ledger] in Hd. rewrite Hled in Hd.
    destruct (decode_lines
                (Py.readlines
                   (ledger_content (mkState ledger0 []) ++ lines_of earlier)))
      as [u2|] eqn:Hu2; [|discriminate].
    injection Hd as <- _.
    apply Forall_app in Htree as [Hearlier Hp].
    assert (u2 = u0 ++ earlier)
      by (eapply (@read_back w); eassumption).
    subst u2. pose proof (Forall_inv Hp) as Hp'. cbv beta in Hp'.
    rewrite <- (tsv_paths_tree w w2 unzip_path Hsame) in Hp'.
    destruct (unsorted_dict_complete w2 unzip_path (u0 ++ earlier) p Hp')
      as [k Hk].
    + rewrite mem_app, Hm. cbn [orb].
      destruct (Py.mem p earlier) eqn:E; [|reflexivity].
      apply mem_In in E. contradiction.
    + exists k. now apply (proj2 (In_flatten_sorted _ _)).
Qed.

Lemma failed_upload_not_recorded_witness :
  fst (script outage_world (mkState None [])) = Raise UploadError /\
  exists pre earlier p,
    trace (snd (script outage_world (mkState None [])))
    = pre ++ [Upload "tag" dataset_path false] /\
    reads (trace (snd (script outage_world (mkState None [])))) = earlier ++ [p] /\
    ledger_writes (trace (snd (script outage_world (mkState None [])))) = earlier /\
    ledger (snd (script outage_world (mkState None [])))
    = Some (ledger_content (mkState None []) ++ lines_of earlier)%string /\
    (NoDup (reads (trace (snd (script outage_world (mkState None []))))) ->
     ~ In p (ledger_writes (trace (snd (script outage_world (mkState None [])))))
     /\
     forall w2 d st,
       ledger_ok (ledger_content (mkState None [])) = true ->
       Forall (fun q => no_line_feed q = true) (tsv_paths outage_world unzip_path) ->
       tree w2 = tree outage_world ->
       get_paths_dict w2 text_file_path unzip_path "SEC_XBRL"
         (mkState (ledger (snd (script outage_world (mkState None [])))) [])
       = (Ok d, st) ->
       exists k, In (k, p) (flatten d)).
Proof.
  apply (proj2 (failed_upload_not_recorded outage_world) None "tag").
  vm_compute. left. reflexivity.
Defined.

(** * Further properties of the program *)

(** ** The ledger file written and read back *)

Lemma rstrip_newline : forall t, Py.rstrip (t ++ newline) = Py.rstrip t.
Proof.
  induction t as [|c t IH]; [reflexivity|].
  change (Py.rstrip (String c (t ++ newline)) = Py.rstrip (String c t)).
  cbn [Py.rstrip]. now rewrite IH.
Qed.

Lemma strip_newline : forall s, Py.strip (s ++ newline) = Py.strip s.
Proof.
  unfold Py.strip. induction s as [|c s IH]; [reflexivity|].
  change (Py.rstrip (Py.lstrip (String c (s ++ newline)))
          = Py.rstrip (Py.lstrip (String c s))).
  cbn [Py.lstrip]. destruct (Py.is_space c); [exact IH|].
  apply (rstrip_newline (String c s)).
Qed.

Lemma is_space_ascii c : Py.is_space c = true -> Nat.ltb (nat_of_ascii c) 128 = true.
Proof.
  unfold Py.is_space. intros H. apply Nat.ltb_lt.
  apply orb_true_iff in H as [H | H].
  - apply Nat.eqb_eq in H. lia.
  - apply andb_true_iff in H as [_ H]. apply Nat.leb_le in H. lia.
Qed.

Lemma ascii_only_lstrip : forall s, ascii_only (Py.lstrip s) = ascii_only s.
Proof.
  induction s as [|c s IH]; [reflexivity|]. cbn [Py.lstrip].
  destruct (Py.is_space c) eqn:E; [|reflexivity].
  cbn [ascii_only]. now rewrite (is_space_ascii c E), IH.
Qed.

Lemma ascii_only_rstrip : forall s, ascii_only (Py.rstrip s) = ascii_only s.
Proof.
  induction s as [|c s IH]; [reflexivity|]. cbn [Py.rstrip].
  destruct (Py.is_space c && String.eqb (Py.rstrip s) EmptyString) eqn:E.
  - apply andb_true_iff in E as [Ec Er]. apply String.eqb_eq in Er.
    rewrite Er in IH. cbn [ascii_only] in *.
    now rewrite (is_space_ascii c Ec), <- IH.
  - cbn [ascii_only]. now rewrite IH.
Qed.

Lemma ascii_only_strip s : ascii_only (Py.strip s) = ascii_only s.
Proof. unfold Py.strip. now rewrite ascii_only_rstrip, ascii_only_lstrip. Qed.

Lemma decode_ascii_spec : forall s,
  Py.decode_ascii s = if ascii_only s then Some s else None.
Proof.
  induction s as [|c s IH]; [reflexivity|]. cbn [Py.decode_ascii ascii_only].
  destruct (Nat.ltb (nat_of_ascii c) 128); [|reflexivity].
  rewrite IH. now destruct (ascii_only s).
Qed.

Lemma ascii_only_readlines : forall s,
  forallb ascii_only (Py.readlines s) = ascii_only s.
Proof.
  induction s as [|c s IH]; [reflexivity|]. cbn [Py.readlines ascii_only].
  destruct (Ascii.eqb c Py.LF).
  - cbn [forallb ascii_only]. rewrite IH.
    now destruct (Nat.ltb (nat_of_ascii c) 128).
  - destruct (Py.readlines s) as [|l ls]; cbn [forallb ascii_only] in *;
      rewrite <- IH; destruct (Nat.ltb (nat_of_ascii c) 128); cbn [andb];
      rewrite ?andb_true_r; reflexivity.
Qed.

Lemma decode_lines_spec : forall lines,
  decode_lines lines =
    if forallb ascii_only lines then Some (map Py.strip lines) else None.
Proof.
  induction lines as [|l lines IH]; [reflexivity|].
  cbn [decode_lines forallb map].
  rewrite decode_ascii_spec, ascii_only_strip, IH.
  destruct (ascii_only l); [|reflexivity].
  now destruct (forallb ascii_only lines).
Qed.

(** X1.  Reading the ledger raises exactly when the file holds a byte that
    is not ASCII, and then it raises [UnicodeDecodeError]; otherwise it
    returns the lines of the file, each without the white space around it.
    Either way the file exists afterwards, with the content it had (empty
    if it was missing), and nothing is logged. *)
Theorem ledger_read (tfp : string) (st : State) :
  get_uploaded_tables tfp st =
    (if ascii_only (ledger_content st)
     then Ok (map Py.strip (Py.readlines (ledger_content st)))
     else Raise UnicodeDecodeError,
     mkState (Some (ledger_content st)) (trace st)).
Proof.
  unfold get_uploaded_tables. rewrite decode_lines_spec, ascii_only_readlines.
  now destruct (ascii_only (ledger_content st)).
Qed.

Lemma ascii_only_app a b : ascii_only (a ++ b) = ascii_only a && ascii_only b.
Proof.
  induction a as [|c a IH]; [reflexivity|]. cbn [append ascii_only].
  now rewrite IH, andb_assoc.
Qed.

(** X2.  Write, then read.  Take a ledger file that is missing, empty or
    ends in a line feed and holds only ASCII, and a path without line feed.
    After [write_uploaded_tables] of the path, if its bytes are all ASCII,
    [get_uploaded_tables] returns the entries it returned before followed by
    the path without the white space around it -- the path itself when it
    neither starts nor ends with white space.  If the path is text with a
    character outside ASCII (well-formed UTF-8, which the write encodes),
    reading the ledger raises [UnicodeDecodeError]. *)
Theorem ledger_round_trip (tfp path : string) (st : State)
  (Hledger : ledger_ok (ledger_content st) = true)
  (Hascii : ascii_only (ledger_content st) = true)
  (Hline : no_line_feed path = true) :
  let st' := snd (write_uploaded_tables tfp path st) in
  (ascii_only path = true ->
   fst (get_uploaded_tables tfp st') =
     Ok (map Py.strip (Py.readlines (ledger_content st)) ++ [Py.strip path])) /\
  (ascii_only path = false -> Py.valid_utf8 path = true ->
   fst (get_uploaded_tables tfp st') = Raise UnicodeDecodeError).
Proof.
  cbv zeta. rewrite ledger_read. cbn [fst].
  change (ledger_content (snd (write_uploaded_tables tfp path st)))
    with (ledger_content st ++ path ++ newline)%string.
  rewrite !ascii_only_app, Hascii. cbn [ascii_only newline andb].
  replace (Nat.ltb (nat_of_ascii Py.LF) 128) with true by reflexivity.
  rewrite andb_true_r. split.
  - intros ->.
    rewrite readlines_ledger by exact Hledger.
    rewrite readlines_line by exact Hline.
    rewrite map_app. cbn [map]. now rewrite (strip_newline path).
  - intros -> _. reflexivity.
Qed.

Lemma ledger_round_trip_witness :
  fst (get_uploaded_tables text_file_path
         (snd (write_uploaded_tables text_file_path scenario_path
                 (mkState (Some (march_path ++ newline)%string) []))))
  = Ok [march_path; scenario_path] /\
  fst (get_uploaded_tables text_file_path
         (snd (write_uploaded_tables text_file_path cafe_path
                 (mkState (Some (march_path ++ newline)%string) []))))
  = Raise UnicodeDecodeError.
Proof.
  split.
  - apply (proj1 (@ledger_round_trip text_file_path scenario_path
                    (mkState (Some (march_path ++ newline)%string) [])
                    eq_refl eq_refl eq_refl)).
    reflexivity.
  - apply (proj2 (@ledger_round_trip text_file_path cafe_path
                    (mkState (Some (march_path ++ newline)%string) [])
                    eq_refl eq_refl eq_refl));
      reflexivity.
Defined.

(** ** The dictionary of candidates *)

Lemma get_paths_dict_ok w tfp top dn st d st' :
  get_paths_dict w tfp top dn st = (Ok d, st') ->
  d = map (fun kv => (fst kv, Py.sorted (snd kv)))
        (unsorted_dict w top (entries (ledger_content st))).
Proof.
  unfold get_paths_dict, bind. rewrite ledger_read.
  destruct (ascii_only (ledger_content st)); [|discriminate].
  unfold ret. now intros [= <- _].
Qed.

(** X3.  What the dictionary holds.  A path is listed under a key exactly
    when the key is the name of a file of the tree that ends in [.tsv] and
    does not contain [checkpoint], the path is the directory of the file, a
    slash and the name, and the path is not an entry of the ledger. *)
Theorem dictionary_contents (w : World) (tfp top dn : string) (st st' : State)
  (d : dict) (Hd : get_paths_dict w tfp top dn st = (Ok d, st')) (k p : string) :
  In (k, p) (flatten d) <->
  exists rel files,
    In (rel, files) (tree w) /\ In k files /\
    Py.endswith k ".tsv" = true /\ Py.contains "checkpoint" k = false /\
    p = ((top ++ rel) ++ slash ++ k)%string /\
    ~ In p (entries (ledger_content st)).
Proof.
  apply get_paths_dict_ok in Hd. subst d.
  rewrite In_flatten_sorted. unfold unsorted_dict. rewrite In_fold_dirs.
  unfold walk. split.
  - intros [[] | [dir [file [Hdir [Hf [Hc [Hm Hkp]]]]]]].
    injection Hkp as -> ->.
    apply in_map_iff in Hdir as [[rel files] [<- Hin]]. cbn [fst snd] in *.
    apply andb_true_iff in Hc as [Hc1 Hc2]. apply negb_true_iff in Hc2.
    exists rel, files. repeat split; auto.
    intros Hin'. apply mem_In in Hin'.
    unfold slash in *. cbn [append] in *. congruence.
  - intros [rel [files [Hin [Hf [Hc1 [Hc2 [-> Hnot]]]]]]]. right.
    exists ((top ++ rel)%string, files), k. cbn [fst snd].
    split; [apply in_map_iff; now exists (rel, files)|].
    split; [exact Hf|]. split; [now rewrite Hc1, Hc2|].
    split; [|reflexivity].
    destruct (Py.mem _ _) eqn:E; [|reflexivity].
    apply mem_In in E. contradiction.
Qed.

Lemma dictionary_contents_witness :
  In ("tag.tsv", scenario_path)
    (flatten [("tag.tsv", [march_path; scenario_path])]) <->
  exists rel files,
    In (rel, files) (tree outage_world) /\ In "tag.tsv" files /\
    Py.endswith "tag.tsv" ".tsv" = true /\
    Py.contains "checkpoint" "tag.tsv" = false /\
    scenario_path = ((unzip_path ++ rel) ++ slash ++ "tag.tsv")%string /\
    ~ In scenario_path (entries (ledger_content fresh)).
Proof.
  apply (@dictionary_contents outage_world text_file_path unzip_path
           "SEC_XBRL" fresh (mkState (Some EmptyString) [])).
  reflexivity.
Defined.

(** *** Keys once each, lists sorted and not empty *)

Lemma In_keys_dict_append k' k v : forall d,
  In k' (map fst (dict_append d k v)) <-> In k' (map fst d) \/ k' = k.
Proof.
  induction d as [|[k0 vs] d IH]; cbn [dict_append map fst In].
  - intuition congruence.
  - destruct (String.eqb k0 k) eqn:E; cbn [map fst In].
    + apply String.eqb_eq in E. subst. intuition congruence.
    + rewrite IH. tauto.
Qed.

Lemma NoDup_keys_dict_append k v : forall d,
  NoDup (map fst d) -> NoDup (map fst (dict_append d k v)).
Proof.
  induction d as [|[k0 vs] d IH]; intros H; cbn [dict_append map fst].
  - constructor; [intros [] | constructor].
  - inversion H as [|? ? Hnot Hnd]; subst.
    destruct (String.eqb k0 k) eqn:E; cbn [map fst].
    + now constructor.
    + constructor; [|now apply IH].
      rewrite In_keys_dict_append. intros [Hin | ->]; [contradiction|].
      now rewrite String.eqb_refl in E.
Qed.

Lemma nonempty_dict_append k v : forall d,
  Forall (fun kv => snd kv <> []) d ->
  Forall (fun kv => snd kv <> []) (dict_append d k v).
Proof.
  induction d as [|[k0 vs] d IH]; intros H; cbn [dict_append].
  - constructor; [discriminate | constructor].
  - inversion H as [|? ? Hne HF]; subst.
    destruct (String.eqb k0 k); constructor; auto.
    cbn [snd]. now destruct vs.
Qed.

Lemma fold_left_keeps {A B} (P : A -> Prop) (f : A -> B -> A) :
  (forall a b, P a -> P (f a b)) ->
  forall l a, P a -> P (fold_left f l a).
Proof.
  intros Hf. induction l as [|b l IH]; intros a Ha; [exact Ha|].
  cbn [fold_left]. apply IH, Hf, Ha.
Qed.

Lemma unsorted_dict_shape w top uploaded :
  NoDup (map fst (unsorted_dict w top uploaded)) /\
  Forall (fun kv => snd kv <> []) (unsorted_dict w top uploaded).
Proof.
  unfold unsorted_dict.
  apply (fold_left_keeps
           (fun d => NoDup (map fst d) /\ Forall (fun kv => snd kv <> []) d)).
  - intros d dir Hd. apply fold_left_keeps; [|exact Hd].
    intros d' file [Hnd Hne]. unfold candidate.
    destruct (Py.endswith file ".tsv" && negb (Py.contains "checkpoint" file));
      [|now split].
    destruct (negb (Py.mem _ uploaded)); [|now split].
    split; [now apply NoDup_keys_dict_append | now apply nonempty_dict_append].
  - split; constructor.
Qed.

Lemma insert_sorted_Sorted x : forall l,
  Sorted str_le l -> Sorted str_le (Py.insert_sorted x l).
Proof.
  induction l as [|y l IH]; intros H; cbn [Py.insert_sorted].
  - repeat constructor.
  - destruct (String.leb x y) eqn:E.
    + constructor; [exact H | now constructor].
    + inversion H as [|? ? Hs Hhd]; subst.
      constructor; [now apply IH|].
      assert (Hyx : str_le y x).
      { destruct (String.leb_total x y) as [Hxy | Hyx]; [congruence | exact Hyx]. }
      destruct l as [|z l]; cbn [Py.insert_sorted].
      * now constructor.
      * destruct (String.leb x z); constructor; [exact Hyx|].
        now inversion Hhd.
Qed.

Lemma sorted_Sorted : forall l, Sorted str_le (Py.sorted l).
Proof.
  induction l as [|x l IH]; cbn [Py.sorted]; [constructor|].
  now apply insert_sorted_Sorted.
Qed.

Lemma length_insert_sorted x : forall l,
  List.length (Py.insert_sorted x l) = S (List.length l).
Proof.
  induction l as [|y l IH]; cbn [Py.insert_sorted]; [reflexivity|].
  destruct (String.leb x y); cbn [List.length]; [reflexivity | now rewrite IH].
Qed.

Lemma length_sorted : forall l, List.length (Py.sorted l) = List.length l.
Proof.
  induction l as [|x l IH]; cbn [Py.sorted]; [reflexivity|].
  now rewrite length_insert_sorted, IH.
Qed.

(** X4.  The shape of the dictionary: no key twice, and under every key a
    list that is not empty and ascends, each path at most its successor in
    the order of strings. *)
Theorem dictionary_shape (w : World) (tfp top dn : string) (st st' : State)
  (d : dict) (Hd : get_paths_dict w tfp top dn st = (Ok d, st')) :
  NoDup (map fst d) /\
  Forall (fun kv => snd kv <> [] /\ Sorted str_le (snd kv)) d.
Proof.
  apply get_paths_dict_ok in Hd. subst d.
  destruct (unsorted_dict_shape w top (entries (ledger_content st)))
    as [Hnd Hne].
  split.
  - now rewrite map_map.
  - apply Forall_forall. intros kv Hin.
    apply in_map_iff in Hin as [[k vs] [<- Hin]]. cbn [fst snd].
    rewrite Forall_forall in Hne. specialize (Hne _ Hin). cbn [snd] in Hne.
    split; [|apply sorted_Sorted].
    intros E. apply (f_equal (@List.length _)) in E.
    rewrite length_sorted in E. now destruct vs.
Qed.

Lemma dictionary_shape_witness :
  NoDup (map fst [("tag.tsv", [march_path; scenario_path])]) /\
  Forall (fun kv => snd kv <> [] /\ Sorted str_le (snd kv))
    [("tag.tsv", [march_path; scenario_path])].
Proof.
  apply (@dictionary_shape outage_world text_file_path unzip_path
           "SEC_XBRL" fresh (mkState (Some EmptyString) [])).
  reflexivity.
Defined.

(** ** What a run can raise, and what a run that returns has done *)

Lemma run_paths_returns w tfp dp dn : forall cands st,
  fst (run_paths w tfp dp dn cands st) = Ok tt ->
  exists new,
    trace (snd (run_paths w tfp dp dn cands st)) = trace st ++ new /\
    reads new = map snd cands /\
    ledger_writes new = map snd cands /\
    Forall (fun u => snd u = true) (uploads new).
Proof.
  induction cands as [|[key path] cands IH]; intros st Hok.
  - exists []. cbn. rewrite app_nil_r. repeat split. constructor.
  - unfold run_paths in *. cbn [for_each fst snd] in *. unfold bind in *.
    destruct (process_path_shape w tfp dp dn key path st)
      as [new1 [Htr1 [Hrd1 Hres1]]].
    destruct (process_path w tfp dp dn key path st) as [[[]|e] st1] eqn:E1;
      cbn [fst snd] in *; [|discriminate].
    destruct Hres1 as [[_ [Hw1 Hup1]] | [Hbad _]]; [|discriminate].
    destruct (IH st1 Hok) as [new2 [Htr2 [Hrd2 [Hw2 Hup2]]]].
    exists (new1 ++ new2). rewrite Htr2, Htr1, app_assoc.
    split; [reflexivity|]. read_trace. rewrite Hrd1, Hrd2, Hw1, Hw2.
    repeat split. apply Forall_app. now split.
Qed.

(** X5.  The row processing runs to its end.  Whatever the lines of the
    file, the loop over them returns: [line_list[0]] is there from the first
    iteration on and [line_list.remove(cleaned)] finds the row that was just
    appended.  It does not touch the ledger; every line ends up either as a
    row of [line_list] or as an index of [idx_list], which the counter
    counts; and after a file that is not empty the header row is still
    there, so that [line_list[0]] and [line_list[1:]] of the data frame are
    defined.  For a file of two lines or more the divisor [len(file)-1] of
    the percentage is not zero, and the division gives a number. *)
Theorem row_operations_never_raise (path : string) (file : list string)
  (st : State) :
  (exists r st',
     row_loop path file st = (Ok r, st') /\
     ledger st' = ledger st /\
     List.length (line_list r) + List.length (idx_list r) = List.length file /\
     invalid_rows_counter r = Z.of_nat (List.length (idx_list r)) /\
     (file <> [] -> exists columns rows, line_list r = columns :: rows)) /\
  (2 <= List.length file ->
   forall invalid,
   exists q,
     skipped_pct invalid (Z.of_nat (List.length file) - 1) st = (Ok q, st)).
Proof.
  split.
  - destruct file as [|header data].
    + eexists _, _. split; [reflexivity|]. cbn. repeat split. now intros [].
    + rewrite row_loop_spec. eexists _, _. split; [reflexivity|].
      cbn [ledger line_list idx_list invalid_rows_counter List.length].
      rewrite length_map. unfold skipped_of.
      rewrite length_skipped_entries, length_retained_rows.
      pose proof (filter_length_le (mismatched (width header)) data).
      repeat split; try lia. intros _. eexists _, _. reflexivity.
  - intros Hlen invalid. unfold skipped_pct.
    replace (Z.of_nat (List.length file) - 1 =? 0)%Z with false
      by (symmetry; apply Z.eqb_neq; lia).
    eexists. reflexivity.
Qed.

Lemma row_operations_never_raise_witness :
  (exists columns rows,
     line_list
       (match fst (row_loop scenario_path scenario fresh) with
        | Ok r => r
        | Raise _ => mkRows [] 0 []
        end) = columns :: rows) /\
  exists q,
    skipped_pct 1 (Z.of_nat (List.length scenario) - 1) fresh = (Ok q, fresh).
Proof.
  destruct (row_operations_never_raise scenario_path scenario fresh)
    as [[r [st' [Hrun [_ [_ [_ Hhead]]]]]] Hpct].
  split.
  - rewrite Hrun. cbn [fst]. apply Hhead. discriminate.
  - apply Hpct. cbn. lia.
Defined.

(** X6.  A run that returns.  When [upload_append_csv_files] returns, it
    has read every path of the dictionary once, in the order of the
    dictionary, and recorded each of them, in the same order; every upload
    it made finished; and the ledger file is what it was, followed by one
    line for each of these paths.  With an empty dictionary it only logs
    that the data base is up to date. *)
Theorem run_returns (w : World) (tfp up dp dn un : string) (st : State)
  (Hok : fst (upload_append_csv_files w tfp up dp dn un st) = Ok tt) :
  let run := upload_append_csv_files w tfp up dp dn un st in
  exists d new,
    fst (get_paths_dict w tfp up dn st) = Ok d /\
    trace (snd run) = trace st ++ new /\
    reads new = map snd (flatten d) /\
    ledger_writes new = map snd (flatten d) /\
    Forall (fun u => snd u = true) (uploads new) /\
    ledger (snd run)
    = Some (ledger_content st ++ lines_of (map snd (flatten d)))%string /\
    (d = [] -> new = [Info MUpToDate]).
Proof.
  cbv zeta. revert Hok.
  rewrite upload_append_csv_files_eq, get_paths_dict_eq.
  destruct (decode_lines _) as [u|]; [|discriminate].
  set (d := map (fun kv => (fst kv, Py.sorted (snd kv))) (unsorted_dict w up u)).
  set (start := if Nat.eqb (List.length d) 0
                then mkState (ledger (mkState (Some (ledger_content st)) (trace st)))
                       (trace (mkState (Some (ledger_content st)) (trace st))
                        ++ [Info MUpToDate])
                else mkState (Some (ledger_content st)) (trace st)).
  intros Hok.
  destruct (run_paths_returns w tfp dp dn (flatten d) start Hok)
    as [new [Htr [Hrd [Hw Hup]]]].
  destruct (run_paths_ledger w tfp dp dn (flatten d) start)
    as [new' [Htr' [Hled _]]].
  assert (new' = new) by (rewrite Htr in Htr'; now apply app_inv_head in Htr').
  subst new'.
  assert (Hstart : ledger start = Some (ledger_content st) /\
                   trace start = trace st
                                 ++ (if Nat.eqb (List.length d) 0
                                     then [Info MUpToDate] else [])).
  { subst start. destruct (Nat.eqb _ 0); cbn [ledger trace];
      rewrite ?app_nil_r; now split. }
  destruct Hstart as [Hs1 Hs2].
  exists d, ((if Nat.eqb (List.length d) 0 then [Info MUpToDate] else []) ++ new).
  split; [reflexivity|].
  split; [now rewrite Htr, Hs2, app_assoc|].
  split; [read_trace; rewrite Hrd; now destruct (Nat.eqb _ 0)|].
  split; [read_trace; rewrite Hw; now destruct (Nat.eqb _ 0)|].
  split; [read_trace; now destruct (Nat.eqb _ 0)|].
  split.
  - rewrite Hled, Hw.
    assert (Hc : ledger_content start = ledger_content st)
      by (unfold ledger_content at 1; now rewrite Hs1).
    rewrite Hc, Hs1.
    destruct (map snd (flatten d)); [cbn; now rewrite append_nil_r | reflexivity].
  - intros Hd. rewrite Hd in Htr |- *.
    unfold run_paths in Htr. cbn [flatten flat_map for_each] in Htr.
    unfold ret in Htr. cbn [snd] in Htr.
    assert (H : trace start ++ new = trace start ++ [])
      by (rewrite app_nil_r; now symmetry).
    apply app_inv_head in H. subst new. reflexivity.
Qed.

Lemma run_returns_witness :
  exists d new,
    fst (get_paths_dict scenario_world text_file_path unzip_path "SEC_XBRL" fresh)
    = Ok d /\
    trace (snd (script scenario_world fresh)) = trace fresh ++ new /\
    reads new = map snd (flatten d) /\
    ledger_writes new = map snd (flatten d) /\
    Forall (fun u => snd u = true) (uploads new) /\
    ledger (snd (script scenario_world fresh))
    = Some (ledger_content fresh ++ lines_of (map snd (flatten d)))%string /\
    (d = [] -> new = [Info MUpToDate]).
Proof.
  apply (@run_returns scenario_world text_file_path unzip_path dataset_path
           "SEC_XBRL" "neset06" fresh).
  reflexivity.
Defined.

(** ** Alerts, ragged files, the percentage, the table name *)

Lemma alerts_app a b : alerts (a ++ b) = alerts a ++ alerts b.
Proof. apply flat_map_app. Qed.

Lemma alerts_skip_events path sk : alerts (skip_events path sk) = [].
Proof. induction sk as [|e sk IH]; [reflexivity | exact IH]. Qed.

Lemma alerts_events_to_csv dp key path header data :
  alerts (events_to_csv dp key path header data) = [].
Proof. unfold events_to_csv. now rewrite !alerts_app, alerts_skip_events. Qed.

(** X7.  When an alert is sent.  Processing a path posts to Slack at most
    once: once, with the text that lists the indices of the skipped rows,
    when the file has data lines, at least one of them was skipped and the
    upload finished; not at all when the file has fewer than two lines, when
    no row was skipped or when the upload raised.  Whether the post reaches
    Slack changes neither the result nor the ledger. *)
Theorem alert_sent_when (w : World) (tfp dp dn key path : string) (st : State) :
  let run := process_path w tfp dp dn key path st in
  (exists new,
     trace (snd run) = trace st ++ new /\
     match source w path, fst run with
     | header :: ((_ :: _) as data), Ok _ =>
         if Nat.ltb 0 (List.length (filter (mismatched (width header)) data))
         then exists posted,
                alerts new
                = [(slack_text path (map render_index (skipped_of header data)),
                    posted)]
         else alerts new = []
     | _, _ => alerts new = []
     end) /\
  (forall w',
     source w' path = source w path ->
     (forall tr, redivis_ok w' tr = redivis_ok w tr) ->
     fst (process_path w' tfp dp dn key path st) = fst run /\
     ledger (snd (process_path w' tfp dp dn key path st)) = ledger (snd run)).
Proof.
  cbv zeta. split.
  - rewrite process_path_eq. unfold path_outcome.
    destruct (source w path) as [|header [|l data]].
    + eexists. cbn [fst snd trace]. split; reflexivity.
    + eexists. cbn [fst snd trace]. split; reflexivity.
    + destruct (redivis_ok w _); eexists; cbn [fst snd trace];
        rewrite <- ?app_assoc; (split; [reflexivity|]).
      * rewrite !alerts_app, alerts_events_to_csv.
        rewrite <- (length_skipped_entries (width header) (l :: data) 1).
        fold (skipped_of header (l :: data)). unfold alert_events.
        destruct (Nat.ltb 0 (List.length (skipped_of header (l :: data))));
          [|reflexivity].
        eexists. reflexivity.
      * rewrite !alerts_app, alerts_events_to_csv. reflexivity.
  - intros w' Hsrc Hup. rewrite !process_path_eq. unfold path_outcome.
    rewrite Hsrc.
    destruct (source w path) as [|header [|l data]]; [now split | now split |].
    rewrite Hup. now destruct (redivis_ok w _).
Qed.

Lemma alert_sent_when_witness :
  fst (process_path slack_down_world text_file_path dataset_path "SEC_XBRL"
         "tag.tsv" scenario_path fresh)
  = fst (process_path scenario_world text_file_path dataset_path "SEC_XBRL"
           "tag.tsv" scenario_path fresh) /\
  ledger (snd (process_path slack_down_world text_file_path dataset_path
                 "SEC_XBRL" "tag.tsv" scenario_path fresh))
  = ledger (snd (process_path scenario_world text_file_path dataset_path
                   "SEC_XBRL" "tag.tsv" scenario_path fresh)).
Proof.
  apply (proj2 (alert_sent_when scenario_world text_file_path dataset_path
                  "SEC_XBRL" "tag.tsv" scenario_path fresh) slack_down_world).
  - reflexivity.
  - intros tr. reflexivity.
Defined.

(** X8.  The logged percentage is a percentage.  For a file with data lines,
    fewer than [2 ** 63] as in any Python list, exactly one percentage is
    logged; computed in floating point as it is, it lies between 0 and 100
    (here 0 and 100000 thousandths), it is 0 when no row was skipped and
    100 when every data row was. *)
Theorem percentage_bounds (w : World) (tfp dp dn key path header : string)
  (data : list string) (st : State)
  (Hsrc : source w path = header :: data) (Hdata : data <> [])
  (Hlen : (Z.of_nat (List.length data) < 2 ^ 63)%Z) :
  exists new q,
    trace (snd (process_path w tfp dp dn key path st)) = trace st ++ new /\
    percentages new = [q] /\
    (0 <= q <= 100000)%Z /\
    (filter (mismatched (width header)) data = [] -> q = 0%Z) /\
    (filter (mismatched (width header)) data = data -> q = 100000%Z).
Proof.
  destruct data as [|l data]; [now elim Hdata|].
  rewrite process_path_eq.
  destruct (path_outcome_trace w dp dn key path st Hsrc)
    as [tail [Htr [_ Hpct]]].
  eexists _, (pct_of header (l :: data)). split; [exact Htr|].
  split; [read_trace; now rewrite Hpct|].
  unfold pct_of, skipped_of. rewrite length_skipped_entries.
  set (k := List.length (filter (mismatched (width header)) (l :: data))).
  assert (Hk : k <= List.length (l :: data)) by apply filter_length_le.
  replace (Z.of_nat (List.length (header :: l :: data)) - 1)%Z
    with (Z.of_nat (List.length (l :: data))) by (cbn [List.length]; lia).
  set (n := List.length (l :: data)) in *.
  assert (Hn : (0 < Z.of_nat n < 2 ^ 63)%Z)
    by (split; [subst n; cbn [List.length]; lia | exact Hlen]).
  assert (Hkn : (0 <= Z.of_nat k <= Z.of_nat n)%Z) by lia.
  split; [now apply float_pct_range|]. split.
  - intros E. subst k. rewrite E. apply float_pct_zero. lia.
  - intros E. subst k. rewrite E in Hkn |- *. fold n in Hkn |- *.
    apply (proj1 (proj2 (float_pct_accuracy Hkn Hn))). lia.
Qed.

Lemma percentage_bounds_witness :
  exists new,
    trace (snd (process_path ragged_world text_file_path dataset_path
                  "SEC_XBRL" "tag.tsv" scenario_path fresh))
    = trace fresh ++ new /\
    percentages new = [100000%Z].
Proof.
  destruct (@percentage_bounds ragged_world text_file_path dataset_path
              "SEC_XBRL" "tag.tsv" scenario_path
              ("a" ++ tab ++ "b" ++ tab ++ "c" ++ nl)%string
              [("x" ++ tab ++ "y" ++ nl)%string] fresh)
    as [new [q [Htr [Hq [_ [_ Hall]]]]]].
  - reflexivity.
  - discriminate.
  - reflexivity.
  - exists new. split; [exact Htr|]. rewrite Hq. f_equal. apply Hall.
    reflexivity.
Defined.

Lemma retained_rows_none W data :
  filter (mismatched W) data = data -> retained_rows W data = [].
Proof.
  unfold retained_rows, mismatched.
  induction data as [|l data IH]; intros H; [reflexivity|].
  cbn [filter map] in *.
  destruct (fits W (cleaned_of l)) eqn:E; cbn [negb] in H.
  - exfalso.
    pose proof (filter_length_le (fun line => negb (fits W (cleaned_of line))) data) as Hle.
    rewrite H in Hle. cbn [List.length] in Hle. lia.
  - injection H as H. now apply IH.
Qed.

(** X9.  A file without one good row.  If every data line of a file is
    mismatched, the file is not treated as empty: a table with the header
    and no row is written and uploaded, and if the upload finishes the path
    is recorded and an alert is posted. *)
Theorem ragged_file_uploaded (w : World) (tfp dp dn key path header : string)
  (data : list string) (st : State)
  (Hsrc : source w path = header :: data) (Hdata : data <> [])
  (Hall : filter (mismatched (width header)) data = data) :
  let run := process_path w tfp dp dn key path st in
  exists new,
    trace (snd run) = trace st ++ new /\
    tables new = [(csv_path_of dp key, cleaned_of header, [])] /\
    (exists finished,
       uploads new = [(table_name_of key, finished)] /\
       if finished then
         fst run = Ok tt /\ ledger_writes new = [path] /\
         List.length (alerts new) = 1
       else fst run = Raise UploadError /\ ledger_writes new = []).
Proof.
  cbv zeta. destruct data as [|l data]; [now elim Hdata|].
  rewrite process_path_eq. unfold path_outcome. rewrite Hsrc.
  assert (Hk : Nat.ltb 0 (List.length (skipped_of header (l :: data))) = true).
  { unfold skipped_of. rewrite length_skipped_entries, Hall. reflexivity. }
  destruct (redivis_ok w _); eexists; cbn [fst snd trace];
    rewrite <- ?app_assoc; (split; [reflexivity|]).
  - split; [read_trace; now rewrite (retained_rows_none _ Hall)|].
    exists true. split; [read_trace; reflexivity|].
    split; [reflexivity|]. split; [read_trace; reflexivity|].
    rewrite !alerts_app, alerts_events_to_csv. unfold alert_events.
    rewrite Hk. reflexivity.
  - split; [read_trace; now rewrite (retained_rows_none _ Hall)|].
    exists false. split; [read_trace; reflexivity|].
    split; [reflexivity|]. read_trace. reflexivity.
Qed.

Lemma ragged_file_uploaded_witness :
  exists new,
    trace (snd (process_path ragged_world text_file_path dataset_path
                  "SEC_XBRL" "tag.tsv" scenario_path fresh))
    = trace fresh ++ new /\
    tables new = [(csv_path_of dataset_path "tag.tsv",
                   cleaned_of ("a" ++ tab ++ "b" ++ tab ++ "c" ++ nl), [])] /\
    (exists finished,
       uploads new = [(table_name_of "tag.tsv", finished)] /\
       if finished then
         fst (process_path ragged_world text_file_path dataset_path
                "SEC_XBRL" "tag.tsv" scenario_path fresh) = Ok tt /\
         ledger_writes new = [scenario_path] /\
         List.length (alerts new) = 1
       else
         fst (process_path ragged_world text_file_path dataset_path
                "SEC_XBRL" "tag.tsv" scenario_path fresh) = Raise UploadError /\
         ledger_writes new = []).
Proof.
  apply (@ragged_file_uploaded ragged_world text_file_path dataset_path
           "SEC_XBRL" "tag.tsv" scenario_path
           ("a" ++ tab ++ "b" ++ tab ++ "c" ++ nl)%string
           [("x" ++ tab ++ "y" ++ nl)%string] fresh).
  - reflexivity.
  - discriminate.
  - reflexivity.
Defined.

Lemma split_hd sep : forall s,
  exists f fs, Py.split sep s = f :: fs /\ occurrences sep f = 0 /\
    (fs = [] /\ s = f \/ exists rest, s = (f ++ String sep rest)%string).
Proof.
  unfold occurrences.
  induction s as [|c s [f [fs [E [Hocc Hs]]]]]; cbn [Py.split].
  - exists EmptyString, []. repeat split. now left.
  - destruct (Ascii.eqb c sep) eqn:Ec.
    + apply Ascii.eqb_eq in Ec. subst c.
      exists EmptyString, (Py.split sep s). repeat split. right. now exists s.
    + rewrite E. exists (String c f), fs. split; [reflexivity|]. split.
      * cbn [list_ascii_of_string filter]. rewrite (Ascii.eqb_sym sep c), Ec.
        exact Hocc.
      * destruct Hs as [[-> ->] | [rest ->]]; [now left|].
        right. now exists rest.
Qed.

Lemma split_hd_app sep t : forall rest,
  occurrences sep t = 0 ->
  hd EmptyString (Py.split sep (t ++ String sep rest)) = t.
Proof.
  unfold occurrences. intros rest.
  induction t as [|c t IH]; intros H.
  - cbn. now rewrite Ascii.eqb_refl.
  - cbn [list_ascii_of_string filter] in H.
    change (hd EmptyString (Py.split sep (String c (t ++ String sep rest)))
            = String c t).
    cbn [Py.split]. rewrite (Ascii.eqb_sym c sep).
    destruct (Ascii.eqb sep c); [discriminate H|].
    specialize (IH H).
    destruct (Py.split sep (t ++ String sep rest)) as [|f fs] eqn:E.
    + destruct (split_hd sep (t ++ String sep rest)) as [f [fs [E' _]]].
      congruence.
    + cbn [hd] in *. now subst f.
Qed.

(** X10.  The table of a file.  The table name is the file name up to its
    first dot: it holds no dot, and the file name is the table name alone or
    the table name, a dot and more.  So every file whose name starts with
    [t] and a dot, [t] without dot, feeds the table [t], whatever follows
    the dot. *)
Theorem table_name_first_dot (key : string) :
  occurrences "."%char (table_name_of key) = 0 /\
  (key = table_name_of key \/
   exists rest, key = (table_name_of key ++ String "."%char rest)%string) /\
  (forall t rest, occurrences "."%char t = 0 ->
                  table_name_of (t ++ String "."%char rest) = t).
Proof.
  unfold table_name_of.
  destruct (split_hd "."%char key) as [f [fs [E [Hocc Hs]]]].
  rewrite E. cbn [hd]. split; [exact Hocc|]. split.
  - destruct Hs as [[_ ->] | [rest ->]]; [now left | right; now exists rest].
  - intros t rest Ht. now apply split_hd_app.
Qed.

Lemma table_name_first_dot_witness :
  table_name_of ("tag" ++ String "."%char "v2.tsv") = "tag".
Proof.
  apply (proj2 (proj2 (table_name_first_dot "tag.tsv")) "tag" "v2.tsv").
  reflexivity.
Defined.

(** ** Downloading the archives *)

Section DownloadFacts.

Import Archive.

Variable D : Disk.
Variable download_path : string.

Lemma download_loop_trace : forall links count st,
  exists new,
    snd (snd (download_loop D download_path links count st)) = snd st ++ new /\
    counts new = [].
Proof.
  induction links as [|link links IH]; intros count st; cbn [download_loop].
  - exists []. now rewrite app_nil_r.
  - destruct (path_exists D (fst st) _); cbn [negb]; [apply IH|].
    destruct (wget_download D link download_path (fst st)) as [fs' [|]].
    + destruct (IH (Some (0 + 1)%Z)
                  (fs', (snd st ++ [LogReady (file_name_of link)])
                        ++ [Wget link download_path true;
                            LogDownloaded (file_name_of link) download_path]))
        as [new [Htr Hc]].
      eexists. rewrite Htr. cbn [snd]. rewrite <- !app_assoc.
      split; [reflexivity|]. unfold counts in *.
      rewrite !flat_map_app, Hc. reflexivity.
    + eexists. cbn [snd]. rewrite <- !app_assoc. split; reflexivity.
Qed.

Lemma download_loop_count : forall links count st c,
  fst (download_loop D download_path links count st) = Done c ->
  match links with
  | [] => c = count
  | _ :: _ => c = Some 0%Z \/ c = Some 1%Z
  end.
Proof.
  induction links as [|link links IH]; intros count st c; cbn [download_loop].
  - now intros [= <-].
  - assert (Hnext : forall count' st',
              (count' = Some 0%Z \/ count' = Some 1%Z) ->
              fst (download_loop D download_path links count' st') = Done c ->
              c = Some 0%Z \/ c = Some 1%Z).
    { intros count' st' Hc H. apply IH in H. destruct links; [now subst | exact H]. }
    destruct (path_exists D (fst st) _); cbn [negb].
    + apply Hnext. now left.
    + destruct (wget_download D link download_path (fst st)) as [fs' [|]];
        [|discriminate].
      apply Hnext. now right.
Qed.

Lemma download_loop_raises : forall links count st e,
  fst (download_loop D download_path links count st) = Raised e ->
  e = WgetError /\ links <> [].
Proof.
  induction links as [|link links IH]; intros count st e; cbn [download_loop].
  - discriminate.
  - intros H. split; [|discriminate]. revert H.
    destruct (path_exists D (fst st) _); cbn [negb].
    + intros H. now apply IH in H.
    + destruct (wget_download D link download_path (fst st)) as [fs' [|]].
      * intros H. now apply IH in H.
      * now intros [= <-].
Qed.

(** X11.  [download_zipfiles] and its count.  With no link at all the
    function raises [UnboundLocalError], the count being read before it was
    ever bound, and it raises that only then.  The line that reports the
    number of downloaded archives is logged at most once, and the number it
    reports is 1, however many archives the run downloaded. *)
Theorem download_count (links : list string) (st : DiskState D) :
  let run := download_zipfiles D download_path links st in
  (fst run = Raised UnboundLocalError <-> links = []) /\
  exists new,
    snd (snd run) = snd st ++ new /\
    (counts new = [] \/ counts new = [1%Z]).
Proof.
  cbv zeta. unfold download_zipfiles.
  pose proof (download_loop_count links None st) as Hc.
  pose proof (download_loop_raises links None st) as Hr.
  destruct (download_loop_trace links None st) as [new [Htr Hcn]].
  destruct (download_loop D download_path links None st) as [[[c|]|e] st'];
    cbn [fst snd] in *.
  - specialize (Hc (Some c) eq_refl).
    destruct links as [|l links]; [discriminate Hc|].
    assert (Hc' : c = 0%Z \/ c = 1%Z) by (destruct Hc as [[= ->] | [= ->]]; auto).
    destruct Hc' as [-> | ->]; cbn [Z.eqb negb fst snd].
    + split; [split; discriminate|]. exists new. split; [exact Htr | now left].
    + split; [split; discriminate|]. exists (new ++ [LogCount 1]).
      rewrite Htr, app_assoc. split; [reflexivity|]. right.
      unfold counts in *. now rewrite flat_map_app, Hcn.
  - specialize (Hc None eq_refl).
    destruct links as [|l links]; [|destruct Hc; discriminate].
    split; [now split|]. exists new. split; [exact Htr | now left].
  - destruct (Hr e eq_refl) as [-> Hne].
    split; [split; [discriminate | intros ->; now elim Hne]|].
    exists new. split; [exact Htr | now left].
Qed.

Lemma download_loop_present : forall links count st,
  (forall link, In link links ->
     path_exists D (fst st) (path_join download_path (file_name_of link)) = true) ->
  download_loop D download_path links count st
  = (Done (match links with [] => count | _ :: _ => Some 0%Z end), st).
Proof.
  induction links as [|link links IH]; intros count st H; [reflexivity|].
  cbn [download_loop]. rewrite (H link (or_introl eq_refl)). cbn [negb].
  rewrite IH by (intros l Hl; apply H; now right).
  now destruct links.
Qed.

Lemma download_loop_saved : keeps D -> forall links all count st c st',
  (forall link, In link links -> In link all) ->
  saves D download_path all ->
  download_loop D download_path links count st = (Done c, st') ->
  (forall p, path_exists D (fst st) p = true -> path_exists D (fst st') p = true) /\
  (forall link, In link links ->
     path_exists D (fst st') (path_join download_path (file_name_of link)) = true).
Proof.
  intros Hkeeps.
  induction links as [|link links IH]; intros all count st c st' Hsub Hsaves;
    cbn [download_loop].
  - intros [= _ <-]. split; [auto | intros l []].
  - destruct (path_exists D (fst st)
                (path_join download_path (file_name_of link))) eqn:E;
      cbn [negb].
    + intros H.
      destruct (@IH all _ _ _ _ (fun l Hl => Hsub l (or_intror Hl)) Hsaves H)
        as [Hmono Hall].
      split; [exact Hmono|]. intros l [<- | Hl]; [now apply Hmono | now apply Hall].
    + pose proof (Hsaves (fst st) link (Hsub link (or_introl eq_refl))) as Hsaved.
      destruct (wget_download D link download_path (fst st)) as [fs' [|]] eqn:Ew;
        [|discriminate].
      intros H.
      destruct (@IH all _ _ _ _ (fun l Hl => Hsub l (or_intror Hl)) Hsaves H)
        as [Hmono Hall]. cbn [fst snd] in *.
      split.
      * intros p Hp. apply Hmono.
        destruct (Hkeeps (fst st) p Hp) as [Hw _].
        specialize (Hw link download_path). now rewrite Ew in Hw.
      * intros l [<- | Hl]; [|now apply Hall].
        apply Hmono. now apply Hsaved.
Qed.

(** X12.  Downloading again.  On a file system where nothing that is there
    goes away and a download saves the archive under the name that follows
    the last slash of its link, a run of [download_zipfiles] that returned
    leaves every archive of the list in place, and a second run on the same
    links downloads nothing, logs nothing and returns. *)
Theorem download_again (links : list string) (st : DiskState D)
  (Hkeeps : keeps D) (Hsaves : saves D download_path links)
  (Hdone : fst (download_zipfiles D download_path links st) = Done tt) :
  let fs' := fst (snd (download_zipfiles D download_path links st)) in
  (forall link, In link links ->
     path_exists D fs' (path_join download_path (file_name_of link)) = true) /\
  forall tr,
    download_zipfiles D download_path links (fs', tr) = (Done tt, (fs', tr)).
Proof.
  cbv zeta. unfold download_zipfiles in *.
  destruct (download_loop D download_path links None st) as [[c|e] st'] eqn:E;
    [|destruct e; discriminate].
  pose proof (download_loop_count links None st) as Hc. rewrite E in Hc.
  specialize (Hc c eq_refl).
  destruct (@download_loop_saved Hkeeps links links None st c st'
              (fun l Hl => Hl) Hsaves E) as [_ Hall].
  destruct links as [|l links]; [subst c; discriminate|].
  destruct Hc as [-> | ->]; cbn [Z.eqb negb fst snd];
    (split; [exact Hall|]); intros tr;
    now rewrite (@download_loop_present (l :: links) None (fst st', tr) Hall).
Qed.

End DownloadFacts.

Lemma list_disk_keeps : Archive.keeps Archive.list_disk.
Proof.
  intros fs p Hp. cbn in fs, Hp.
  repeat split; intros; cbn; unfold Py.mem in *; cbn [existsb];
    rewrite ?Hp, ?orb_true_r; reflexivity.
Qed.

Lemma list_disk_makes : Archive.makes Archive.list_disk.
Proof. intros fs folder _. cbn. now rewrite String.eqb_refl. Qed.

Lemma list_disk_saves dp links : Archive.saves Archive.list_disk dp links.
Proof. intros fs link _ _. cbn. now rewrite String.eqb_refl. Qed.

Lemma download_again_witness :
  Archive.download_zipfiles Archive.list_disk "./zip_files"
    ["https://www.sec.gov/files/2022_03_notes.zip"]
    (["./zip_files/2022_03_notes.zip"], [])
  = (Archive.Done tt, (["./zip_files/2022_03_notes.zip"], [])).
Proof.
  apply (proj2 (@download_again Archive.list_disk "./zip_files"
                  ["https://www.sec.gov/files/2022_03_notes.zip"] ([], [])
                  list_disk_keeps (@list_disk_saves _ _) eq_refl) []).
Defined.

(** ** Unpacking the archives *)

Section UnzipFacts.

Import Archive.

Variable D : Disk.
Hypothesis Hkeeps : keeps D.
Hypothesis Hmakes : makes D.

Lemma extractions_app a b : extractions (a ++ b) = extractions a ++ extractions b.
Proof. apply flat_map_app. Qed.

Lemma made_dirs_app a b : made_dirs (a ++ b) = made_dirs a ++ made_dirs b.
Proof. apply flat_map_app. Qed.

Lemma absent_before (fs fs' : FS D) :
  (forall p, path_exists D fs p = true -> path_exists D fs' p = true) ->
  forall F, path_exists D fs' F = false -> path_exists D fs F = false.
Proof.
  intros Hmono F H. destruct (path_exists D fs F) eqn:E; [|reflexivity].
  apply Hmono in E. congruence.
Qed.

Lemma unpacks_refl st : unpacks_once D st st.
Proof.
  split; [auto|]. exists []. rewrite app_nil_r.
  split; [reflexivity|]. split; [constructor|]. split; intros F [].
Qed.

Lemma unpacks_trans a b c :
  unpacks_once D a b -> unpacks_once D b c -> unpacks_once D a c.
Proof.
  intros [Hm1 [n1 [Ht1 [Hnd1 [Hmade1 Hext1]]]]]
         [Hm2 [n2 [Ht2 [Hnd2 [Hmade2 Hext2]]]]].
  split; [auto|]. exists (n1 ++ n2).
  split; [now rewrite Ht2, Ht1, app_assoc|].
  rewrite extractions_app, made_dirs_app. split; [|split].
  - apply NoDup_app; [exact Hnd1 | exact Hnd2 |].
    intros F H1 H2. apply Hext1 in H1 as [_ H1].
    apply Hext2 in H2 as [H2 _]. apply Hmade2 in H2. congruence.
  - intros F H. apply in_app_iff in H as [H | H]; [now apply Hmade1|].
    apply (absent_before _ _ Hm1). now apply Hmade2.
  - intros F H. rewrite in_app_iff.
    apply in_app_iff in H as [H | H].
    + apply Hext1 in H as [H1 H2]. split; [now left | now apply Hm2].
    + apply Hext2 in H as [H1 H2]. split; [now right | exact H2].
Qed.

Lemma unzip_file_unpacks unzip_path dirpath file st :
  unpacks_once D st (snd (unzip_file D unzip_path dirpath file st)).
Proof.
  unfold unzip_file.
  destruct (Py.endswith file ".zip"); [|apply unpacks_refl].
  set (F := (unzip_path ++ "/" ++ foldername_of file)%string).
  destruct (path_exists D (fst st) F) eqn:E; cbn [negb]; [apply unpacks_refl|].
  pose proof (Hmakes (fst st) F) as Hmade.
  assert (Hk1 : forall p, path_exists D (fst st) p = true ->
                  path_exists D (fst (os_makedirs D F (fst st))) p = true).
  { intros p Hp. destruct (Hkeeps (fst st) p Hp) as [_ [H _]]. apply H. }
  destruct (os_makedirs D F (fst st)) as [fs1 [|]]; cbn [fst snd] in *.
  - assert (Hk2 : forall p, path_exists D fs1 p = true ->
                    path_exists D
                      (fst (extractall D (path_join dirpath file) F fs1)) p = true).
    { intros p Hp. destruct (Hkeeps fs1 p Hp) as [_ [_ H]]. apply H. }
    specialize (Hmade eq_refl).
    destruct (extractall D (path_join dirpath file) F fs1) as [fs2 [|]];
      cbn [fst snd] in *.
    + split; [auto|]. eexists. split; [reflexivity|]. cbn.
      split; [repeat constructor; intros []|].
      split; intros G [<- | []]; [exact E | split; [now left | auto]].
    + split; [auto|]. eexists. split; [reflexivity|]. cbn.
      split; [repeat constructor; intros []|].
      split; intros G [<- | []]; [exact E | split; [now left | auto]].
  - split; [auto|]. eexists. split; [reflexivity|]. cbn.
    split; [constructor|]. split; [intros G [<- | []]; exact E | intros G []].
Qed.

Lemma each_unpacks {A} (body : A -> DiskState D -> Outcome unit * DiskState D) :
  (forall x st, unpacks_once D st (snd (body x st))) ->
  forall l st, unpacks_once D st (snd (each D l body st)).
Proof.
  intros Hbody. induction l as [|x l IH]; intros st; cbn [each].
  - apply unpacks_refl.
  - pose proof (Hbody x st) as Hx.
    destruct (body x st) as [[[]|e] st1]; cbn [snd] in *; [|exact Hx].
    apply (unpacks_trans Hx (IH st1)).
Qed.

Lemma unzip_unpacks unzip_path zip_files st :
  unpacks_once D st (snd (unzip D unzip_path zip_files st)).
Proof.
  unfold unzip. apply each_unpacks. intros dir st'.
  apply each_unpacks. intros file st''. apply unzip_file_unpacks.
Qed.

(** X13.  [unzip] unpacks into new folders only, once each.  On a file
    system where nothing that is there goes away and a folder that was made
    is there, a run of [unzip], whether it returns or raises, makes no
    folder that existed when it started and unpacks no archive into such a
    folder, unpacks into no folder twice -- of two archives whose names
    agree up to the first dot only the first is unpacked -- and leaves in
    place every folder it unpacked into, also the one whose archive failed
    to unpack. *)
Theorem unzip_once (unzip_path zip_files : string) (st : DiskState D) :
  let st' := snd (unzip D unzip_path zip_files st) in
  exists new,
    snd st' = snd st ++ new /\
    NoDup (extractions new) /\
    (forall F, In F (made_dirs new) \/ In F (extractions new) ->
               path_exists D (fst st) F = false) /\
    (forall F, In F (extractions new) -> path_exists D (fst st') F = true).
Proof.
  cbv zeta.
  destruct (unzip_unpacks unzip_path zip_files st)
    as [_ [new [Htr [Hnd [Hmade Hext]]]]].
  exists new. split; [exact Htr|]. split; [exact Hnd|]. split.
  - intros F [H | H]; [now apply Hmade|]. apply Hmade. now apply Hext.
  - intros F H. now apply Hext.
Qed.

Lemma each_raised {A} (body : A -> DiskState D -> Outcome unit * DiskState D) e :
  forall l st,
    fst (each D l body st) = Raised e ->
    exists x st1,
      In x l /\ fst (body x st1) = Raised e /\
      snd (each D l body st) = snd (body x st1).
Proof.
  induction l as [|x l IH]; intros st; cbn [each]; [discriminate|].
  destruct (body x st) as [[[]|e'] st1] eqn:E.
  - intros H. destruct (IH st1 H) as [y [st2 [Hin [Hy Hs]]]].
    exists y, st2. split; [now right|]. now split.
  - intros [= ->]. exists x, st. rewrite E. split; [now left|]. now split.
Qed.

Lemma unzip_file_zip_error unzip_path dirpath file st :
  fst (unzip_file D unzip_path dirpath file st) = Raised ZipError ->
  exists fullpath F,
    snd (snd (unzip_file D unzip_path dirpath file st))
    = snd st ++ [MakeDirs F true; ExtractAll fullpath F false] /\
    path_exists D (fst (snd (unzip_file D unzip_path dirpath file st))) F = true.
Proof.
  unfold unzip_file.
  destruct (Py.endswith file ".zip"); [|discriminate].
  set (F := (unzip_path ++ "/" ++ foldername_of file)%string).
  destruct (path_exists D (fst st) F); cbn [negb]; [discriminate|].
  pose proof (Hmakes (fst st) F) as Hmade.
  destruct (os_makedirs D F (fst st)) as [fs1 [|]]; cbn [fst snd] in *;
    [|discriminate].
  specialize (Hmade eq_refl).
  destruct (Hkeeps fs1 F Hmade) as [_ [_ Hk]].
  specialize (Hk (path_join dirpath file) F).
  destruct (extractall D (path_join dirpath file) F fs1) as [fs2 [|]];
    cbn [fst snd] in *; [discriminate|].
  intros _. now exists (path_join dirpath file), F.
Qed.

(** X14.  An archive that failed to unpack is not tried again.  When
    [unzip] raises because an archive does not unpack, the folder of the
    archive has been made before and stays; and a run of [unzip] on a file
    system where that folder exists neither makes it nor unpacks into it,
    whatever the tree it walks. *)
Theorem failed_extraction_not_retried (unzip_path zip_files : string)
  (st : DiskState D)
  (Hfail : fst (unzip D unzip_path zip_files st) = Raised ZipError) :
  let st' := snd (unzip D unzip_path zip_files st) in
  exists pre fullpath F,
    snd st' = pre ++ [MakeDirs F true; ExtractAll fullpath F false] /\
    path_exists D (fst st') F = true /\
    forall unzip_path2 zip_files2 st2,
      path_exists D (fst st2) F = true ->
      exists new2,
        snd (snd (unzip D unzip_path2 zip_files2 st2)) = snd st2 ++ new2 /\
        ~ In F (made_dirs new2) /\ ~ In F (extractions new2).
Proof.
  cbv zeta. unfold unzip in Hfail |- * at 1 2.
  apply each_raised in Hfail as [dir [st1 [_ [Hdir Hs]]]].
  apply each_raised in Hdir as [file [st2 [_ [Hfile Hs']]]].
  apply unzip_file_zip_error in Hfile as [fullpath [F [Htr HF]]].
  rewrite Hs, Hs'. exists (snd st2), fullpath, F.
  split; [exact Htr|]. split; [exact HF|].
  intros up2 zf2 s2 Hthere.
  destruct (unzip_once up2 zf2 s2) as [new2 [Htr2 [_ [Habsent _]]]].
  exists new2. split; [exact Htr2|].
  split; intros H; [specialize (Habsent F (or_introl H))
                   | specialize (Habsent F (or_intror H))]; congruence.
Qed.

Lemma each_done {A} (body : A -> DiskState D -> Outcome unit * DiskState D)
  (P : A -> FS D -> Prop) :
  (forall x st, fst (body x st) = Done tt -> P x (fst (snd (body x st)))) ->
  (forall x y st, P x (fst st) -> P x (fst (snd (body y st)))) ->
  forall l st,
    fst (each D l body st) = Done tt ->
    forall x, In x l -> P x (fst (snd (each D l body st))).
Proof.
  intros Hpost Hstable.
  assert (Hkeep : forall x l st, P x (fst st) -> P x (fst (snd (each D l body st)))).
  { intros x. induction l as [|y l IH]; intros st Hx; cbn [each]; [exact Hx|].
    pose proof (Hstable x y st Hx) as Hy.
    destruct (body y st) as [[[]|e] st1]; cbn [snd] in *; [now apply IH | exact Hy]. }
  induction l as [|y l IH]; intros st Hdone x Hin; [destruct Hin|].
  cbn [each] in *. pose proof (Hpost y st) as Hy.
  destruct (body y st) as [[[]|e] st1] eqn:E; cbn [fst snd] in *;
    [|discriminate].
  destruct Hin as [<- | Hin]; [apply Hkeep; now apply Hy | now apply IH].
Qed.

Lemma each_present {A} (body : A -> DiskState D -> Outcome unit * DiskState D) st :
  forall l, (forall x, In x l -> body x st = (Done tt, st)) ->
            each D l body st = (Done tt, st).
Proof.
  induction l as [|x l IH]; intros H; [reflexivity|].
  cbn [each]. rewrite (H x (or_introl eq_refl)).
  apply IH. intros y Hy. apply H. now right.
Qed.

(** X15.  Unpacking again.  After a run of [unzip] that returned, every
    archive of the walked tree has its folder, and a second run that walks
    the same tree makes no folder, unpacks nothing, logs nothing and
    returns. *)
Theorem unzip_again (unzip_path zip_files : string) (st : DiskState D)
  (Hdone : fst (unzip D unzip_path zip_files st) = Done tt)
  (Hwalk : os_walk D (fst (snd (unzip D unzip_path zip_files st))) zip_files
           = os_walk D (fst st) zip_files) :
  let fs' := fst (snd (unzip D unzip_path zip_files st)) in
  (forall dirpath files file,
     In (dirpath, files) (os_walk D (fst st) zip_files) -> In file files ->
     Py.endswith file ".zip" = true ->
     path_exists D fs' (unzip_path ++ "/" ++ foldername_of file) = true) /\
  forall tr, unzip D unzip_path zip_files (fs', tr) = (Done tt, (fs', tr)).
Proof.
  cbv zeta.
  set (there := fun (file : string) (fs : FS D) =>
         Py.endswith file ".zip" = true ->
         path_exists D fs (unzip_path ++ "/" ++ foldername_of file) = true).
  assert (Hstable_file : forall file dirpath g s,
            there file (fst s) ->
            there file (fst (snd (unzip_file D unzip_path dirpath g s)))).
  { intros file dirpath g s H Hz.
    destruct (unzip_file_unpacks unzip_path dirpath g s) as [Hm _].
    apply Hm. now apply H. }
  assert (Hpost_file : forall dirpath file s,
            fst (unzip_file D unzip_path dirpath file s) = Done tt ->
            there file (fst (snd (unzip_file D unzip_path dirpath file s)))).
  { intros dirpath file s Hd Hz. revert Hd. unfold unzip_file. rewrite Hz.
    set (F := (unzip_path ++ "/" ++ foldername_of file)%string).
    destruct (path_exists D (fst s) F) eqn:E; cbn [negb]; [intros _; exact E|].
    pose proof (Hmakes (fst s) F) as Hmade.
    destruct (os_makedirs D F (fst s)) as [fs1 [|]]; cbn [fst snd] in *;
      [|discriminate].
    specialize (Hmade eq_refl).
    destruct (Hkeeps fs1 F Hmade) as [_ [_ Hk]].
    specialize (Hk (path_join dirpath file) F).
    destruct (extractall D (path_join dirpath file) F fs1) as [fs2 [|]];
      cbn [fst snd] in *; [intros _; exact Hk | discriminate]. }
  set (inner := fun (dir : string * list string) =>
         each D (snd dir) (unzip_file D unzip_path (fst dir))).
  assert (Hall : forall dir, In dir (os_walk D (fst st) zip_files) ->
            forall file, In file (snd dir) ->
            there file (fst (snd (unzip D unzip_path zip_files st)))).
  { intros dir Hdir.
    apply (@each_done _ inner
             (fun dir fs => forall file, In file (snd dir) -> there file fs)).
    - intros d s Hd file Hfile.
      now apply (@each_done _ (unzip_file D unzip_path (fst d)) there
                   (Hpost_file (fst d))
                   (fun x y s' => Hstable_file x (fst d) y s')).
    - intros d d' s H file Hfile. specialize (H file Hfile). intros Hz.
      destruct (each_unpacks (unzip_file D unzip_path (fst d'))
                  (unzip_file_unpacks unzip_path (fst d')) (snd d') s)
        as [Hm _].
      apply Hm. now apply H.
    - exact Hdone.
    - exact Hdir. }
  split.
  - intros dirpath files file Hdir Hfile Hz.
    now apply (Hall (dirpath, files) Hdir file Hfile).
  - intros tr. unfold unzip at 1. cbn [fst]. rewrite Hwalk.
    apply each_present. intros dir Hdir.
    apply each_present. intros file Hfile.
    unfold unzip_file. destruct (Py.endswith file ".zip") eqn:Hz; [|reflexivity].
    cbn [fst]. now rewrite (Hall dir Hdir file Hfile Hz).
Qed.

End UnzipFacts.

Lemma unzip_once_witness :
  exists new,
    snd (snd (Archive.unzip Archive.list_disk "./unzip_files" "./zip_files"
                ([], [])))
    = snd (@pair (list string) (list Archive.DiskEvent) [] []) ++ new /\
    NoDup (Archive.extractions new) /\
    (forall F, In F (Archive.made_dirs new) \/ In F (Archive.extractions new) ->
               Archive.path_exists Archive.list_disk [] F = false) /\
    (forall F, In F (Archive.extractions new) ->
               Archive.path_exists Archive.list_disk
                 (fst (snd (Archive.unzip Archive.list_disk "./unzip_files"
                              "./zip_files" ([], [])))) F = true).
Proof.
  apply (@unzip_once Archive.list_disk list_disk_keeps list_disk_makes
           "./unzip_files" "./zip_files" ([], [])).
Defined.

Lemma failed_extraction_not_retried_witness :
  exists pre fullpath F,
    snd (snd (Archive.unzip Archive.list_disk "./unzip_files" "./zip_files"
                ([], [])))
    = pre ++ [Archive.MakeDirs F true; Archive.ExtractAll fullpath F false] /\
    Archive.path_exists Archive.list_disk
      (fst (snd (Archive.unzip Archive.list_disk "./unzip_files" "./zip_files"
                   ([], [])))) F = true /\
    forall unzip_path2 zip_files2 st2,
      Archive.path_exists Archive.list_disk (fst st2) F = true ->
      exists new2,
        snd (snd (Archive.unzip Archive.list_disk unzip_path2 zip_files2 st2))
        = snd st2 ++ new2 /\
        ~ In F (Archive.made_dirs new2) /\ ~ In F (Archive.extractions new2).
Proof.
  apply (@failed_extraction_not_retried Archive.list_disk list_disk_keeps
           list_disk_makes "./unzip_files" "./zip_files" ([], [])).
  reflexivity.
Defined.

Lemma unzip_again_witness :
  Archive.unzip Archive.list_disk "./unzip_files" "./zip_files"
    (["./unzip_files/2022_03_notes"; "./unzip_files/bad"], [])
  = (Archive.Done tt, (["./unzip_files/2022_03_notes"; "./unzip_files/bad"], [])).
Proof.
  apply (proj2 (@unzip_again Archive.list_disk list_disk_keeps list_disk_makes
                  "./unzip_files" "./zip_files"
                  (["./unzip_files/bad"], []) eq_refl eq_refl) []).
Defined.

(** ** The name of a downloaded archive *)

Lemma split_no_sep sep : forall s,
  occurrences sep s = 0 -> Py.split sep s = [s].
Proof.
  unfold occurrences. induction s as [|c s IH]; intros H; [reflexivity|].
  cbn [list_ascii_of_string filter] in H. cbn [Py.split].
  rewrite (Ascii.eqb_sym c sep).
  destruct (Ascii.eqb sep c); [discriminate H|]. now rewrite (IH H).
Qed.

Lemma split_fields_no_sep sep : forall s,
  Forall (fun f => occurrences sep f = 0) (Py.split sep s).
Proof.
  unfold occurrences. induction s as [|c s IH]; cbn [Py.split].
  - repeat constructor.
  - destruct (Ascii.eqb c sep) eqn:E; [constructor; [reflexivity | exact IH]|].
    destruct (Py.split sep s) as [|f fs]; [repeat constructor|].
    + cbn. now rewrite (Ascii.eqb_sym sep c), E.
    + inversion IH as [|? ? Hf Hfs]; subst. constructor; [|exact Hfs].
      cbn [list_ascii_of_string filter]. now rewrite (Ascii.eqb_sym sep c), E.
Qed.

Lemma last_split_app sep name : forall base,
  occurrences sep name = 0 ->
  last (Py.split sep (base ++ String sep name)) EmptyString = name.
Proof.
  intros base Hname. induction base as [|c base IH].
  - cbn [append Py.split]. rewrite Ascii.eqb_refl, (split_no_sep _ _ Hname).
    reflexivity.
  - change (last (Py.split sep (String c (base ++ String sep name))) EmptyString
            = name).
    cbn [Py.split].
    pose proof (split_length sep (base ++ String sep name)) as Hlen.
    destruct (Py.split sep (base ++ String sep name)) as [|f fs] eqn:E;
      [discriminate Hlen|].
    assert (Hfs : fs <> []).
    { intros ->. cbn [List.length] in Hlen. injection Hlen as Hlen.
      unfold occurrences in Hlen.
      assert (Hin : In sep (filter (Ascii.eqb sep)
                              (list_ascii_of_string (base ++ String sep name)))).
      { apply filter_In. split; [|apply Ascii.eqb_refl].
        clear. induction base as [|b base IHb]; [now left | now right]. }
      destruct (filter _ _); [destruct Hin | discriminate Hlen]. }
    destruct (Ascii.eqb c sep).
    + rewrite <- IH. cbn [last]. reflexivity.
    + rewrite <- IH. destruct fs as [|g gs]; [now elim Hfs | reflexivity].
Qed.

(** X16.  The file a link stands for.  The name [download_zipfiles] looks
    for is what follows the last slash of the link: it holds no slash, so it
    is looked for inside the download directory, and for a link that ends in
    a slash and a name without slash it is that name. *)
Theorem file_name_after_last_slash (link : string) :
  occurrences "/"%char (Archive.file_name_of link) = 0 /\
  String.prefix "/" (Archive.file_name_of link) = false /\
  (forall base name, occurrences "/"%char name = 0 ->
     Archive.file_name_of (base ++ String "/"%char name) = name).
Proof.
  unfold Archive.file_name_of.
  assert (Hlast : occurrences "/"%char
                    (last (Py.split "/"%char link) EmptyString) = 0).
  { pose proof (split_fields_no_sep "/"%char link) as HF.
    induction (Py.split "/"%char link) as [|f fs IH]; [reflexivity|].
    inversion HF as [|? ? Hf Hfs]; subst.
    destruct fs; [exact Hf | now apply IH]. }
  split; [exact Hlast|]. split.
  - destruct (last (Py.split "/"%char link) EmptyString) as [|c s];
      [reflexivity|].
    unfold occurrences in Hlast. cbn [list_ascii_of_string filter] in Hlast.
    cbn [String.prefix]. destruct (Ascii.ascii_dec "/"%char c) as [<- | Hne].
    + discriminate Hlast.
    + destruct (Ascii.ascii_dec "/" c); [contradiction | reflexivity].
  - intros base name Hname. now apply last_split_app.
Qed.

Lemma file_name_after_last_slash_witness :
  Archive.file_name_of
    ("https://www.sec.gov/files/dera/data" ++ String "/"%char "2022_04_notes.zip")
  = "2022_04_notes.zip".
Proof.
  apply (proj2 (proj2 (file_name_after_last_slash EmptyString))
           "https://www.sec.gov/files/dera/data" "2022_04_notes.zip").
  reflexivity.
Defined.
